(** * cuchembm metrics: sampling and embedding metric engines

    A shallow embedding of [benchmark/cuchembm/metrics/sampling.py] and
    [benchmark/cuchembm/metrics/embedding.py], with the pure parts of
    [nvidia/cheminformatics/data/helper/chembldata.py] (batching),
    [benchmark_megamolbart.py] (statistics) and
    [benchmark/cuchembench/utils/smiles.py] (similarity of pairs).

    - Python [int] is [Z]; Python [float] / [numpy.float64] is an IEEE-754
      binary64 value, represented by [spec_float] at precision 53 and
      maximal exponent 1024.
    - Python exceptions are the [Raise] results of [res]; a method that
      mutates the cache or calls the inference client is a function from a
      [world] to a result and the next [world].
    - Collaborators whose code is outside the two files (inference client,
      result cache, RDKit, the training set, numpy / scikit-learn numerics)
      are section variables or class instances. *)

From Stdlib Require Import ZArith List String Bool Lia.
From Corelib Require Import SpecFloat.
From stdpp Require Import gmap strings list.

Local Open Scope Z_scope.

(** ** Python values *)

Module Py.

Inductive exn : Type :=
  | AssertionError
  | AttributeError
  | IndexError
  | OverflowError
  | ValueError
  | NotFittedError
  | TypeError
  | ClientError (msg : string).

Inductive res (A : Type) : Type :=
  | Ok (a : A)
  | Raise (e : exn).
Arguments Ok {A} a.
Arguments Raise {A} e.

(** Truth value of an optional integer: [None] and [0] are falsy. *)
Definition truthy_int (o : option Z) : bool :=
  match o with
  | None => false
  | Some z => negb (z =? 0)
  end.

(** [l[1:]] *)
Definition slice_from_1 {A} (l : list A) : list A := List.tl l.

(** [sum] of a list of [bool] (each [True] counts 1). *)
Definition sum_bools (l : list bool) : Z :=
  fold_left (fun acc (b : bool) => acc + (if b then 1 else 0)) l 0.

End Py.
Export Py.

(** ** binary64 *)

Module F64.

Definition prec : Z := 53.
Definition emax : Z := 1024.

Abbreviation float := spec_float.

Definition zero : float := S754_zero false.
Definition inf : float := S754_infinity false.
Definition nan : float := S754_nan.
Definition one : float := S754_finite false 4503599627370496 (-52).

Definition div (x y : float) : float := SFdiv prec emax x y.
Definition add (x y : float) : float := SFadd prec emax x y.
Definition sub (x y : float) : float := SFsub prec emax x y.
Definition mul (x y : float) : float := SFmul prec emax x y.
Definition ltb (x y : float) : bool := SFltb x y.

(** Nearest-even conversion of an integer ([numpy.int64] to
    [numpy.float64]); an integer beyond the binary64 range becomes an
    infinity. *)
Definition of_Z (z : Z) : float := binary_normalize prec emax z 0 false.

(** A float that is neither NaN nor an infinity. *)
Definition is_finite (x : float) : bool :=
  match x with
  | S754_zero _ | S754_finite _ _ _ => true
  | _ => false
  end.

(** Strictly positive and finite. *)
Definition is_pos_finite (x : float) : bool :=
  match x with
  | S754_finite false _ _ => true
  | _ => false
  end.

(** Well-formed binary64 datum. *)
Definition valid (x : float) : bool := valid_binary prec emax x.

(** Python's [float(n)] for an [int] [n]: raises [OverflowError] when the
    integer is too large for a binary64. *)
Definition py_float (z : Z) : res float :=
  match of_Z z with
  | S754_infinity _ => Raise OverflowError
  | f => Ok f
  end.

End F64.

(** [spec_float] as a key component of a finite map. *)
#[global] Instance spec_float_eq_dec : EqDecision spec_float.
Proof. solve_decision. Defined.

Definition spec_float_enc (x : spec_float) : bool + (bool + (unit + bool * positive * Z)) :=
  match x with
  | S754_zero s => inl s
  | S754_infinity s => inr (inl s)
  | S754_nan => inr (inr (inl tt))
  | S754_finite s m e => inr (inr (inr (s, m, e)))
  end.

Definition spec_float_dec (c : bool + (bool + (unit + bool * positive * Z))) : spec_float :=
  match c with
  | inl s => S754_zero s
  | inr (inl s) => S754_infinity s
  | inr (inr (inl _)) => S754_nan
  | inr (inr (inr (s, m, e))) => S754_finite s m e
  end.

#[global] Instance spec_float_countable : Countable spec_float.
Proof.
  apply (inj_countable' spec_float_enc spec_float_dec).
  intros []; reflexivity.
Defined.


(** ** Collaborators *)

Definition vector := list F64.float.
Definition shape := list Z.

(** The data frame returned by [inferrer.find_similars_smiles]: the columns
    the metrics read.  Row 0 is the input molecule. *)
Record SampleFrame := {
  SMILES : list string;
  embeddings : list vector;
  embeddings_dim : list shape }.

(** The message returned by [inferrer.smiles_to_embedding]. *)
Record EmbeddingList := {
  embedding : vector;
  dim : shape }.

(** The request fingerprint of a sampling call, in the argument order of
    [fetch_sampling_data]: inferrer class name, molecule, sample count,
    scaled radius, [force_unique], [sanitize]. *)
Definition sample_key : Type := string * string * Z * F64.float * bool * bool.

(** The inference client.  A call may fail, and may change the client. *)
Class Inferrer (I : Type) := {
  class_name : string;
  find_similars_smiles :
    I -> string -> Z -> F64.float -> bool -> bool -> res SampleFrame * I;
  smiles_to_embedding : I -> string -> option Z -> res EmbeddingList * I }.
Arguments class_name I {_}.

(** Modelled from the spec: the result cache ([cuchembm.data], absent from
    the sources).  A fetch is a pure lookup that answers [None] when the
    fingerprint is absent; a fetch after an insert of the same fingerprint
    answers what was inserted; sampling and embedding entries live in
    separate name spaces. *)
Class ResultCache (C : Type) := {
  fetch_sampling_data : C -> sample_key -> option (list string);
  insert_sampling_data :
    C -> sample_key -> list string -> list vector -> list shape -> C;
  fetch_embedding_data : C -> string -> option (vector * shape);
  insert_embedding_data : C -> string -> vector -> shape -> C;
  fetch_insert_sampling c k g e d :
    fetch_sampling_data (insert_sampling_data c k g e d) k = Some g;
  fetch_insert_sampling_ne c k k' g e d :
    k <> k' ->
    fetch_sampling_data (insert_sampling_data c k g e d) k'
    = fetch_sampling_data c k';
  fetch_insert_embedding c s v d :
    fetch_embedding_data (insert_embedding_data c s v d) s = Some (v, d);
  fetch_insert_embedding_ne c s s' v d :
    s <> s' ->
    fetch_embedding_data (insert_embedding_data c s v d) s'
    = fetch_embedding_data c s';
  fetch_sampling_insert_embedding c s v d k :
    fetch_sampling_data (insert_embedding_data c s v d) k
    = fetch_sampling_data c k;
  fetch_embedding_insert_sampling c k g e d s :
    fetch_embedding_data (insert_sampling_data c k g e d) s
    = fetch_embedding_data c s }.

(** Modelled from the spec: a cache made of two finite maps, one per name
    space; an insert overwrites. *)
Record MapCache := {
  sampling_table : gmap sample_key (list string * list vector * list shape);
  embedding_table : gmap string (vector * shape) }.

Definition MapCache_empty : MapCache :=
  {| sampling_table := ∅; embedding_table := ∅ |}.

#[global, refine] Instance MapCache_cache : ResultCache MapCache := {|
  fetch_sampling_data c k := (fun e => e.1.1) <$> sampling_table c !! k;
  insert_sampling_data c k g e d :=
    {| sampling_table := <[k := (g, e, d)]> (sampling_table c);
       embedding_table := embedding_table c |};
  fetch_embedding_data c s := embedding_table c !! s;
  insert_embedding_data c s v d :=
    {| sampling_table := sampling_table c;
       embedding_table := <[s := (v, d)]> (embedding_table c) |} |}.
Proof.
  - intros; cbn. by rewrite lookup_insert_eq.
  - intros; cbn. by rewrite lookup_insert_ne.
  - intros; cbn. by rewrite lookup_insert_eq.
  - intros; cbn. by rewrite lookup_insert_ne.
  - reflexivity.
  - reflexivity.
Defined.

(** One invocation of the inference client. *)
Inductive client_call :=
  | FindSimilars (k : sample_key)
  | SmilesToEmbedding (smiles : string) (max_seq_len : option Z).

(** The mutable objects a metric holds references to, and the record of the
    client invocations made so far (oldest first). *)
Record world (C I : Type) := World {
  sample_cache : C;
  inferrer : I;
  calls : list client_call }.
Arguments World {C I}.
Arguments sample_cache {C I}.
Arguments inferrer {C I}.
Arguments calls {C I}.

(** Computations that may raise and that update the world. *)
Definition M (W A : Type) : Type := W -> res A * W.

Definition ret {W A} (a : A) : M W A := fun w => (Ok a, w).
Definition raise {W A} (e : exn) : M W A := fun w => (Raise e, w).
Definition bind {W A B} (m : M W A) (k : A -> M W B) : M W B :=
  fun w => match m w with
           | (Ok a, w') => k a w'
           | (Raise e, w') => (Raise e, w')
           end.
Definition lift {W A} (r : res A) : M W A := fun w => (r, w).

Notation "x <- m ;; k" := (bind m (fun x => k))
  (at level 100, m at next level, right associativity).

(** ** sampling.py *)

(** The [pandas.Series] returned by [BaseSampleMetric.calculate]. *)
Record SampleSeries := {
  series_name : string;
  series_value : F64.float;
  series_radius : F64.float;
  series_num_samples : Z }.

(** [numpy.nansum] of an integer array.  The entries are per-molecule
    counts, each at most the length of a generated list, so the 64-bit
    accumulator never wraps. *)
Definition np_nansum (metric_array : list Z) : Z :=
  fold_right Z.add 0 metric_array.

Module BaseSampleMetric.
Section Methods.
Context {C I : Type} `{!ResultCache C} `{!Inferrer I}.

Definition _find_similars_smiles (smiles : string) (num_samples : Z)
    (scaled_radius : F64.float) (force_unique sanitize : bool)
  : M (world C I) (list string) :=
  fun w =>
    let key := (class_name I, smiles, num_samples, scaled_radius,
                force_unique, sanitize) in
    match fetch_sampling_data (sample_cache w) key with
    | Some (g :: gs) => (Ok (g :: gs), w)
    | None | Some [] =>
      (* [if not generated_smiles]: nothing stored, or an empty list *)
      let called := calls w ++ [FindSimilars key] in
      match find_similars_smiles (inferrer w) smiles num_samples
              scaled_radius force_unique sanitize with
      | (Raise e, i') => (Raise e, World (sample_cache w) i' called)
      | (Ok result, i') =>
        let generated_smiles := SMILES result in
        let cache' :=
          insert_sampling_data (sample_cache w) key generated_smiles
            (embeddings result) (embeddings_dim result) in
        (Ok generated_smiles, World cache' i' called)
      end
    end.

Definition _calculate_metric (metric_array : list Z) (num_samples : Z)
  : res F64.float :=
  let total_samples := Z.of_nat (length metric_array) * num_samples in
  match F64.py_float total_samples with
  | Raise e => Raise e
  | Ok denominator =>
    Ok (F64.div (F64.of_Z (np_nansum metric_array)) denominator)
  end.

(** The body of the [for index in range(len(smiles_dataset.smiles))] loop
    of [sample_many], over the indices still to visit. *)
Fixpoint sample_many_loop
    (sample : string -> Z -> F64.float -> M (world C I) Z)
    (smiles_dataset : list string) (num_samples : Z) (radius : F64.float)
    (indices : list nat) (metric_result : list Z)
  : M (world C I) (list Z) :=
  match indices with
  | [] => ret metric_result
  | index :: rest =>
    match smiles_dataset !! index with
    | None => raise IndexError
    | Some smiles =>
      result <- sample smiles num_samples radius ;;
      sample_many_loop sample smiles_dataset num_samples radius rest
        (metric_result ++ [result])
    end
  end.

Definition sample_many
    (sample : string -> Z -> F64.float -> M (world C I) Z)
    (smiles_dataset : list string) (num_samples : Z) (radius : F64.float)
  : M (world C I) (list Z) :=
  sample_many_loop sample smiles_dataset num_samples radius
    (seq 0 (length smiles_dataset)) [].

Definition calculate (name : string)
    (sample : string -> Z -> F64.float -> M (world C I) Z)
    (dataset : list string) (radius : F64.float) (num_samples : Z)
  : M (world C I) SampleSeries :=
  metric_array <- sample_many sample dataset num_samples radius ;;
  metric <- lift (_calculate_metric metric_array num_samples) ;;
  ret {| series_name := name;
         series_value := metric;
         series_radius := radius;
         series_num_samples := num_samples |}.

End Methods.
End BaseSampleMetric.

Module Validity.
Section Methods.
Context {C I : Type} `{!ResultCache C} `{!Inferrer I}.
(** Truth value of [Chem.MolFromSmiles(s)] (RDKit). *)
Variable MolFromSmiles : string -> bool.

Definition name : string := "validity"%string.

Definition sample (smiles : string) (num_samples : Z) (radius : F64.float)
  : M (world C I) Z :=
  generated_smiles <-
    BaseSampleMetric._find_similars_smiles smiles num_samples radius
      false false ;;
  ret (fold_left
         (fun valid_ctr new_smiles =>
            if MolFromSmiles new_smiles then valid_ctr + 1 else valid_ctr)
         (slice_from_1 generated_smiles) 0).

Definition calculate := BaseSampleMetric.calculate name sample.

End Methods.
End Validity.

Module Unique.
Section Methods.
Context {C I : Type} `{!ResultCache C} `{!Inferrer I}.

Definition name : string := "unique"%string.

Definition sample (smiles : string) (num_samples : Z) (radius : F64.float)
  : M (world C I) Z :=
  generated_smiles <-
    BaseSampleMetric._find_similars_smiles smiles num_samples radius
      false false ;;
  let generated_smiles : gset string :=
    list_to_set (slice_from_1 generated_smiles) in
  ret (Z.of_nat (size generated_smiles)).

Definition calculate := BaseSampleMetric.calculate name sample.

End Methods.
End Unique.

Module Novelty.
Section Methods.
Context {C I : Type} `{!ResultCache C} `{!Inferrer I}.
(** [training_data.is_known_smiles] (the training-set collaborator). *)
Variable is_known_smiles : string -> bool.

Definition name : string := "novelty"%string.

Definition smiles_in_train (smiles : string) : bool :=
  is_known_smiles smiles.

Definition sample (smiles : string) (num_samples : Z) (radius : F64.float)
  : M (world C I) Z :=
  generated_smiles <-
    BaseSampleMetric._find_similars_smiles smiles num_samples radius
      false false ;;
  ret (sum_bools (map smiles_in_train generated_smiles)).

Definition calculate := BaseSampleMetric.calculate name sample.

End Methods.
End Novelty.

(** ** Stub collaborators for concrete runs *)

Module Stub.

(** A client that answers every sampling request with a fixed list of
    molecules and every embedding request with a fixed embedding. *)
Record FixedClient := {
  fixed_smiles : list string;
  fixed_embedding : EmbeddingList }.

#[global] Instance FixedClient_inferrer : Inferrer FixedClient := {|
  class_name := "FixedClient"%string;
  find_similars_smiles i _ _ _ _ _ :=
    (Ok {| SMILES := fixed_smiles i;
           embeddings := map (fun _ => []) (fixed_smiles i);
           embeddings_dim := map (fun _ => []) (fixed_smiles i) |}, i);
  smiles_to_embedding i _ _ := (Ok (fixed_embedding i), i) |}.

Definition no_embedding : EmbeddingList := {| embedding := []; dim := [] |}.

Definition start (generated : list string) : world MapCache FixedClient :=
  World MapCache_empty
    {| fixed_smiles := generated; fixed_embedding := no_embedding |} [].

(** The answer of the stubbed client for molecule "CCO" in the end-to-end
    scenario. *)
Definition cco_samples : list string :=
  ["CCO"; "CCC"; "invalid_string"; "CCO"]%string.

(** A training set that holds "CCO" only. *)
Definition only_cco (smiles : string) : bool := String.eqb smiles "CCO".

(** A client that answers a sampling request with the molecule and one
    candidate, and an embedding request with a 1 x 2 embedding; its state
    counts the calls it served. *)
Record EchoClient := { served : nat }.

#[global] Instance EchoClient_inferrer : Inferrer EchoClient := {|
  class_name := "EchoClient"%string;
  find_similars_smiles i smiles _ _ _ _ :=
    (Ok {| SMILES := [smiles; "CCC"%string];
           embeddings := [[]; []];
           embeddings_dim := [[]; []] |}, {| served := S (served i) |});
  smiles_to_embedding i _ _ :=
    (Ok {| embedding := [F64.zero; F64.zero]; dim := [1; 2] |},
     {| served := S (served i) |}) |}.

Definition echo_start : world MapCache EchoClient :=
  World MapCache_empty {| served := 0 |} [].

(** A client state whose embedding answer has a [dim] of length 1. *)
Definition flat_start : world MapCache FixedClient :=
  World MapCache_empty
    {| fixed_smiles := cco_samples;
       fixed_embedding := {| embedding := [F64.zero; F64.zero];
                             dim := [2] |} |} [].

(** radius 0.1 (nearest binary64) *)
Definition radius_0_1 : F64.float :=
  S754_finite false 7205759403792794 (-56).

End Stub.

(** ** embedding.py *)

(** The three aligned columns of a dataset; [FP] is the fingerprint table. *)
Record Dataset (FP : Type) := {
  ds_smiles : list string;
  ds_fingerprints : FP;
  ds_properties : list (string * list F64.float);
  ds_max_seq_len : Z }.
Arguments ds_smiles {FP}.
Arguments ds_fingerprints {FP}.
Arguments ds_properties {FP}.
Arguments ds_max_seq_len {FP}.

Module BaseEmbeddingMetric.
Section Methods.
Context {C I : Type} `{!ResultCache C} `{!Inferrer I}.
(** The array handling of [encode] (reshape to [dim], squeeze, zero the
    padding, average or flatten), done by numpy / cupy. *)
Variable reshape_embedding :
  string -> bool -> bool -> vector -> shape -> res vector.

Definition _find_embedding (smiles : string) (max_seq_len : option Z)
  : M (world C I) (vector * shape) :=
  fun w =>
    let call_client :=
      let called := calls w ++ [SmilesToEmbedding smiles max_seq_len] in
      match smiles_to_embedding (inferrer w) smiles max_seq_len with
      | (Raise e, i') => (Raise e, World (sample_cache w) i' called)
      | (Ok embedding_results, i') =>
        let cache' :=
          insert_embedding_data (sample_cache w) smiles
            (embedding embedding_results) (dim embedding_results) in
        (Ok (embedding embedding_results, dim embedding_results),
         World cache' i' called)
      end in
    match fetch_embedding_data (sample_cache w) smiles with
    | None => call_client
    | Some (embedding, embedding_dim) =>
      if (length embedding_dim =? 1)%nat then call_client
      else (Ok (embedding, embedding_dim), w)
    end.

Definition encode (smiles : string) (zero_padded_vals average_tokens : bool)
    (max_seq_len : option Z) : M (world C I) vector :=
  r <- _find_embedding smiles max_seq_len ;;
  lift (reshape_embedding smiles zero_padded_vals average_tokens r.1 r.2).

Fixpoint encode_many_loop (zero_padded_vals average_tokens : bool)
    (max_seq_len : option Z) (todo : list string) (embeddings : list vector)
  : M (world C I) (list vector) :=
  match todo with
  | [] => ret embeddings
  | smiles :: rest =>
    embedding <- encode smiles zero_padded_vals average_tokens max_seq_len ;;
    encode_many_loop zero_padded_vals average_tokens max_seq_len rest
      (embeddings ++ [embedding])
  end.

Definition encode_many {FP} (dataset : Dataset FP) (max_seq_len : option Z)
    (zero_padded_vals average_tokens : bool) : M (world C I) (list vector) :=
  let max_seq_len :=
    if truthy_int max_seq_len then max_seq_len
    else Some (ds_max_seq_len dataset) in
  encode_many_loop zero_padded_vals average_tokens max_seq_len
    (ds_smiles dataset) [].

End Methods.
End BaseEmbeddingMetric.

(** The dictionary returned by [NearestNeighborCorrelation.calculate]. *)
Record NNCResult := {
  nnc_name : string;
  nnc_value : F64.float;
  nnc_top_k : Z }.

Module NearestNeighborCorrelation.
Section Methods.
Context {C I FP : Type} `{!ResultCache C} `{!Inferrer I}.
Variable reshape_embedding :
  string -> bool -> bool -> vector -> shape -> res vector.
(** [pairwise_distances], [tanimoto_calculate] and [spearmanr]: the
    per-row rank correlations of the two distance matrices. *)
Variable spearmanr_of_distances :
  list vector -> FP -> option Z -> res (list F64.float).
(** [numpy.nanmean] *)
Variable nanmean : list F64.float -> F64.float.

Definition name : string := "nearest neighbor correlation"%string.

Definition _calculate_metric (embeddings : list vector) (fingerprints : FP)
    (top_k : option Z) : res (list F64.float) :=
  spearmanr_of_distances embeddings fingerprints top_k.

Definition calculate (dataset : Dataset FP) (top_k : option Z)
  : M (world C I) NNCResult :=
  embeddings <-
    BaseEmbeddingMetric.encode_many reshape_embedding dataset None
      true false ;;
  metric <-
    lift (_calculate_metric embeddings (ds_fingerprints dataset) top_k) ;;
  let metric := nanmean metric in
  let top_k :=
    (* [embeddings.shape[0] - 1 if not top_k else top_k]: [None] and [0]
       are falsy *)
    match top_k with
    | Some k => if k =? 0 then Z.of_nat (length embeddings) - 1 else k
    | None => Z.of_nat (length embeddings) - 1
    end in
  ret {| nnc_name := name; nnc_value := metric; nnc_top_k := top_k |}.

End Methods.
End NearestNeighborCorrelation.

(** A regression estimator object (scikit-learn / cuML interface).  Each
    method answers the estimator as the call leaves it: [set_params]
    stores hyperparameters, [fit] stores the fitted model, [predict] reads
    it. *)
Class Estimator (E P : Type) := {
  set_params : E -> P -> res E;
  fit : E -> list vector -> list F64.float -> res E;
  predict : E -> list vector -> res (list F64.float) }.

(** The dictionary returned by [Modelability._calculate_metric]. *)
Record ModelabilityResult (P : Type) := {
  value : F64.float;
  fingerprint_error : F64.float;
  embedding_error : F64.float;
  fingerprint_param : option P;
  embedding_param : option P;
  fingerprint_pred : option (list F64.float);
  embedding_pred : option (list F64.float) }.
Arguments value {P}.
Arguments fingerprint_error {P}.
Arguments embedding_error {P}.
Arguments fingerprint_param {P}.
Arguments embedding_param {P}.
Arguments fingerprint_pred {P}.
Arguments embedding_pred {P}.

(** [a[idx]] for an index array [idx]. *)
Fixpoint take_rows {A} (a : list A) (idx : list nat) : res (list A) :=
  match idx with
  | [] => Ok []
  | i :: rest =>
    match a !! i, take_rows a rest with
    | Some x, Ok xs => Ok (x :: xs)
    | None, _ => Raise IndexError
    | _, Raise e => Raise e
    end
  end.

Module Modelability.
Section Methods.
Context {E P PD S : Type} `{!Estimator E P}.
(** [sklearn.model_selection.ParameterGrid]: the combinations of a
    hyperparameter dictionary, in grid order. *)
Variable ParameterGrid : PD -> list P.
(** [KFold(n_splits, shuffle=True, random_state=0).split] on a number of
    rows: the (train, test) index arrays of every fold. *)
Variable kfold_split : Z -> nat -> res (list (list nat * list nat)).
(** [mean_squared_error(ypred, ytest).item()] *)
Variable mean_squared_error :
  list F64.float -> list F64.float -> res F64.float.
(** [numpy.nanmean] *)
Variable nanmean : list F64.float -> F64.float.
(** [xpy.asarray(column, dtype=xpy.float32)] *)
Variable asarray_float32 : list F64.float -> list F64.float.
(** [StandardScaler().fit_transform] on features, and on the target (which
    answers the fitted scaler too); [inverse_transform] of a fitted
    scaler. *)
Variable fit_transform_data : list vector -> res (list vector).
Variable fit_transform_prop : list F64.float -> res (S * list F64.float).
Variable inverse_transform : S -> list F64.float -> res (list F64.float).

(** The attributes of a [Modelability] object. *)
Variable n_splits : Z.
Variable return_predictions : bool.
Variable normalize_inputs : bool.

(** The [for train_idx, test_idx in kfold_gen.split(xdata, ydata)] loop. *)
Fixpoint kfold_loop (xdata : list vector) (ydata : list F64.float)
    (folds : list (list nat * list nat)) (kfold_mse : list F64.float)
  : M E (list F64.float) :=
  match folds with
  | [] => ret kfold_mse
  | (train_idx, test_idx) :: rest =>
    xtrain <- lift (take_rows xdata train_idx) ;;
    xtest <- lift (take_rows xdata test_idx) ;;
    ytrain <- lift (take_rows ydata train_idx) ;;
    ytest <- lift (take_rows ydata test_idx) ;;
    _ <- (fun estimator =>
            match fit estimator xtrain ytrain with
            | Ok estimator' => (Ok tt, estimator')
            | Raise e => (Raise e, estimator)
            end) ;;
    ypred <- (fun estimator => (predict estimator xtest, estimator)) ;;
    mse <- lift (mean_squared_error ypred ytest) ;;
    kfold_loop xdata ydata rest (kfold_mse ++ [mse])
  end.

(** One pass of the grid loop up to [avg_mse]: set the parameters, run the
    folds, average the fold errors. *)
Definition cross_validate (param : P) (xdata : list vector)
    (ydata : list F64.float) : M E F64.float :=
  _ <- (fun estimator =>
          match set_params estimator param with
          | Ok estimator' => (Ok tt, estimator')
          | Raise e => (Raise e, estimator)
          end) ;;
  folds <- lift (kfold_split n_splits (length xdata)) ;;
  kfold_mse <- kfold_loop xdata ydata folds [] ;;
  ret (nanmean kfold_mse).

(** The [for param in ParameterGrid(param_dict)] loop, carrying
    [(best_score, best_param, best_pred)]. *)
Fixpoint grid_loop (xdata : list vector) (ydata : list F64.float)
    (grid : list P)
    (best : F64.float * option P * option (list F64.float))
  : M E (F64.float * option P * option (list F64.float)) :=
  match grid with
  | [] => ret best
  | param :: rest =>
    let '(best_score, best_param, best_pred) := best in
    avg_mse <- cross_validate param xdata ydata ;;
    if F64.ltb avg_mse best_score then
      if return_predictions then
        pred <- (fun estimator => (predict estimator xdata, estimator)) ;;
        grid_loop xdata ydata rest (avg_mse, Some param, Some pred)
      else grid_loop xdata ydata rest (avg_mse, Some param, best_pred)
    else grid_loop xdata ydata rest best
  end.

Definition gpu_gridsearch_cv (param_dict : PD) (xdata : list vector)
    (ydata : list F64.float)
  : M E (F64.float * option P * option (list F64.float)) :=
  if negb (length xdata =? length ydata)%nat then raise AssertionError
  else grid_loop xdata ydata (ParameterGrid param_dict)
         (F64.inf, None, None).

(** [self.norm_prop.inverse_transform(pred[xpy.newaxis, :]).squeeze()]:
    [self.norm_prop] is [False] unless inputs are normalized, and [pred] is
    [None] when no combination was ever the best. *)
Definition inverse_transform_pred (norm_prop : option S)
    (pred : option (list F64.float)) : res (option (list F64.float)) :=
  match norm_prop, pred with
  | None, _ => Raise AttributeError
  | Some _, None => Raise TypeError
  | Some scaler, Some p =>
    match inverse_transform scaler p with
    | Ok p' => Ok (Some p')
    | Raise e => Raise e
    end
  end.

Definition _calculate_metric (smiles_properties : list (string * list F64.float))
    (embeddings fingerprints : list vector) (param_dict : PD)
  : M E (ModelabilityResult P) :=
  match smiles_properties with
  | [(prop_name, column)] =>
    let properties := asarray_float32 column in
    embeddings <-
      lift (if normalize_inputs then fit_transform_data embeddings
            else Ok embeddings) ;;
    normed <-
      lift (if normalize_inputs then
              match fit_transform_prop properties with
              | Ok (scaler, properties') => Ok (Some scaler, properties')
              | Raise e => Raise e
              end
            else Ok (None, properties)) ;;
    let '(norm_prop, properties) := normed in
    emb <- gpu_gridsearch_cv param_dict embeddings properties ;;
    fgp <- gpu_gridsearch_cv param_dict fingerprints properties ;;
    let '(embedding_error, embedding_param, embedding_pred) := emb in
    let '(fingerprint_error, fingerprint_param, fingerprint_pred) := fgp in
    (* [xpy.asnumpy] of the predictions (taken under RAPIDS only) copies
       device arrays to the host and leaves their values as they are *)
    let ratio := F64.div fingerprint_error embedding_error in
    preds <-
      lift (if return_predictions then
              match inverse_transform_pred norm_prop fingerprint_pred with
              | Ok fingerprint_pred' =>
                match inverse_transform_pred norm_prop embedding_pred with
                | Ok embedding_pred' =>
                  Ok (fingerprint_pred', embedding_pred')
                | Raise e => Raise e
                end
              | Raise e => Raise e
              end
            else Ok (fingerprint_pred, embedding_pred)) ;;
    ret {| value := ratio;
           fingerprint_error := fingerprint_error;
           embedding_error := embedding_error;
           fingerprint_param := fingerprint_param;
           embedding_param := embedding_param;
           fingerprint_pred := preds.1;
           embedding_pred := preds.2 |}
  | _ => raise AssertionError
  end.

End Methods.
End Modelability.

(** The retained predictions in the words of the specification: refit the
    estimator on the full data with the winning parameters, then predict
    the full data. *)
Definition refit_predictions {E P : Type} `{!Estimator E P}
    (estimator : E) (best_param : P) (xdata : list vector)
    (ydata : list F64.float) : res (list F64.float) :=
  match set_params estimator best_param with
  | Raise e => Raise e
  | Ok estimator1 =>
    match fit estimator1 xdata ydata with
    | Raise e => Raise e
    | Ok estimator2 => predict estimator2 xdata
    end
  end.

Section GridSearchInvariant.
Context {E P : Type} `{!Estimator E P}.
Variable kfold_split : Z -> nat -> res (list (list nat * list nat)).
Variable mean_squared_error :
  list F64.float -> list F64.float -> res F64.float.
Variable nanmean : list F64.float -> F64.float.
Variable n_splits : Z.

(** What the grid loop knows of its best triple when predictions are
    retained: the score is the cross-validation score of the best
    combination, and the predictions are those of the estimator as that
    cross-validation left it. *)
Definition best_from_cv (xdata : list vector) (ydata : list F64.float)
    (best : F64.float * option P * option (list F64.float)) : Prop :=
  match best with
  | (score, Some param, pred) =>
    exists e1 e2 pr,
      Modelability.cross_validate kfold_split mean_squared_error nanmean
        n_splits param xdata ydata e1 = (Ok score, e2)
      /\ predict e2 xdata = Ok pr
      /\ pred = Some pr
  | (_, None, _) => True
  end.

End GridSearchInvariant.

(** ** Runs of the metric engines *)

(** [sample_run sample n r ds w counts w']: calling [sample] on the
    molecules of [ds] in order, starting in world [w], answers the
    per-molecule counts [counts] and leaves world [w']. *)
Inductive sample_run {W : Type}
    (sample : string -> Z -> F64.float -> M W Z) (n : Z) (r : F64.float)
  : list string -> W -> list Z -> W -> Prop :=
  | sample_run_nil w : sample_run sample n r [] w [] w
  | sample_run_cons s ds w c w1 cs w' :
      sample s n r w = (Ok c, w1) ->
      sample_run sample n r ds w1 cs w' ->
      sample_run sample n r (s :: ds) w (c :: cs) w'.

(** The novelty count in the words of the specification: the candidates,
    the identity-marker first element apart, that are members of the
    training set. *)
Definition novelty_count_spec (is_known_smiles : string -> bool)
    (generated_smiles : list string) : Z :=
  Z.of_nat (length (filter is_known_smiles (slice_from_1 generated_smiles))).

(** A request that goes through the cache to the inference client. *)
Inductive request :=
  | SampleRequest (smiles : string) (num_samples : Z)
      (scaled_radius : F64.float) (force_unique sanitize : bool)
  | EmbedRequest (smiles : string) (max_seq_len : option Z).

(** What a fetch answers for a request, and what the client answers. *)
Inductive entry :=
  | SampleEntry (generated_smiles : list string)
  | EmbedEntry (embedding : vector) (embedding_dim : shape).

(** An entry that satisfies a fetch: a non-empty list of molecules, or an
    embedding whose [dim] has a length other than 1. *)
Definition usable (e : entry) : bool :=
  match e with
  | SampleEntry [] => false
  | SampleEntry (_ :: _) => true
  | EmbedEntry _ d => negb (length d =? 1)%nat
  end.

Section Requests.
Context {C I : Type} `{!ResultCache C} `{!Inferrer I}.

(** The world after a request (whether it answered or raised). *)
Definition serve (q : request) (w : world C I) : world C I :=
  match q with
  | SampleRequest smiles n r u s =>
    (BaseSampleMetric._find_similars_smiles smiles n r u s w).2
  | EmbedRequest smiles m =>
    (BaseEmbeddingMetric._find_embedding smiles m w).2
  end.

Definition serve_all (qs : list request) (w : world C I) : world C I :=
  fold_left (fun w q => serve q w) qs w.

(** The client invocation a request stands for. *)
Definition call_of (q : request) : client_call :=
  match q with
  | SampleRequest smiles n r u s =>
    FindSimilars (class_name I, smiles, n, r, u, s)
  | EmbedRequest smiles m => SmilesToEmbedding smiles m
  end.

(** The cache entry stored under the fingerprint of a request. *)
Definition fetch_entry (q : request) (c : C) : option entry :=
  match q with
  | SampleRequest smiles n r u s =>
    SampleEntry <$> fetch_sampling_data c (class_name I, smiles, n, r, u, s)
  | EmbedRequest smiles _ =>
    (fun e => EmbedEntry e.1 e.2) <$> fetch_embedding_data c smiles
  end.

Definition fetch_usable (q : request) (w : world C I) : bool :=
  match fetch_entry q (sample_cache w) with
  | Some e => usable e
  | None => false
  end.

(** The answer of the client to a request, as an entry. *)
Definition client_answer (q : request) (i : I) : res entry :=
  match q with
  | SampleRequest smiles n r u s =>
    match (find_similars_smiles i smiles n r u s).1 with
    | Ok frame => Ok (SampleEntry (SMILES frame))
    | Raise e => Raise e
    end
  | EmbedRequest smiles m =>
    match (smiles_to_embedding i smiles m).1 with
    | Ok e => Ok (EmbedEntry (embedding e) (dim e))
    | Raise e => Raise e
    end
  end.

(** A client that never fails and whose answers are usable entries. *)
Definition reliable_client : Prop :=
  forall q i, exists e, client_answer q i = Ok e /\ usable e = true.

(** Every logged client call left a usable entry in the cache, and no call
    is logged twice. *)
Definition settled (w : world C I) : Prop :=
  NoDup (calls w)
  /\ (forall k, In (FindSimilars k) (calls w) ->
        exists g gs, fetch_sampling_data (sample_cache w) k = Some (g :: gs))
  /\ (forall smiles m, In (SmilesToEmbedding smiles m) (calls w) ->
        exists v d, fetch_embedding_data (sample_cache w) smiles = Some (v, d)
                    /\ length d <> 1%nat).

End Requests.

(** ** Stub numerics and estimator for concrete runs *)

Module StubModel.

Definition is_nan (x : F64.float) : bool :=
  match x with S754_nan => true | _ => false end.

(** Mean of the entries that are not NaN, summed left to right. *)
Definition nanmean (l : list F64.float) : F64.float :=
  let kept := filter (fun x => negb (is_nan x)) l in
  F64.div (fold_left F64.add kept F64.zero)
          (F64.of_Z (Z.of_nat (length kept))).

Fixpoint squared_errors (ypred ytest : list F64.float) : res (list F64.float) :=
  match ypred, ytest with
  | [], [] => Ok []
  | p :: ps, t :: ts =>
    match squared_errors ps ts with
    | Ok l => Ok (F64.mul (F64.sub p t) (F64.sub p t) :: l)
    | Raise e => Raise e
    end
  | _, _ => Raise ValueError
  end.

Definition mean_squared_error (ypred ytest : list F64.float) : res F64.float :=
  match squared_errors ypred ytest with
  | Ok [] => Raise ValueError
  | Ok l => Ok (F64.div (fold_left F64.add l F64.zero)
                        (F64.of_Z (Z.of_nat (length l))))
  | Raise e => Raise e
  end.

(** [KFold(n_splits, shuffle=True, random_state=0).split] on the two-row
    datasets of the runs below.  With two rows, two splits are the only
    number accepted (any other raises [ValueError]); the seeded shuffle
    puts row 1 first, so the first fold trains on row 0 and tests row 1,
    and the second trains on row 1 and tests row 0.  With fewer rows every
    number of splits raises [ValueError].  The shuffle of more than two
    rows is not modelled: the stub refuses such a dataset, and no run
    below has one. *)
Definition kfold_split (n_splits : Z) (rows : nat)
  : res (list (list nat * list nat)) :=
  if (n_splits =? 2) && (rows =? 2)%nat then
    Ok [([0%nat], [1%nat]); ([1%nat], [0%nat])]
  else Raise ValueError.

(** An estimator that predicts [scale] times the mean of the targets it
    was fitted on, and that refuses to fit with a scale below 1. *)
Record MeanRegressor := {
  scale : Z;
  fitted_mean : option F64.float }.

#[global] Instance MeanRegressor_estimator : Estimator MeanRegressor Z := {|
  set_params e p := Ok {| scale := p; fitted_mean := fitted_mean e |};
  fit e _ y :=
    if scale e <? 1 then Raise ValueError
    else match y with
         | [] => Raise ValueError
         | _ => Ok {| scale := scale e; fitted_mean := Some (nanmean y) |}
         end;
  predict e x :=
    match fitted_mean e with
    | None => Raise NotFittedError
    | Some m => Ok (map (fun _ => F64.mul (F64.of_Z (scale e)) m) x)
    end |}.

Definition fresh : MeanRegressor := {| scale := 1; fitted_mean := None |}.

(** Two rows with targets 1.0 and 3.0. *)
Definition xdata : list vector := [[F64.of_Z 0]; [F64.of_Z 1]].
Definition ydata : list F64.float := [F64.of_Z 1; F64.of_Z 3].

(** Grid search of the stub estimator over a list of scales, two folds,
    no normalization. *)
Definition gridsearch (return_predictions : bool) (grid : list Z) :=
  Modelability.gpu_gridsearch_cv (E := MeanRegressor) (P := Z)
    (fun g : list Z => g) kfold_split mean_squared_error nanmean 2
    return_predictions grid xdata ydata fresh.

End StubModel.

(** ** Stub collaborators for a run of the Modelability ratio *)

Module StubRatio.

(** An estimator that predicts the first feature of each row, whatever it
    was fitted on. *)
Record FirstFeature := { fits : nat }.

#[global] Instance FirstFeature_estimator : Estimator FirstFeature unit := {|
  set_params e _ := Ok e;
  fit e _ _ := Ok {| fits := S (fits e) |};
  predict _ x := Ok (map (fun row : vector => hd F64.zero row) x) |}.

(** 2^-537, whose square is the least positive binary64 number. *)
Definition tiny : F64.float := S754_finite false 4503599627370496 (-589).
Definition two : F64.float := S754_finite false 4503599627370496 (-51).
Definition four : F64.float := S754_finite false 4503599627370496 (-50).
Definition least : F64.float := S754_finite false 1 (-1074).

Definition smiles_properties : list (string * list F64.float) :=
  [("logD"%string, [F64.zero; F64.zero])].
Definition embeddings : list vector := [[two]; [two]].
Definition fingerprints : list vector := [[tiny]; [tiny]].

(** [Modelability._calculate_metric] on the stub data: a one-point grid,
    two folds, no normalization, no retained predictions. *)
Definition run :=
  Modelability._calculate_metric (E := FirstFeature) (P := unit)
    (PD := list unit) (S := unit)
    (fun g => g) StubModel.kfold_split StubModel.mean_squared_error
    StubModel.nanmean (fun column => column)
    (fun x => Ok x) (fun y => Ok (tt, y)) (fun _ y => Ok y)
    2 false false smiles_properties embeddings fingerprints [tt]
    {| fits := 0 |}.

End StubRatio.

(** ** A failing client for concrete runs *)

Module StubFailing.

(** A client that refuses the molecule [refused] and answers any other
    sampling request with the molecule and one candidate. *)
Record PickyClient := { refused : string }.

#[export] Instance PickyClient_inferrer : Inferrer PickyClient := {|
  class_name := "PickyClient"%string;
  find_similars_smiles i smiles _ _ _ _ :=
    if String.eqb smiles (refused i) then
      (Raise (ClientError "refused"), i)
    else
      (Ok {| SMILES := [smiles; "CCC"%string];
             embeddings := [[]; []];
             embeddings_dim := [[]; []] |}, i);
  smiles_to_embedding i smiles _ :=
    if String.eqb smiles (refused i) then
      (Raise (ClientError "refused"), i)
    else (Ok {| embedding := [F64.zero; F64.zero]; dim := [1; 2] |}, i) |}.

Definition start : world MapCache PickyClient :=
  World MapCache_empty {| refused := "XXX"%string |} [].

End StubFailing.

(** ** The order of binary64 numbers *)

(** The place of a number that is not NaN in the order of [<]: its class
    (negative infinity, negative, zero, positive, positive infinity), then
    exponent and mantissa, both negated for a negative number.  Both zeros
    share a place. *)
Definition f64_rank (x : F64.float) : option (Z * Z * Z) :=
  match x with
  | S754_nan => None
  | S754_infinity true => Some (-2, 0, 0)
  | S754_finite true m e => Some (-1, - e, - Z.pos m)
  | S754_zero _ => Some (0, 0, 0)
  | S754_finite false m e => Some (1, e, Z.pos m)
  | S754_infinity false => Some (2, 0, 0)
  end.

Definition lex3 (a b : Z * Z * Z) : Prop :=
  a.1.1 < b.1.1
  \/ (a.1.1 = b.1.1
      /\ (a.1.2 < b.1.2 \/ (a.1.2 = b.1.2 /\ a.2 < b.2))).

(** ** Runs of the grid search *)

(** [cv_run cv grid e scores e']: scoring the combinations of [grid] in
    order with [cv], starting from estimator [e], answers the average
    errors [scores] and leaves estimator [e']. *)
Inductive cv_run {E P : Type} (cv : P -> M E F64.float)
  : list P -> E -> list F64.float -> E -> Prop :=
  | cv_run_nil e : cv_run cv [] e [] e
  | cv_run_cons p ps e s e1 ss e' :
      cv p e = (Ok s, e1) ->
      cv_run cv ps e1 ss e' ->
      cv_run cv (p :: ps) e (s :: ss) e'.

(** What a best triple is to the scores of the combinations tried so far:
    no score is below the best score; without retention there are no
    predictions; and either nothing was ever selected and the best score is
    still [+inf], or the selected combination is the first whose score is
    the best score, every earlier score being NaN or above it. *)
Definition first_least {P : Type} (return_predictions : bool)
    (grid : list P) (scores : list F64.float)
    (best : F64.float * option P * option (list F64.float)) : Prop :=
  let '(best_score, best_param, best_pred) := best in
  Forall (fun s => F64.ltb s best_score = false) scores
  /\ (return_predictions = false -> best_pred = None)
  /\ match best_param with
     | None => best_score = F64.inf /\ best_pred = None
     | Some param =>
       exists i,
         grid !! i = Some param
         /\ scores !! i = Some best_score
         /\ F64.ltb best_score F64.inf = true
         /\ Forall (fun s => s = F64.nan \/ F64.ltb best_score s = true)
              (take i scores)
     end.

(** ** chembldata.py: the batches of [fetch_mol_embedding] *)

(** [list(range(start, stop, step))]; a zero step raises [ValueError]. *)
Definition py_range (start stop step : Z) : res (list Z) :=
  if step =? 0 then Raise ValueError
  else
    let count :=
      if 0 <? step then (stop - start + step - 1) / step
      else (start - stop - step - 1) / (- step) in
    Ok (map (fun i => start + Z.of_nat i * step) (seq 0 (Z.to_nat count))).

Module ChEmblData.

(** The [(start, batch_size)] arguments of the delayed
    [_fetch_mol_embedding] calls that [fetch_mol_embedding] collects, in
    order; [molecule_cnt] is what [fetch_molecule_cnt] answers. *)
Definition fetch_mol_embedding_batches (num_recs : option Z) (batch_size : Z)
    (molecule_cnt : Z) : res (list (Z * Z)) :=
  let num_recs :=
    (* [if not num_recs or num_recs < 0] *)
    match num_recs with
    | None => molecule_cnt
    | Some n => if (n =? 0) || (n <? 0) then molecule_cnt else n
    end in
  match py_range 0 num_recs batch_size with
  | Raise e => Raise e
  | Ok starts =>
    Ok (map (fun start => (start, Z.min (num_recs - start) batch_size))
            starts)
  end.

End ChEmblData.

(** ** benchmark_megamolbart.py: the statistics of [calc_statistics] *)

Module CalcStatistics.

(** [df.dropna()] of a column of sanitized SMILES, where [None] is NaN. *)
Definition dropna (df : list (option string)) : list string := omap id df.

(** Python's [n / d] for an [int] [n] and a [float] [d]; [None] stands for
    [ZeroDivisionError]. *)
Definition truediv_int_float (n : Z) (d : F64.float) : option F64.float :=
  match d with
  | S754_zero _ => None
  | _ => Some (F64.div (F64.of_Z n) d)
  end.

Definition _percent_valid (df : list (option string)) : option F64.float :=
  truediv_int_float (Z.of_nat (length (dropna df)))
    (F64.of_Z (Z.of_nat (length df))).

Definition _percent_unique (df : list (option string)) : option F64.float :=
  truediv_int_float
    (Z.of_nat (size (list_to_set (dropna df) : gset string)))
    (F64.of_Z (Z.of_nat (length df))).

End CalcStatistics.

(** ** cuchembench/utils/smiles.py: the similarity of pairs *)

(** A Python number that is an [int] or a [float]. *)
Inductive py_number :=
  | PyInt (z : Z)
  | PyFloat (x : F64.float).

Module Smiles.
Section Functions.
Context {Mol BitVect : Type}.
(** RDKit: [Chem.MolFromSmiles] ([None] for a string that does not parse),
    [AllChem.GetMorganFingerprintAsBitVect] and
    [DataStructs.TanimotoSimilarity]. *)
Variable MolFromSmiles : string -> option Mol.
Variable GetMorganFingerprintAsBitVect : Mol -> Z -> Z -> BitVect.
Variable TanimotoSimilarity : BitVect -> BitVect -> F64.float.
(** [numpy.mean] *)
Variable np_mean : list F64.float -> F64.float.

Definition calc_fingerprint (smiles : string) (radius nbits : Z)
  : option BitVect :=
  match MolFromSmiles smiles with
  | Some mol => Some (GetMorganFingerprintAsBitVect mol radius nbits)
  | None => None
  end.

(** The [for start, end in smiles_pairs] loop, carrying [sims]. *)
Fixpoint calc_similarity_loop (smiles_pairs : list (string * string))
    (nbits : Z) (sims : list F64.float) : list F64.float :=
  match smiles_pairs with
  | [] => sims
  | (start, end_) :: rest =>
    match calc_fingerprint start 2 nbits, calc_fingerprint end_ 2 nbits with
    | Some fp_start, Some fp_end =>
      calc_similarity_loop rest nbits
        (sims ++ [TanimotoSimilarity fp_start fp_end])
    | _, _ => calc_similarity_loop rest nbits sims
    end
  end.

Definition calc_similarity (smiles_pairs : list (string * string))
    (nbits : Z) : py_number :=
  let sims := calc_similarity_loop smiles_pairs nbits [] in
  if (0 <? length sims)%nat then PyFloat (np_mean sims) else PyInt 0.

End Functions.
End Smiles.

(** * Properties *)

(** ** binary64 arithmetic *)

Section Binary64.

Abbreviation fexp := (SpecFloat.fexp 53 1024).
Abbreviation two52 := 4503599627370496.
Abbreviation two53 := 9007199254740992.

Lemma fexp_max e : fexp e = Z.max (e - 53) (-1074).
Proof. reflexivity. Qed.

Lemma digits2_pos_size p : digits2_pos p = Pos.size p.
Proof. induction p; cbn; congruence. Qed.

Lemma Zdigits2_nonneg m : 0 <= Zdigits2 m.
Proof. destruct m; cbn; lia. Qed.

(** A positive integer of [d] binary digits lies in [[2^(d-1), 2^d)]. *)
Lemma Zdigits2_bounds m :
  0 < m -> 2 ^ (Zdigits2 m - 1) <= m < 2 ^ Zdigits2 m.
Proof.
  destruct m as [|p|p]; [lia| |lia]. intros _. cbn [Zdigits2].
  rewrite digits2_pos_size. split.
  - pose proof (Pos.size_le p) as Hle.
    apply Pos2Z.pos_le_pos in Hle. rewrite Pos2Z.inj_pow in Hle.
    replace (Z.pos (Pos.size p)) with (Z.succ (Z.pos (Pos.size p) - 1)) in Hle
      by lia.
    rewrite Z.pow_succ_r in Hle by lia. lia.
  - pose proof (Pos.size_gt p) as Hgt.
    apply Pos2Z.pos_lt_pos in Hgt. by rewrite Pos2Z.inj_pow in Hgt.
Qed.

Lemma Zdigits2_pos m : 0 < m -> 0 < Zdigits2 m.
Proof. destruct m; cbn; lia. Qed.

Lemma Zdigits2_le m k : 0 <= k -> 0 <= m < 2 ^ k -> Zdigits2 m <= k.
Proof.
  intros Hk [Hm Hlt].
  destruct (Z.eq_dec m 0) as [->|Hne]; [cbn; lia|].
  destruct (Z.le_gt_cases (Zdigits2 m) k) as [|Hgt]; [done|].
  pose proof (Zdigits2_bounds m ltac:(lia)) as [Hlo _].
  pose proof (Z.pow_le_mono_r 2 k (Zdigits2 m - 1) ltac:(lia) ltac:(lia)).
  lia.
Qed.

Lemma Zdigits2_ge m k : 0 <= k -> 2 ^ k <= m -> k + 1 <= Zdigits2 m.
Proof.
  intros Hk Hle.
  assert (0 < m) by (pose proof (Z.pow_pos_nonneg 2 k); lia).
  destruct (Z.le_gt_cases (k + 1) (Zdigits2 m)) as [|Hgt]; [done|].
  pose proof (Zdigits2_bounds m ltac:(lia)) as [_ Hhi].
  pose proof (Zdigits2_pos m ltac:(lia)).
  pose proof (Z.pow_le_mono_r 2 (Zdigits2 m) k ltac:(lia) ltac:(lia)).
  lia.
Qed.

Lemma Zdigits2_eq m k : 0 < k -> 2 ^ (k - 1) <= m < 2 ^ k -> Zdigits2 m = k.
Proof.
  intros Hk [Hlo Hhi].
  assert (0 < m) by (pose proof (Z.pow_pos_nonneg 2 (k - 1)); lia).
  pose proof (Zdigits2_le m k ltac:(lia) ltac:(lia)).
  pose proof (Zdigits2_ge m (k - 1) ltac:(lia) Hlo). lia.
Qed.

(** *** Right shifts *)

Lemma shr_m_of_loc m l : shr_m (shr_record_of_loc m l) = m.
Proof. by destruct l as [|[]]. Qed.

Lemma loc_of_shr_record_of_loc m l :
  loc_of_shr_record (shr_record_of_loc m l) = l.
Proof. by destruct l as [|[]]. Qed.

Lemma shr_1_m mrs : 0 <= shr_m mrs -> shr_m (shr_1 mrs) = shr_m mrs / 2.
Proof.
  destruct mrs as [m r s]. cbn [shr_m].
  destruct m as [|[p|p|]|p]; intros Hm; cbn [shr_1 shr_m]; try lia.
  all: try reflexivity.
  - rewrite Pos2Z.inj_xI. apply Z.div_unique with 1; lia.
  - rewrite Pos2Z.inj_xO. apply Z.div_unique with 0; lia.
Qed.

Lemma pow2_xO p : 2 ^ Z.pos p~0 = 2 ^ Z.pos p * 2 ^ Z.pos p.
Proof. rewrite <- Z.pow_add_r by lia. f_equal. lia. Qed.

Lemma pow2_xI p : 2 ^ Z.pos p~1 = 2 * (2 ^ Z.pos p * 2 ^ Z.pos p).
Proof.
  rewrite <- Z.pow_add_r, <- Z.pow_succ_r by lia. f_equal. lia.
Qed.

Lemma iter_shr_1_m p : forall mrs,
  0 <= shr_m mrs ->
  shr_m (SpecFloat.iter_pos shr_1 p mrs) = shr_m mrs / 2 ^ Z.pos p.
Proof.
  induction p as [p IH|p IH|]; intros mrs Hm; cbn [SpecFloat.iter_pos].
  - assert (H1 : 0 <= shr_m (shr_1 mrs)).
    { rewrite shr_1_m by done. apply Z.div_pos; lia. }
    assert (H2 : 0 <= shr_m (SpecFloat.iter_pos shr_1 p (shr_1 mrs))).
    { rewrite IH by done. apply Z.div_pos; [done|]. apply Z.pow_pos_nonneg; lia. }
    pose proof (Z.pow_pos_nonneg 2 (Z.pos p) ltac:(lia) ltac:(lia)).
    rewrite IH, IH, shr_1_m by done.
    rewrite !Z.div_div by lia. by rewrite pow2_xI.
  - assert (H2 : 0 <= shr_m (SpecFloat.iter_pos shr_1 p mrs)).
    { rewrite IH by done. apply Z.div_pos; [done|]. apply Z.pow_pos_nonneg; lia. }
    pose proof (Z.pow_pos_nonneg 2 (Z.pos p) ltac:(lia) ltac:(lia)).
    rewrite IH, IH by done.
    rewrite !Z.div_div by lia. by rewrite pow2_xO.
  - by rewrite shr_1_m.
Qed.

Lemma shr_nonpos mrs e n : n <= 0 -> shr mrs e n = (mrs, e).
Proof. destruct n; [done|lia|done]. Qed.

Lemma shr_pos mrs e n :
  0 < n -> 0 <= shr_m mrs ->
  exists mrs', shr mrs e n = (mrs', e + n) /\ shr_m mrs' = shr_m mrs / 2 ^ n.
Proof.
  destruct n as [|p|p]; [lia| |lia]. intros _ Hm. cbn [shr].
  eexists. split; [reflexivity|]. by apply iter_shr_1_m.
Qed.

(** The first shift of a rounding leaves a mantissa below [2^53] and an
    exponent of at least [-1074]. *)
Lemma shr_fexp_bounds m e l :
  0 <= m ->
  exists mrs e1,
    shr_fexp 53 1024 m e l = (mrs, e1)
    /\ e1 = Z.max e (fexp (Zdigits2 m + e))
    /\ shr_m mrs = m / 2 ^ (e1 - e)
    /\ 0 <= shr_m mrs < two53
    /\ -1074 <= e1.
Proof.
  intros Hm. unfold shr_fexp.
  set (n := fexp (Zdigits2 m + e) - e).
  assert (Hfexp : fexp (Zdigits2 m + e)
                  = Z.max (Zdigits2 m + e - 53) (-1074)) by reflexivity.
  assert (Hlt : m < 2 ^ (Z.max n 0 + 53)).
  { destruct (Z.eq_dec m 0) as [->|Hne];
      [apply Z.pow_pos_nonneg; lia|].
    pose proof (Zdigits2_bounds m ltac:(lia)) as [_ Hhi].
    pose proof (Zdigits2_nonneg m).
    pose proof (Z.pow_le_mono_r 2 (Zdigits2 m) (Z.max n 0 + 53)
                  ltac:(lia) ltac:(lia)).
    lia. }
  rewrite Z.pow_add_r in Hlt by lia. change (2 ^ 53) with two53 in Hlt.
  destruct (Z.le_gt_cases n 0) as [Hn|Hn].
  - rewrite shr_nonpos by done.
    exists (shr_record_of_loc m l), e. rewrite shr_m_of_loc.
    replace (Z.max n 0) with 0 in Hlt by lia.
    replace (Z.max e (fexp (Zdigits2 m + e))) with e by lia.
    rewrite Z.sub_diag, Z.div_1_r. repeat split; lia.
  - destruct (shr_pos (shr_record_of_loc m l) e n ltac:(lia))
      as (mrs & Hshr & Hmrs); [by rewrite shr_m_of_loc|].
    rewrite shr_m_of_loc in Hmrs.
    exists mrs, (e + n). rewrite Hshr, Hmrs.
    replace (Z.max n 0) with n in Hlt by lia.
    pose proof (Z.pow_pos_nonneg 2 n ltac:(lia) ltac:(lia)).
    replace (e + n - e) with n by lia.
    repeat split; try lia.
    + apply Z.div_pos; lia.
    + apply Z.div_lt_upper_bound; lia.
Qed.

Lemma round_nearest_even_bounds m l :
  m <= round_nearest_even m l <= m + 1.
Proof. destruct l as [|[]]; cbn; try destruct (Z.even m); lia. Qed.

(** The outcome of a rounding, by the mantissa [m2] it rounds to. *)
Lemma binary_round_aux_cases sx m e l :
  0 <= m ->
  exists mrs e1,
    shr_fexp 53 1024 m e l = (mrs, e1)
    /\ e1 = Z.max e (fexp (Zdigits2 m + e))
    /\ shr_m mrs = m / 2 ^ (e1 - e)
    /\ 0 <= shr_m mrs < two53
    /\ -1074 <= e1
    /\ binary_round_aux 53 1024 sx m e l
       = let m2 := round_nearest_even (shr_m mrs) (loc_of_shr_record mrs) in
         if m2 =? two53 then
           if e1 + 1 <=? 971 then S754_finite sx 4503599627370496 (e1 + 1)
           else S754_infinity sx
         else
           match m2 with
           | 0 => S754_zero sx
           | Z.pos p =>
             if e1 <=? 971 then S754_finite sx p e1 else S754_infinity sx
           | Z.neg _ => S754_nan
           end.
Proof.
  intros Hm.
  destruct (shr_fexp_bounds m e l Hm) as (mrs & e1 & Hshr & He1 & Hmrs & Hb & Hlo).
  exists mrs, e1. repeat split; try done; try lia.
  unfold binary_round_aux. rewrite Hshr.
  set (m2 := round_nearest_even (shr_m mrs) (loc_of_shr_record mrs)).
  pose proof (round_nearest_even_bounds (shr_m mrs) (loc_of_shr_record mrs))
    as Hm2. fold m2 in Hm2. cbv zeta.
  destruct (Z.eqb_spec m2 two53) as [Heq|Hne].
  - rewrite Heq. unfold shr_fexp.
    replace (fexp (Zdigits2 two53 + e1) - e1) with 1
      by (change (Zdigits2 two53) with 54; rewrite fexp_max; lia).
    cbn. reflexivity.
  - unfold shr_fexp.
    assert (Hd : Zdigits2 m2 <= 53) by (apply Zdigits2_le; lia).
    rewrite shr_nonpos by (rewrite fexp_max; lia).
    cbn [shr_record_of_loc shr_m]. reflexivity.
Qed.

End Binary64.

Section Binary64Order.

Abbreviation fexp := (SpecFloat.fexp 53 1024).
Abbreviation two52 := 4503599627370496.
Abbreviation two53 := 9007199254740992.

(** The outcome of a rounding of a non-negative mantissa, against 1.0. *)
Lemma ltb_one_rounded m2 e1 :
  0 <= m2 ->
  SFltb F64.one
    (if m2 =? two53 then
       if e1 + 1 <=? 971 then S754_finite false 4503599627370496 (e1 + 1)
       else S754_infinity false
     else
       match m2 with
       | 0 => S754_zero false
       | Z.pos p =>
         if e1 <=? 971 then S754_finite false p e1 else S754_infinity false
       | Z.neg _ => S754_nan
       end) = true
  <-> (m2 = two53 /\ -52 <= e1)
      \/ (m2 <> two53 /\ 0 < m2
          /\ (-52 < e1 \/ (e1 = -52 /\ two52 < m2))).
Proof.
  intros Hm2. unfold SFltb, F64.one.
  destruct (Z.eqb_spec m2 two53) as [->|Hne].
  - destruct (Z.leb_spec (e1 + 1) 971); cbn [SFcompare].
    + destruct (Z.compare_spec (-52) (e1 + 1)); cbn; split;
        try discriminate; try lia; intros _; lia.
    + split; [intros _; lia | done].
  - destruct m2 as [|p|p]; [|
      |lia].
    + cbn. split; [discriminate | lia].
    + destruct (Z.leb_spec e1 971); cbn [SFcompare].
      * destruct (Z.compare_spec (-52) e1) as [Heq|Hlt|Hgt].
        -- rewrite Pos.compare_cont_spec. cbn [Pos.switch_Eq].
           destruct (4503599627370496 ?= p)%positive eqn:Hc.
           ++ apply Pos.compare_eq_iff in Hc. split; [discriminate | lia].
           ++ apply Pos.compare_lt_iff, Pos2Z.pos_lt_pos in Hc. split; [intros _; lia | done].
           ++ apply Pos.compare_gt_iff, Pos2Z.pos_lt_pos in Hc. split; [discriminate | lia].
        -- split; [intros _; lia | done].
        -- split; [discriminate | lia].
      * split; [intros _; lia | done].
Qed.

(** A rounding of a non-negative mantissa with a positive sign answers
    [+0], a positive finite number or [+inf]. *)
Lemma rounded_nonneg m2 e1 :
  0 <= m2 ->
  let r :=
    if m2 =? two53 then
      if e1 + 1 <=? 971 then S754_finite false 4503599627370496 (e1 + 1)
      else S754_infinity false
    else
      match m2 with
      | 0 => S754_zero false
      | Z.pos p =>
        if e1 <=? 971 then S754_finite false p e1 else S754_infinity false
      | Z.neg _ => S754_nan
      end in
  r = F64.zero \/ F64.is_pos_finite r = true \/ r = F64.inf.
Proof.
  intros Hm2. cbv zeta.
  destruct (m2 =? two53).
  - destruct (e1 + 1 <=? 971); auto.
  - destruct m2 as [|p|p]; [auto| |lia].
    destruct (e1 <=? 971); auto.
Qed.

(** A well-formed mantissa has at most 53 digits; below 53 digits the
    exponent is the least one. *)
Lemma bounded_inv m e :
  bounded 53 1024 m e = true ->
  Zdigits2 (Z.pos m) <= 53
  /\ -1074 <= e <= 971
  /\ (Zdigits2 (Z.pos m) = 53 \/ e = -1074).
Proof.
  unfold bounded, canonical_mantissa.
  intros [Hc He]%andb_true_iff.
  apply Z.eqb_eq in Hc. apply Z.leb_le in He.
  change (Z.pos (digits2_pos m)) with (Zdigits2 (Z.pos m)) in Hc.
  change (1024 - 53) with 971 in He.
  rewrite fexp_max in Hc. lia.
Qed.

Lemma ltb_pos_finite mx ex my ey :
  SFltb (S754_finite false my ey) (S754_finite false mx ex) = true
  <-> ey < ex \/ (ey = ex /\ Z.pos my < Z.pos mx).
Proof.
  unfold SFltb. cbn [SFcompare].
  destruct (Z.compare_spec ey ex) as [Heq|Hlt|Hgt].
  - rewrite Pos.compare_cont_spec. cbn [Pos.switch_Eq].
    destruct (my ?= mx)%positive eqn:Hc.
    + apply Pos.compare_eq_iff in Hc. split; [discriminate | lia].
    + apply Pos.compare_lt_iff, Pos2Z.pos_lt_pos in Hc. split; [intros _; lia | done].
    + apply Pos.compare_gt_iff, Pos2Z.pos_lt_pos in Hc. split; [discriminate | lia].
  - split; [intros _; lia | done].
  - split; [discriminate | lia].
Qed.

(** On well-formed positive numbers the order on (exponent, mantissa)
    is the order of the values [m * 2^e]. *)
Lemma lex_lt_value mx ex my ey :
  bounded 53 1024 mx ex = true -> bounded 53 1024 my ey = true ->
  ey < ex ->
  Z.pos my * 2 ^ (ey + 1074) < Z.pos mx * 2 ^ (ex + 1074).
Proof.
  intros (Hdx & Hex & Hnx)%bounded_inv (Hdy & Hey & Hny)%bounded_inv Hlt.
  assert (Hmx : two52 <= Z.pos mx).
  { pose proof (Zdigits2_bounds (Z.pos mx) ltac:(lia)) as [Hlo _].
    destruct Hnx as [Hd|]; [|lia]. rewrite Hd in Hlo. exact Hlo. }
  assert (Hmy : Z.pos my < two53).
  { pose proof (Zdigits2_bounds (Z.pos my) ltac:(lia)) as [_ Hhi].
    pose proof (Zdigits2_pos (Z.pos my) ltac:(lia)).
    pose proof (Z.pow_le_mono_r 2 (Zdigits2 (Z.pos my)) 53
                  ltac:(lia) ltac:(lia)).
    change (2 ^ 53) with two53 in *. lia. }
  pose proof (Z.pow_pos_nonneg 2 (ey + 1074) ltac:(lia) ltac:(lia)) as Hp.
  pose proof (Z.pow_le_mono_r 2 (ey + 1074 + 1) (ex + 1074)
                ltac:(lia) ltac:(lia)) as Hmono.
  rewrite Z.pow_add_r in Hmono by lia. change (2 ^ 1) with 2 in Hmono.
  nia.
Qed.

Lemma ltb_value_iff mx ex my ey :
  bounded 53 1024 mx ex = true -> bounded 53 1024 my ey = true ->
  SFltb (S754_finite false my ey) (S754_finite false mx ex) = true
  <-> Z.pos my * 2 ^ (ey + 1074) < Z.pos mx * 2 ^ (ex + 1074).
Proof.
  intros Hx Hy. rewrite ltb_pos_finite.
  pose proof (bounded_inv _ _ Hx) as (_ & Hex & _).
  pose proof (bounded_inv _ _ Hy) as (_ & Hey & _).
  split.
  - intros [Hlt|[-> Hm]]; [by apply lex_lt_value|].
    pose proof (Z.pow_pos_nonneg 2 (ex + 1074) ltac:(lia) ltac:(lia)). nia.
  - intros Hv.
    destruct (Z.lt_trichotomy ey ex) as [Hlt|[Heq|Hgt]]; [by left| |].
    + right. split; [done|]. subst ey.
      pose proof (Z.pow_pos_nonneg 2 (ex + 1074) ltac:(lia) ltac:(lia)). nia.
    + pose proof (lex_lt_value my ey mx ex Hy Hx Hgt). lia.
Qed.

End Binary64Order.

Section Binary64Division.

Abbreviation fexp := (SpecFloat.fexp 53 1024).
Abbreviation two52 := 4503599627370496.
Abbreviation two53 := 9007199254740992.

Lemma new_location_compare nb_steps k :
  new_location nb_steps k
  = if k =? 0 then loc_Exact else loc_Inexact (2 * k ?= nb_steps).
Proof.
  unfold new_location, new_location_even, new_location_odd.
  destruct (Z.even nb_steps) eqn:Heven; [reflexivity|].
  destruct (k =? 0); [reflexivity|]. f_equal.
  assert (Hodd : Z.odd nb_steps = true) by (rewrite <- Z.negb_even, Heven; done).
  apply Z.odd_spec in Hodd as [t Ht].
  destruct (Z.compare_spec (2 * k + 1) nb_steps);
    destruct (Z.compare_spec (2 * k) nb_steps); try reflexivity; lia.
Qed.

(** The quotient and the remainder that [SFdiv] rounds. *)
Lemma div_finite_eq mx ex my ey :
  let e' :=
    Z.min (fexp (Zdigits2 (Z.pos mx) + ex - (Zdigits2 (Z.pos my) + ey)))
          (ex - ey) in
  let m' := Z.pos mx * 2 ^ (ex - ey - e') in
  F64.div (S754_finite false mx ex) (S754_finite false my ey)
  = binary_round_aux 53 1024 false (m' / Z.pos my) e'
      (new_location (Z.pos my) (m' mod Z.pos my)).
Proof.
  intros e' m'. unfold F64.div, SFdiv, SFdiv_core_binary, F64.prec, F64.emax.
  fold e'. cbn [xorb].
  assert (Hs : 0 <= ex - ey - e') by (unfold e'; lia).
  assert (Hm' : match ex - ey - e' with
                | Z.pos _ => Z.shiftl (Z.pos mx) (ex - ey - e')
                | 0 => Z.pos mx
                | Z.neg _ => 0
                end = m').
  { unfold m'. destruct (ex - ey - e') as [|p|p] eqn:Hse; [|
      |lia].
    - rewrite Z.pow_0_r. lia.
    - by rewrite Z.shiftl_mul_pow2. }
  rewrite Hm'. unfold Z.div, Z.modulo.
  by destruct (Z.div_eucl m' (Z.pos my)).
Qed.

(** Bounds on a quotient from the digit counts of its operands. *)
Lemma quotient_bounds a b da db :
  0 < da -> 0 < db ->
  2 ^ (da - 1) <= a < 2 ^ da -> 2 ^ (db - 1) <= b < 2 ^ db ->
  0 <= a / b < 2 ^ Z.max (da - db + 1) 0
  /\ (1 <= da - db -> 2 ^ (da - db - 1) <= a / b).
Proof.
  intros Hda Hdb [Hal Hah] [Hbl Hbh].
  pose proof (Z.pow_pos_nonneg 2 (da - 1) ltac:(lia) ltac:(lia)).
  pose proof (Z.pow_pos_nonneg 2 (db - 1) ltac:(lia) ltac:(lia)).
  assert (0 <= a / b) by (apply Z.div_pos; lia).
  split; [split; [done|] |].
  - destruct (Z.le_gt_cases 0 (da - db + 1)) as [Hk|Hk].
    + rewrite Z.max_l by lia.
      apply Z.div_lt_upper_bound; [lia|].
      replace da with ((db - 1) + (da - db + 1)) in Hah by lia.
      rewrite Z.pow_add_r in Hah by lia.
      pose proof (Z.pow_pos_nonneg 2 (da - db + 1) ltac:(lia) ltac:(lia)).
      nia.
    + rewrite Z.max_r by lia. rewrite Z.div_small; [done|].
      pose proof (Z.pow_le_mono_r 2 da (db - 1) ltac:(lia) ltac:(lia)).
      lia.
  - intros Hk. apply Z.div_le_lower_bound; [lia|].
    replace (da - 1) with (db + (da - db - 1)) in Hal by lia.
    rewrite Z.pow_add_r in Hal by lia.
    pose proof (Z.pow_pos_nonneg 2 (da - db - 1) ltac:(lia) ltac:(lia)).
    nia.
Qed.

Lemma digits_scaled m s :
  0 < m -> 0 <= s ->
  2 ^ (Zdigits2 m + s - 1) <= m * 2 ^ s < 2 ^ (Zdigits2 m + s).
Proof.
  intros Hm Hs.
  pose proof (Zdigits2_bounds m Hm) as [Hlo Hhi].
  pose proof (Zdigits2_pos m Hm).
  pose proof (Z.pow_pos_nonneg 2 s ltac:(lia) ltac:(lia)).
  replace (Zdigits2 m + s - 1) with ((Zdigits2 m - 1) + s) by lia.
  rewrite !Z.pow_add_r by lia. nia.
Qed.

(** A rounding of a non-negative mantissa, against 1.0. *)
Lemma round_vs_one q e' loc :
  0 <= q ->
  exists mrs e1,
    shr_fexp 53 1024 q e' loc = (mrs, e1)
    /\ e1 = Z.max e' (fexp (Zdigits2 q + e'))
    /\ shr_m mrs = q / 2 ^ (e1 - e')
    /\ 0 <= shr_m mrs < two53
    /\ (let m2 := round_nearest_even (shr_m mrs) (loc_of_shr_record mrs) in
        SFltb F64.one (binary_round_aux 53 1024 false q e' loc) = true
        <-> (m2 = two53 /\ -52 <= e1)
            \/ (m2 <> two53 /\ 0 < m2
                /\ (-52 < e1 \/ (e1 = -52 /\ two52 < m2))))
    /\ (binary_round_aux 53 1024 false q e' loc = F64.zero
        \/ F64.is_pos_finite (binary_round_aux 53 1024 false q e' loc) = true
        \/ binary_round_aux 53 1024 false q e' loc = F64.inf).
Proof.
  intros Hq.
  destruct (binary_round_aux_cases false q e' loc Hq)
    as (mrs & e1 & Hshr & He1 & Hm1 & Hb & _ & Hres).
  exists mrs, e1. rewrite Hres. cbv zeta.
  pose proof (round_nearest_even_bounds (shr_m mrs) (loc_of_shr_record mrs)).
  repeat split; try done; try lia.
  - by apply ltb_one_rounded; lia.
  - by apply ltb_one_rounded; lia.
  - apply rounded_nonneg. lia.
Qed.

(** A quotient of at least 2 rounds above 1. *)
Lemma round_high q e' loc :
  two52 <= q -> 2 <= Zdigits2 q + e' ->
  SFltb F64.one (binary_round_aux 53 1024 false q e' loc) = true.
Proof.
  intros Hq HD.
  destruct (round_vs_one q e' loc ltac:(lia))
    as (mrs & e1 & _ & He1 & Hm1 & Hb & Hiff & _).
  apply Hiff. clear Hiff.
  pose proof (round_nearest_even_bounds (shr_m mrs) (loc_of_shr_record mrs))
    as Hm2.
  set (m2 := round_nearest_even _ _) in *.
  assert (Hdq : 53 <= Zdigits2 q) by (apply (Zdigits2_ge q 52); lia).
  rewrite fexp_max in He1.
  assert (He : e1 - e' = Zdigits2 q - 53) by lia.
  assert (Hm1' : two52 <= shr_m mrs).
  { rewrite Hm1, He.
    pose proof (Zdigits2_bounds q ltac:(lia)) as [Hlo _].
    replace (Zdigits2 q - 1) with (52 + (Zdigits2 q - 53)) in Hlo by lia.
    rewrite Z.pow_add_r in Hlo by lia. change (2 ^ 52) with two52 in Hlo.
    pose proof (Z.pow_pos_nonneg 2 (Zdigits2 q - 53) ltac:(lia) ltac:(lia)).
    apply Z.div_le_lower_bound; lia. }
  destruct (Z.eq_dec m2 two53); [left; lia | right; lia].
Qed.

(** A quotient below 1 does not round above 1. *)
Lemma round_low q e' loc :
  0 <= q -> e' <= -53 -> Zdigits2 q + e' <= 0 ->
  SFltb F64.one (binary_round_aux 53 1024 false q e' loc) = false.
Proof.
  intros Hq He' HD.
  destruct (round_vs_one q e' loc Hq)
    as (mrs & e1 & _ & He1 & _ & _ & Hiff & _).
  apply not_true_is_false. rewrite Hiff. rewrite fexp_max in He1. lia.
Qed.

Ltac loc_cases :=
  split;
  [ intros ?;
    solve [ lia
          | right; reflexivity
          | right; split; [lia | discriminate] ]
  | intros [?|?];
    solve [ lia
          | discriminate
          | match goal with H : _ /\ _ |- _ => destruct H as [? H] end;
            solve [lia | done] ] ].

(** A quotient in [[1, 4)], with the exponent of the 53-digit grid of
    [[1, 2)] or of [[1/2, 1)]. *)
Lemma round_mid_52 q loc :
  two52 <= q < 2 * two53 ->
  SFltb F64.one (binary_round_aux 53 1024 false q (-52) loc) = true
  <-> two52 < q \/ loc = loc_Inexact Gt.
Proof.
  intros Hq.
  destruct (Z.le_gt_cases two53 q) as [Hbig|Hsmall].
  - rewrite round_high; [split; [intros _; lia | done] | lia |].
    pose proof (Zdigits2_ge q 53 ltac:(lia) Hbig). lia.
  - destruct (round_vs_one q (-52) loc ltac:(lia))
      as (mrs & e1 & Hshr & He1 & _ & _ & Hiff & _).
    rewrite Hiff. clear Hiff.
    assert (Hdq : Zdigits2 q = 53) by (apply Zdigits2_eq; lia).
    unfold shr_fexp in Hshr. rewrite Hdq in Hshr, He1.
    rewrite shr_nonpos in Hshr by (rewrite fexp_max; lia).
    injection Hshr as <- <-.
    rewrite shr_m_of_loc, loc_of_shr_record_of_loc.
    pose proof (round_nearest_even_bounds q loc) as Hm2.
    destruct (Z.eq_dec q two52) as [->|Hne].
    + destruct loc as [|[]]; cbn; loc_cases.
    + split; [intros _; lia|]. intros _.
      destruct (Z.eq_dec (round_nearest_even q loc) two53); [left|right]; lia.
Qed.

Lemma round_mid_53 q loc :
  two52 <= q < 2 * two53 ->
  SFltb F64.one (binary_round_aux 53 1024 false q (-53) loc) = true
  <-> two53 + 2 <= q \/ (q = two53 + 1 /\ loc <> loc_Exact).
Proof.
  intros Hq.
  destruct (Z.le_gt_cases two53 q) as [Hbig|Hsmall].
  - destruct (round_vs_one q (-53) loc ltac:(lia))
      as (mrs & e1 & Hshr & He1 & _ & _ & Hiff & _).
    rewrite Hiff. clear Hiff.
    assert (Hdq : Zdigits2 q = 54) by (apply Zdigits2_eq; lia).
    unfold shr_fexp in Hshr. rewrite Hdq in Hshr, He1.
    change (fexp (54 + -53) - -53) with 1 in Hshr. cbn [shr SpecFloat.iter_pos] in Hshr.
    injection Hshr as <- <-.
    pose proof (shr_1_m (shr_record_of_loc q loc)) as Hm1.
    rewrite shr_m_of_loc in Hm1. specialize (Hm1 ltac:(lia)).
    pose proof (round_nearest_even_bounds
                  (shr_m (shr_1 (shr_record_of_loc q loc)))
                  (loc_of_shr_record (shr_1 (shr_record_of_loc q loc))))
      as Hm2.
    destruct (Z.eq_dec q two53) as [->|Hne1];
      [|destruct (Z.eq_dec q 9007199254740993) as [->|Hne2]].
    + destruct loc as [|[]]; cbn; loc_cases.
    + destruct loc as [|[]]; cbn; loc_cases.
    + assert (two52 + 1 <= q / 2) by (apply Z.div_le_lower_bound; lia).
      assert (q / 2 < two53) by (apply Z.div_lt_upper_bound; lia).
      rewrite Hm1 in Hm2 |- *.
      set (m2 := round_nearest_even _ _) in *.
      split; [intros _; lia|]. intros _.
      destruct (Z.eq_dec m2 two53); [left|right]; lia.
  - rewrite round_low; [split; [done | lia] | lia | lia |].
    pose proof (Zdigits2_le q 53 ltac:(lia) ltac:(lia)). lia.
Qed.

End Binary64Division.

Section Binary64Quotient.

Abbreviation fexp := (SpecFloat.fexp 53 1024).
Abbreviation two52 := 4503599627370496.
Abbreviation two53 := 9007199254740992.

(** Comparing two values is comparing the scaled mantissas the division
    works on. *)
Lemma value_lt_scaled mx ex my ey e' :
  0 < mx -> 0 < my -> -1074 <= ex -> -1074 <= ey ->
  e' <= 0 -> 0 <= ex - ey - e' ->
  my * 2 ^ (ey + 1074) < mx * 2 ^ (ex + 1074)
  <-> my * 2 ^ (- e') < mx * 2 ^ (ex - ey - e').
Proof.
  intros Hmx Hmy Hex Hey He' Hs.
  pose proof (Z.pow_pos_nonneg 2 (ey + 1074) ltac:(lia) ltac:(lia)) as HA.
  pose proof (Z.pow_pos_nonneg 2 (- e') ltac:(lia) ltac:(lia)) as HB.
  assert (Heq : 2 ^ (ex + 1074) * 2 ^ (- e')
                = 2 ^ (ex - ey - e') * 2 ^ (ey + 1074)).
  { rewrite <- !Z.pow_add_r by lia. f_equal. lia. }
  set (A := 2 ^ (ey + 1074)) in *. set (B := 2 ^ (- e')) in *.
  set (S := 2 ^ (ex - ey - e')) in *. set (X := 2 ^ (ex + 1074)) in *.
  split; intros Hlt.
  - apply (Z.mul_lt_mono_pos_r A); [lia|].
    replace (mx * S * A) with (mx * X * B)
      by (rewrite <- !Z.mul_assoc; f_equal; lia).
    replace (my * B * A) with (my * A * B) by lia.
    by apply Z.mul_lt_mono_pos_r.
  - apply (Z.mul_lt_mono_pos_r B); [lia|].
    replace (mx * X * B) with (mx * S * A)
      by (rewrite <- !Z.mul_assoc; f_equal; lia).
    replace (my * A * B) with (my * B * A) by lia.
    by apply Z.mul_lt_mono_pos_r.
Qed.

(** [m' = b * q + r] against [b * c], for a remainder [r] of the division
    by [b]. *)
Lemma euclid_lt b q r c :
  0 < b -> 0 <= r < b ->
  b * c < b * q + r <-> c < q \/ (c = q /\ 0 < r).
Proof.
  intros Hb Hr. split.
  - intros Hlt.
    destruct (Z.lt_trichotomy c q) as [?|[->|Hgt]]; [by left|right; lia|].
    assert (b * (q + 1) <= b * c) by (apply Z.mul_le_mono_nonneg_l; lia).
    lia.
  - intros [Hlt|[-> ?]]; [|lia].
    assert (b * (c + 1) <= b * q) by (apply Z.mul_le_mono_nonneg_l; lia).
    lia.
Qed.

(** No quotient of two 53-digit mantissas lies in [(1, 1 + 2^-53]]:
    the facts on the remainder that make rounding agree with the order. *)
Lemma aligned_remainder q r P Mx My :
  0 < P -> 0 < My < two53 -> 0 <= r -> r * P < My ->
  Mx * two53 = q * My + r * P ->
  (q = two53 -> r = 0)
  /\ (q = two53 + 1 -> r <> 0)
  /\ (q = two52 -> r <> 0 -> My < 2 * (r * P)).
Proof.
  intros HP HMy Hr HrP Heq.
  assert (HR : 0 <= r * P) by (apply Z.mul_nonneg_nonneg; lia).
  set (R := r * P) in *.
  repeat split.
  - intros ->.
    assert (R = 0) by lia.
    destruct (Z.eq_dec r 0) as [|Hne]; [done|].
    assert (0 < r * P) by (apply Z.mul_pos_pos; lia). unfold R in *. lia.
  - intros -> ->. unfold R in *. rewrite Z.mul_0_l in Heq. lia.
  - intros -> Hne.
    assert (0 < r * P) by (apply Z.mul_pos_pos; lia). fold R in H. lia.
Qed.

(** On well-formed positive numbers, the quotient exceeds 1.0 exactly
    when the dividend exceeds the divisor. *)
Lemma div_gt_one_pos_finite mx ex my ey :
  bounded 53 1024 mx ex = true -> bounded 53 1024 my ey = true ->
  SFltb F64.one
    (F64.div (S754_finite false mx ex) (S754_finite false my ey)) = true
  <-> SFltb (S754_finite false my ey) (S754_finite false mx ex) = true.
Proof.
  intros Hx Hy. rewrite (ltb_value_iff mx ex my ey Hx Hy), div_finite_eq.
  pose proof (bounded_inv _ _ Hx) as (Hd1 & Hex & _).
  pose proof (bounded_inv _ _ Hy) as (Hd2 & Hey & _).
  pose proof (Zdigits2_pos (Z.pos mx) ltac:(lia)) as Hd1p.
  pose proof (Zdigits2_pos (Z.pos my) ltac:(lia)) as Hd2p.
  set (d1 := Zdigits2 (Z.pos mx)) in *. set (d2 := Zdigits2 (Z.pos my)) in *.
  set (E := d1 + ex - (d2 + ey)).
  set (e' := Z.min (fexp E) (ex - ey)).
  set (s := ex - ey - e').
  set (m' := Z.pos mx * 2 ^ s).
  assert (Hfexp : fexp E = Z.max (E - 53) (-1074)) by reflexivity.
  assert (HE : E = d1 + ex - (d2 + ey)) by reflexivity.
  assert (Hs : 0 <= s) by (unfold s, e'; lia).
  pose proof (digits_scaled (Z.pos mx) s ltac:(lia) Hs) as Hm'. fold d1 m' in Hm'.
  pose proof (Zdigits2_bounds (Z.pos my) ltac:(lia)) as Hmy. fold d2 in Hmy.
  destruct (quotient_bounds m' (Z.pos my) (d1 + s) d2
              ltac:(lia) ltac:(lia) Hm' Hmy) as ([Hq0 Hqhi] & Hqlo).
  pose proof (Z.div_mod m' (Z.pos my) ltac:(lia)) as Hdm.
  pose proof (Z.mod_pos_bound m' (Z.pos my) ltac:(lia)) as Hr.
  set (q := m' / Z.pos my) in *. set (r := m' mod Z.pos my) in *.
  assert (Hk : d1 + s - d2 = E - e') by (unfold s; lia).
  rewrite Hk in Hqhi, Hqlo.
  pose proof (digits_scaled (Z.pos mx) (ex + 1074) ltac:(lia) ltac:(lia))
    as HVx. fold d1 in HVx.
  pose proof (digits_scaled (Z.pos my) (ey + 1074) ltac:(lia) ltac:(lia))
    as HVy. fold d2 in HVy.
  destruct (Z.le_gt_cases 2 E) as [Hhigh|Hlt2];
    [|destruct (Z.le_gt_cases E (-1)) as [Hlow|Hmid]].
  - (* the quotient is at least 2 *)
    assert (He' : e' <= E - 53) by (unfold e'; lia).
    specialize (Hqlo ltac:(lia)).
    assert (two52 <= q).
    { pose proof (Z.pow_le_mono_r 2 52 (E - e' - 1) ltac:(lia) ltac:(lia)).
      change (2 ^ 52) with two52 in *. lia. }
    pose proof (Zdigits2_ge q (E - e' - 1) ltac:(lia) Hqlo).
    rewrite round_high by lia.
    pose proof (Z.pow_le_mono_r 2 (d2 + (ey + 1074)) (d1 + (ex + 1074) - 1)
                  ltac:(lia) ltac:(lia)).
    split; [intros _; lia | done].
  - (* the quotient is below 1 *)
    assert (He' : e' <= -54) by (unfold e'; lia).
    pose proof (Zdigits2_le q (Z.max (E - e' + 1) 0) ltac:(lia) ltac:(lia)).
    rewrite round_low by lia.
    pose proof (Z.pow_le_mono_r 2 (d1 + (ex + 1074)) (d2 + (ey + 1074) - 1)
                  ltac:(lia) ltac:(lia)).
    split; [done | lia].
  - (* the quotient is in (1/2, 4) *)
    assert (He' : e' = E - 53) by (unfold e'; lia).
    assert (Hs' : s = 53 - d1 + d2) by (unfold s; lia).
    specialize (Hqlo ltac:(lia)).
    replace (E - e' - 1) with 52 in Hqlo by lia.
    replace (Z.max (E - e' + 1) 0) with 54 in Hqhi by lia.
    change (2 ^ 52) with two52 in Hqlo. change (2 ^ 54) with (2 * two53) in Hqhi.
    rewrite (value_lt_scaled (Z.pos mx) ex (Z.pos my) ey e')
      by (try fold s; lia).
    fold s. fold m'.
    (* the scaled mantissas [Mx * 2^53 = q * My + R] *)
    set (P := 2 ^ (53 - d2)).
    assert (HP : 0 < P) by (apply Z.pow_pos_nonneg; lia).
    assert (HMy : Z.pos my * P < two53).
    { unfold P. destruct Hmy as [_ Hhi].
      replace two53 with (2 ^ d2 * 2 ^ (53 - d2)).
      - pose proof (Z.pow_pos_nonneg 2 (53 - d2) ltac:(lia) ltac:(lia)). nia.
      - rewrite <- Z.pow_add_r by lia. replace (d2 + (53 - d2)) with 53 by lia.
        reflexivity. }
    assert (HMx : m' * P = Z.pos mx * 2 ^ (53 - d1) * two53).
    { unfold m', P. rewrite Hs'.
      replace two53 with (2 ^ 53) by reflexivity.
      rewrite <- !Z.mul_assoc, <- !Z.pow_add_r by lia. do 2 f_equal. lia. }
    set (Mx := Z.pos mx * 2 ^ (53 - d1)) in *.
    set (My := Z.pos my * P) in *.
    assert (HMyeq : My = Z.pos my * P) by reflexivity.
    assert (HR : Mx * two53 = q * My + r * P).
    { rewrite <- HMx, Hdm, HMyeq. ring. }
    assert (HRb : r * P < My).
    { rewrite HMyeq. apply Z.mul_lt_mono_pos_r; lia. }
    assert (HMy0 : 0 < My) by (rewrite HMyeq; apply Z.mul_pos_pos; lia).
    assert (Hqhi' := Hqhi).
    clearbody My Mx P. clear Hm' HVx HVy Hqhi' Hx Hy.
    destruct (aligned_remainder q r P Mx My HP ltac:(lia) ltac:(lia)
                ltac:(lia) HR) as (Hq53 & Hq53' & Hq52).
    rewrite new_location_compare, Hdm.
    destruct (Z.eq_dec E 0) as [HE0|HE0].
    + (* exponent -53 *)
      replace e' with (-53) by lia. rewrite round_mid_53 by lia.
      replace (- -53) with 53 by lia. change (2 ^ 53) with two53.
      rewrite euclid_lt by lia.
      destruct (Z.eqb_spec r 0) as [Hr0|Hr0].
      * split; [intros [?|[? ?]]; [left; lia | done] |].
        intros [?|[? ?]]; [|lia]. left.
        destruct (Z.eq_dec q (two53 + 1)) as [Heq|Hne];
          [by apply Hq53' in Heq | lia].
      * split; [intros [?|[? _]]; left; lia|].
        intros [Hlt|[Heq _]]; [|specialize (Hq53 ltac:(lia)); lia].
        destruct (Z.eq_dec q (two53 + 1));
          [right; split; [done|discriminate] | left; lia].
    + (* exponent -52 *)
      replace e' with (-52) by lia. rewrite round_mid_52 by lia.
      replace (- -52) with 52 by lia. change (2 ^ 52) with two52.
      rewrite euclid_lt by lia.
      destruct (Z.eqb_spec r 0) as [Hr0|Hr0].
      * split; [intros [?|?]; [left; lia | discriminate] |].
        intros [?|[? ?]]; [by left | lia].
      * split.
        -- intros [?|_]; [by left|].
           destruct (Z.eq_dec q two52); [right; lia | left; lia].
        -- intros [?|[Heq _]]; [by left|]. right. f_equal.
           apply Z.compare_gt_iff.
           specialize (Hq52 ltac:(lia) Hr0).
           assert (HMy' : My = Z.pos my * P) by exact HMyeq.
           rewrite HMy' in Hq52.
           replace (2 * (r * P)) with ((2 * r) * P) in Hq52 by lia.
           by apply Z.mul_lt_mono_pos_r in Hq52.
Qed.

End Binary64Quotient.

(** ** Integers as binary64 numbers *)

Section Binary64OfZ.

Abbreviation fexp := (SpecFloat.fexp 53 1024).
Abbreviation two53 := 9007199254740992.

Lemma Zpos_iter_xO m k : Z.pos (Pos.iter xO m k) = Z.pos m * 2 ^ Z.pos k.
Proof.
  induction k as [|k IH] using Pos.peano_ind.
  - cbn [Pos.iter]. rewrite Pos2Z.inj_xO. change (2 ^ 1) with 2. lia.
  - rewrite Pos.iter_succ, Pos2Z.inj_xO, IH, Pos2Z.inj_succ.
    rewrite Z.pow_succ_r by lia. lia.
Qed.

(** A rounding whose first shift leaves a positive mantissa answers a
    finite number or an infinity of the given sign. *)
Lemma binary_round_aux_nonzero sx m e l :
  0 < m -> 2 ^ (Z.max e (fexp (Zdigits2 m + e)) - e) <= m ->
  (exists m' e', binary_round_aux 53 1024 sx m e l = S754_finite sx m' e')
  \/ binary_round_aux 53 1024 sx m e l = S754_infinity sx.
Proof.
  intros Hm Hge.
  destruct (binary_round_aux_cases sx m e l ltac:(lia))
    as (mrs & e1 & _ & He1 & Hm1 & Hb & _ & Hres).
  rewrite Hres. cbv zeta. rewrite <- He1 in Hge.
  assert (Hpos : 0 < shr_m mrs).
  { rewrite Hm1.
    assert (0 < 2 ^ (e1 - e)) by (apply Z.pow_pos_nonneg; lia).
    assert (1 <= m / 2 ^ (e1 - e)) by (apply Z.div_le_lower_bound; lia).
    lia. }
  pose proof (round_nearest_even_bounds (shr_m mrs) (loc_of_shr_record mrs))
    as Hm2.
  destruct (_ =? two53).
  - destruct (e1 + 1 <=? 971); eauto.
  - destruct (round_nearest_even _ _) as [|p|p]; [lia| |lia].
    destruct (e1 <=? 971); eauto.
Qed.

(** A non-zero integer converts to a non-zero number. *)
Lemma of_Z_nonzero z :
  z <> 0 ->
  (exists m e, F64.of_Z z = S754_finite (z <? 0) m e)
  \/ F64.of_Z z = S754_infinity (z <? 0).
Proof.
  intros Hz. unfold F64.of_Z, binary_normalize, F64.prec, F64.emax.
  assert (Hround : forall sx m,
    (exists m' e', binary_round 53 1024 sx m 0 = S754_finite sx m' e')
    \/ binary_round 53 1024 sx m 0 = S754_infinity sx).
  { intros sx m. unfold binary_round, shl_align.
    change (Z.pos (digits2_pos m)) with (Zdigits2 (Z.pos m)).
    pose proof (Zdigits2_pos (Z.pos m) ltac:(lia)) as Hd.
    pose proof (fexp_max (Zdigits2 (Z.pos m) + 0)) as Hf.
    destruct (fexp (Zdigits2 (Z.pos m) + 0) - 0) as [|k|k] eqn:Hk.
    - apply binary_round_aux_nonzero; [lia|].
      replace (Z.max 0 _ - 0) with 0 by lia. change (2 ^ 0) with 1. lia.
    - apply binary_round_aux_nonzero; [lia|].
      pose proof (Zdigits2_bounds (Z.pos m) ltac:(lia)) as [Hlo _].
      pose proof (Z.pow_le_mono_r 2
                    (Z.max 0 (fexp (Zdigits2 (Z.pos m) + 0)) - 0)
                    (Zdigits2 (Z.pos m) - 1) ltac:(lia) ltac:(lia)).
      lia.
    - pose proof (digits_scaled (Z.pos m) (Z.pos k) ltac:(lia) ltac:(lia))
        as Hsc.
      rewrite <- Zpos_iter_xO in Hsc.
      assert (Hsum : Zdigits2 (Z.pos m) + Z.pos k = 53) by lia.
      rewrite Hsum in Hsc.
      assert (Hdig : Zdigits2 (Z.pos (Pos.iter xO m k)) = 53)
        by (apply Zdigits2_eq; [lia | exact Hsc]).
      apply binary_round_aux_nonzero; [lia|].
      rewrite Hdig, (fexp_max (53 + _)).
      replace (Z.max _ _ - _) with 0 by lia. change (2 ^ 0) with 1. lia. }
  destruct z as [|p|p]; [done| |]; apply Hround.
Qed.

Lemma of_Z_pos z :
  0 < z -> F64.is_pos_finite (F64.of_Z z) = true \/ F64.of_Z z = F64.inf.
Proof.
  intros Hz. destruct (of_Z_nonzero z ltac:(lia)) as [(m & e & Hs)|Hs];
    rewrite Hs; replace (z <? 0) with false by (symmetry; apply Z.ltb_ge; lia).
  - by left.
  - by right.
Qed.

End Binary64OfZ.


(** ** Sampling metrics *)

Lemma pair_fst_eq {A B} (x : A * B) (a : A) : x.1 = a -> x = (a, x.2).
Proof. destruct x; cbn; congruence. Qed.

Lemma bind_ok {W A B} (m : M W A) (k : A -> M W B) w a w' :
  m w = (Ok a, w') -> bind m k w = k a w'.
Proof. intros Hm. unfold bind. by rewrite Hm. Qed.

Section SamplingFacts.
Context {C I : Type} `{!ResultCache C} `{!Inferrer I}.
Implicit Types (w : world C I) (sample : string -> Z -> F64.float -> M (world C I) Z).

(** The index loop of [sample_many] visits the molecules in order: on the
    indices of a suffix [ds] of the dataset it appends the counts of a run
    over [ds]. *)
Lemma sample_many_loop_run sample n r pre ds acc w counts w' :
  sample_run sample n r ds w counts w' ->
  BaseSampleMetric.sample_many_loop sample (pre ++ ds) n r
    (seq (length pre) (length ds)) acc w
  = (Ok (acc ++ counts), w').
Proof.
  intros Hrun. revert pre acc.
  induction Hrun as [w | s ds w c w1 cs w' Hs _ IH]; intros pre acc.
  - cbn. by rewrite app_nil_r.
  - cbn [length seq BaseSampleMetric.sample_many_loop].
    rewrite lookup_app_r by lia. rewrite Nat.sub_diag. cbn [lookup list_lookup].
    rewrite (bind_ok _ _ _ _ _ Hs).
    specialize (IH (pre ++ [s]) (acc ++ [c])).
    rewrite length_app in IH. cbn [length] in IH.
    rewrite Nat.add_1_r, <- !app_assoc in IH. exact IH.
Qed.

Lemma sample_many_run sample n r ds w counts w' :
  sample_run sample n r ds w counts w' ->
  BaseSampleMetric.sample_many sample ds n r w = (Ok counts, w').
Proof.
  intros Hrun. unfold BaseSampleMetric.sample_many.
  exact (sample_many_loop_run sample n r [] ds [] w counts w' Hrun).
Qed.

Lemma sample_many_loop_inv sample n r ds : forall pre acc w res w',
  BaseSampleMetric.sample_many_loop sample (pre ++ ds) n r
    (seq (length pre) (length ds)) acc w = (Ok res, w') ->
  exists counts, res = acc ++ counts /\ sample_run sample n r ds w counts w'.
Proof.
  induction ds as [|s ds IH]; intros pre acc w res w'.
  - cbn. intros [= <- <-]. exists []. rewrite app_nil_r. split; [done|constructor].
  - cbn [length seq BaseSampleMetric.sample_many_loop].
    rewrite lookup_app_r by lia. rewrite Nat.sub_diag. cbn [lookup list_lookup].
    unfold bind at 1. destruct (sample s n r w) as [[c|e] w1] eqn:Hs; [|done].
    intros Hloop. specialize (IH (pre ++ [s]) (acc ++ [c]) w1 res w').
    rewrite length_app in IH. cbn [length] in IH.
    rewrite Nat.add_1_r, <- !app_assoc in IH.
    destruct (IH Hloop) as (cs & -> & Hrun).
    exists (c :: cs). rewrite <- app_assoc. split; [done|].
    by econstructor.
Qed.

Lemma sample_many_run_inv sample n r ds w counts w' :
  BaseSampleMetric.sample_many sample ds n r w = (Ok counts, w') ->
  sample_run sample n r ds w counts w'.
Proof.
  intros Hmany.
  destruct (sample_many_loop_inv sample n r ds [] [] w counts w' Hmany)
    as (cs & -> & Hrun).
  exact Hrun.
Qed.

Lemma sample_run_length sample n r ds w counts w' :
  sample_run sample n r ds w counts w' -> length counts = length ds.
Proof. induction 1; cbn; congruence. Qed.

Lemma py_float_ok z d : F64.py_float z = Ok d -> d = F64.of_Z z.
Proof. unfold F64.py_float. destruct (F64.of_Z z); congruence. Qed.

(** Dividing by a zero never answers a finite number. *)
Lemma div_zero_not_finite x s : F64.is_finite (F64.div x (S754_zero s)) = false.
Proof. by destruct x. Qed.

End SamplingFacts.

Section SamplingClaims.
Context {C I : Type} `{!ResultCache C} `{!Inferrer I}.
Implicit Types (w : world C I) (sample : string -> Z -> F64.float -> M (world C I) Z).

(** C7: for a non-empty dataset and [n > 0], when the per-molecule calls of
    [sample] answer [counts] and the denominator [len(dataset) * n] is
    convertible to a float, [calculate] reports the value
    [sum(counts) / (len(dataset) * n)] (binary64 quotient), and the
    denominator is a positive finite number. *)
Theorem calculate_value_is_population_rate
    name sample dataset n r w counts w' denominator :
  dataset <> [] -> 0 < n ->
  sample_run sample n r dataset w counts w' ->
  F64.py_float (Z.of_nat (length dataset) * n) = Ok denominator ->
  BaseSampleMetric.calculate name sample dataset r n w
  = (Ok {| series_name := name;
           series_value :=
             F64.div (F64.of_Z (np_nansum counts))
                     (F64.of_Z (Z.of_nat (length dataset) * n));
           series_radius := r;
           series_num_samples := n |}, w')
  /\ F64.is_pos_finite (F64.of_Z (Z.of_nat (length dataset) * n)) = true.
Proof.
  intros Hne Hn Hrun Hden. split.
  - unfold BaseSampleMetric.calculate.
    rewrite (bind_ok _ _ _ _ _ (sample_many_run _ _ _ _ _ _ _ Hrun)).
    unfold BaseSampleMetric._calculate_metric, lift, bind, ret.
    rewrite (sample_run_length _ _ _ _ _ _ _ Hrun), Hden.
    by rewrite (py_float_ok _ _ Hden).
  - assert (Hlen : 0 < Z.of_nat (length dataset))
      by (destruct dataset; [done | cbn [length]; lia]).
    destruct (of_Z_pos (Z.of_nat (length dataset) * n) ltac:(lia))
      as [Hpos|Hinf]; [exact Hpos|].
    unfold F64.py_float in Hden. by rewrite Hinf in Hden.
Qed.

(** C2 (amended): with [num_samples = 0] on a non-empty dataset whose
    samples are obtained, [calculate] does not raise: it performs the
    division by the zero denominator and reports its quotient, which is
    NaN when the counts sum to zero and an infinity otherwise. *)
Theorem calculate_zero_samples_divides name sample dataset r w counts w' :
  dataset <> [] ->
  sample_run sample 0 r dataset w counts w' ->
  exists v,
    BaseSampleMetric.calculate name sample dataset r 0 w
    = (Ok {| series_name := name; series_value := v;
             series_radius := r; series_num_samples := 0 |}, w')
    /\ v = F64.div (F64.of_Z (np_nansum counts)) F64.zero
    /\ F64.is_finite v = false
    /\ (np_nansum counts = 0 -> v = F64.nan)
    /\ (np_nansum counts <> 0 -> exists s, v = S754_infinity s).
Proof.
  intros _ Hrun.
  exists (F64.div (F64.of_Z (np_nansum counts)) F64.zero).
  split; [|split; [reflexivity | split; [apply div_zero_not_finite|]]].
  - unfold BaseSampleMetric.calculate.
    rewrite (bind_ok _ _ _ _ _ (sample_many_run _ _ _ _ _ _ _ Hrun)).
    unfold BaseSampleMetric._calculate_metric, lift, bind, ret.
    by rewrite Z.mul_0_r.
  - split.
    + intros ->. reflexivity.
    + intros Hsum.
      destruct (of_Z_nonzero _ Hsum) as [(m & e & ->)| ->]; eexists;
        reflexivity.
Qed.

(** C6 (amended): when the sample list obtained for a molecule is
    ["CCO"; "CCC"; "invalid_string"; "CCO"], [Unique.sample] answers 3, the
    number of distinct strings after the first element. *)
Theorem unique_sample_cco_is_three smiles r w w' :
  BaseSampleMetric._find_similars_smiles smiles 3 r false false w
  = (Ok Stub.cco_samples, w') ->
  Unique.sample smiles 3 r w = (Ok 3, w').
Proof.
  intros Hfind. unfold Unique.sample.
  rewrite (bind_ok _ _ _ _ _ Hfind). reflexivity.
Qed.

(** [Novelty.sample] counts over the whole list, first element included. *)
Lemma sum_bools_acc l acc :
  fold_left (fun a (b : bool) => a + (if b then 1 else 0)) l acc
  = acc + sum_bools l.
Proof.
  unfold sum_bools. revert acc.
  induction l as [|b l IH]; intros acc; cbn; [lia|].
  rewrite (IH (acc + _)), (IH (0 + _)). lia.
Qed.

Lemma sum_bools_filter {A} (f : A -> bool) l :
  sum_bools (map f l) = Z.of_nat (length (filter f l)).
Proof.
  induction l as [|x l IH]; [reflexivity|].
  unfold sum_bools in *. cbn [map fold_left filter].
  rewrite sum_bools_acc. unfold sum_bools. rewrite IH.
  rewrite filter_cons. destruct (decide (f x)) as [Hx|Hx].
  - destruct (f x); [cbn [length]; lia | done].
  - destruct (f x); [done | lia].
Qed.

Lemma novelty_sample_counts_first is_known smiles n r w g gs w' :
  BaseSampleMetric._find_similars_smiles smiles n r false false w
  = (Ok (g :: gs), w') ->
  Novelty.sample is_known smiles n r w
  = (Ok ((if is_known g then 1 else 0)
         + novelty_count_spec is_known (g :: gs)), w').
Proof.
  intros Hfind. unfold Novelty.sample.
  rewrite (bind_ok _ _ _ _ _ Hfind). unfold ret. do 2 f_equal.
  unfold novelty_count_spec, slice_from_1, Novelty.smiles_in_train.
  cbn [map tl]. rewrite <- sum_bools_filter.
  unfold sum_bools at 1. cbn [fold_left]. by rewrite sum_bools_acc.
Qed.

End SamplingClaims.

(** C7, on a concrete run: two molecules, three samples each. *)
Lemma calculate_value_is_population_rate_witness :
  (Unique.calculate ["CCO"; "CCN"]%string Stub.radius_0_1 3
     (Stub.start Stub.cco_samples)).1
  = Ok {| series_name := Unique.name;
          series_value := F64.div (F64.of_Z 6) (F64.of_Z 6);
          series_radius := Stub.radius_0_1;
          series_num_samples := 3 |}.
Proof.
  unfold Unique.calculate.
  destruct (calculate_value_is_population_rate Unique.name Unique.sample
              ["CCO"; "CCN"]%string 3 Stub.radius_0_1
              (Stub.start Stub.cco_samples) [3; 3]
              (BaseSampleMetric.sample_many Unique.sample
                 ["CCO"; "CCN"]%string 3 Stub.radius_0_1
                 (Stub.start Stub.cco_samples)).2
              (F64.of_Z 6)) as [Hcalc _].
  5: by rewrite Hcalc.
  - discriminate.
  - lia.
  - apply sample_many_run_inv, pair_fst_eq. vm_compute. reflexivity.
  - vm_compute. reflexivity.
Defined.

(** C2, on a concrete run: one molecule, no sample requested. *)
Lemma calculate_zero_samples_divides_witness :
  exists v,
    (Unique.calculate ["CCO"]%string Stub.radius_0_1 0
       (Stub.start Stub.cco_samples)).1
    = Ok {| series_name := Unique.name; series_value := v;
            series_radius := Stub.radius_0_1; series_num_samples := 0 |}
    /\ F64.is_finite v = false.
Proof.
  destruct (calculate_zero_samples_divides Unique.name Unique.sample
              ["CCO"]%string Stub.radius_0_1
              (Stub.start Stub.cco_samples) [3]
              (BaseSampleMetric.sample_many Unique.sample
                 ["CCO"]%string 0 Stub.radius_0_1
                 (Stub.start Stub.cco_samples)).2)
    as (v & Hcalc & _ & Hv & _).
  - discriminate.
  - apply sample_many_run_inv, pair_fst_eq. vm_compute. reflexivity.
  - exists v. unfold Unique.calculate. rewrite Hcalc. split; [reflexivity | exact Hv].
Defined.

(** C2 as stated fails: with [num_samples = 0] on a one-molecule dataset
    [calculate] answers a series (value [+inf]) and raises nothing. *)
Lemma calculate_zero_samples_counterexample :
  (Unique.calculate ["CCO"]%string Stub.radius_0_1 0
     (Stub.start Stub.cco_samples)).1
  = Ok {| series_name := Unique.name; series_value := F64.inf;
          series_radius := Stub.radius_0_1; series_num_samples := 0 |}
  /\ ~ (exists e,
          (Unique.calculate ["CCO"]%string Stub.radius_0_1 0
             (Stub.start Stub.cco_samples)).1 = Raise e).
Proof.
  assert (Hrun :
    (Unique.calculate ["CCO"]%string Stub.radius_0_1 0
       (Stub.start Stub.cco_samples)).1
    = Ok {| series_name := Unique.name; series_value := F64.inf;
            series_radius := Stub.radius_0_1; series_num_samples := 0 |})
    by (vm_compute; reflexivity).
  split; [exact Hrun|]. intros [e He]. rewrite Hrun in He. discriminate.
Qed.

(** C6, on the stubbed client of the end-to-end scenario. *)
Lemma unique_sample_cco_is_three_witness :
  (Unique.sample "CCO"%string 3 Stub.radius_0_1
     (Stub.start Stub.cco_samples)).1 = Ok 3.
Proof.
  rewrite (unique_sample_cco_is_three "CCO"%string Stub.radius_0_1
             (Stub.start Stub.cco_samples)
             (BaseSampleMetric._find_similars_smiles "CCO"%string 3
                Stub.radius_0_1 false false
                (Stub.start Stub.cco_samples)).2).
  - reflexivity.
  - apply pair_fst_eq. vm_compute. reflexivity.
Defined.

(** C6 as stated fails: on that sample list the count is 3, not 2. *)
Lemma unique_sample_cco_counterexample :
  (Unique.sample "CCO"%string 3 Stub.radius_0_1
     (Stub.start Stub.cco_samples)).1 <> Ok 2.
Proof. vm_compute. discriminate. Qed.

(** C1 (code at the failing input): with a training set that holds "CCO"
    and the sample list ["CCO"; "CCC"; "invalid_string"; "CCO"],
    [Novelty.sample] answers 2 although only one candidate after the
    identity marker is in the training set: the first element is counted. *)
Theorem novelty_sample_counts_identity_marker :
  (Novelty.sample Stub.only_cco "CCO"%string 3 Stub.radius_0_1
     (Stub.start Stub.cco_samples)).1 = Ok 2
  /\ novelty_count_spec Stub.only_cco Stub.cco_samples = 1.
Proof. split; vm_compute; reflexivity. Qed.

(** ** The cache in front of the inference client *)

Section CacheFacts.
Context {C I : Type} `{!ResultCache C} `{!Inferrer I}.
Implicit Types (w : world C I) (q : request).

(** A usable entry answers the request and leaves the world as it is. *)
Lemma serve_usable q w : fetch_usable q w = true -> serve q w = w.
Proof.
  unfold fetch_usable, fetch_entry, serve.
  destruct q as [smiles n r u s | smiles m].
  - unfold BaseSampleMetric._find_similars_smiles.
    destruct (fetch_sampling_data _ _) as [[|g gs]|]; cbn; done.
  - unfold BaseEmbeddingMetric._find_embedding.
    destruct (fetch_embedding_data _ _) as [[v d]|]; cbn; [|done].
    destruct (length d =? 1)%nat; cbn; done.
Qed.

(** Without a usable entry the client is called once, and its answer is
    what a fetch answers afterwards. *)
Lemma serve_unusable q w :
  fetch_usable q w = false ->
  calls (serve q w) = calls w ++ [call_of q]
  /\ forall e, client_answer q (inferrer w) = Ok e ->
               fetch_entry q (sample_cache (serve q w)) = Some e.
Proof.
  unfold fetch_usable, fetch_entry, serve, client_answer, call_of.
  destruct q as [smiles n r u s | smiles m].
  - unfold BaseSampleMetric._find_similars_smiles.
    destruct (find_similars_smiles _ _ _ _ _ _) as [[frame|err] i'] eqn:Hc.
    + destruct (fetch_sampling_data _ _) as [[|g gs]|]; cbn; try done;
        (split; [done|]); intros e [= <-];
        by rewrite fetch_insert_sampling.
    + destruct (fetch_sampling_data _ _) as [[|g gs]|]; cbn; done.
  - unfold BaseEmbeddingMetric._find_embedding.
    destruct (smiles_to_embedding _ _ _) as [[emb|err] i'] eqn:Hc.
    + destruct (fetch_embedding_data _ _) as [[v d]|]; cbn.
      * destruct (length d =? 1)%nat; cbn; [|done].
        split; [done|]. intros e [= <-]. by rewrite fetch_insert_embedding.
      * split; [done|]. intros e [= <-]. by rewrite fetch_insert_embedding.
    + destruct (fetch_embedding_data _ _) as [[v d]|]; cbn; [|done].
      destruct (length d =? 1)%nat; cbn; done.
Qed.

(** A logged call keeps its usable entry. *)
Lemma settled_usable q w :
  settled w -> In (call_of q) (calls w) -> fetch_usable q w = true.
Proof.
  intros (_ & Hs & He) Hin. unfold fetch_usable, fetch_entry.
  destruct q as [smiles n r u s | smiles m]; cbn in Hin.
  - destruct (Hs _ Hin) as (g & gs & ->). done.
  - destruct (He _ _ Hin) as (v & d & -> & Hd). cbn.
    apply negb_true_iff, Nat.eqb_neq. exact Hd.
Qed.

Lemma serve_settled q w : reliable_client -> settled w -> settled (serve q w).
Proof.
  intros Hrel Hw.
  destruct (fetch_usable q w) eqn:Hu; [by rewrite serve_usable|].
  assert (Hfresh : ~ In (call_of q) (calls w)).
  { intros Hin. rewrite (settled_usable q w Hw Hin) in Hu. discriminate. }
  destruct (Hrel q (inferrer w)) as (e & Hans & Hus).
  destruct Hw as (Hnd & Hs & He).
  revert Hfresh Hans Hu. unfold fetch_usable, fetch_entry, serve, client_answer, call_of.
  destruct q as [smiles n r u s | smiles m].
  - unfold BaseSampleMetric._find_similars_smiles.
    destruct (find_similars_smiles _ _ _ _ _ _) as [[frame|err] i'];
      cbn [fst]; [|done].
    intros Hfresh [= <-] Hu.
    assert (Hne : exists g gs, SMILES frame = g :: gs).
    { cbn in Hus. destruct (SMILES frame) as [|g gs]; [done|by eauto]. }
    assert (Hgoal : settled
      (World (insert_sampling_data (sample_cache w)
                (class_name I, smiles, n, r, u, s) (SMILES frame)
                (embeddings frame) (embeddings_dim frame)) i'
             (calls w ++ [FindSimilars (class_name I, smiles, n, r, u, s)]))).
    { repeat split; cbn.
      - apply NoDup_app. repeat split; [done| |apply NoDup_singleton].
        intros x Hx ->%list_elem_of_singleton. by apply Hfresh, list_elem_of_In.
      - intros k [Hk|[[= <-]|[]]]%in_app_iff.
        + destruct (decide ((class_name I, smiles, n, r, u, s) = k)) as [<-|Hkk];
            [done|].
          rewrite fetch_insert_sampling_ne by done. by apply Hs.
        + rewrite fetch_insert_sampling. destruct Hne as (g & gs & ->). eauto.
      - intros sm m [Hk|[[=]|[]]]%in_app_iff.
        rewrite fetch_embedding_insert_sampling. by eapply He. }
    destruct (fetch_sampling_data _ _) as [[|g gs]|]; cbn in Hu |- *; done.
  - unfold BaseEmbeddingMetric._find_embedding.
    destruct (smiles_to_embedding _ _ _) as [[emb|err] i'];
      cbn [fst]; [|done].
    intros Hfresh [= <-] Hu.
    assert (Hd : length (dim emb) <> 1%nat).
    { cbn in Hus. by apply Nat.eqb_neq, negb_true_iff. }
    assert (Hgoal : settled
      (World (insert_embedding_data (sample_cache w) smiles
                (embedding emb) (dim emb)) i'
             (calls w ++ [SmilesToEmbedding smiles m]))).
    { repeat split; cbn.
      - apply NoDup_app. repeat split; [done| |apply NoDup_singleton].
        intros x Hx ->%list_elem_of_singleton. by apply Hfresh, list_elem_of_In.
      - intros k [Hk|[[=]|[]]]%in_app_iff.
        rewrite fetch_sampling_insert_embedding. by apply Hs.
      - intros sm m' [Hk|[[= <- <-]|[]]]%in_app_iff.
        + destruct (decide (smiles = sm)) as [<-|Hss].
          * rewrite fetch_insert_embedding. eauto.
          * rewrite fetch_insert_embedding_ne by done. by eapply He.
        + rewrite fetch_insert_embedding. eauto. }
    destruct (fetch_embedding_data _ _) as [[v d]|]; cbn in Hu |- *; [|done].
    destruct (length d =? 1)%nat; cbn in Hu |- *; done.
Qed.

Lemma serve_all_settled qs w :
  reliable_client -> settled w -> settled (serve_all qs w).
Proof.
  intros Hrel. revert w. unfold serve_all.
  induction qs as [|q qs IH]; intros w Hw; cbn; [done|].
  by apply IH, serve_settled.
Qed.

End CacheFacts.

Section CacheClaims.
Context {C I : Type} `{!ResultCache C} `{!Inferrer I}.
Implicit Types (w : world C I) (q : request).

(** C3 (amended): for a sampling or an embedding request, a fetch that
    answers a usable entry (a non-empty list of molecules, an embedding
    whose [dim] has a length other than 1) never triggers a client call;
    any other fetch triggers exactly one, whose answer is inserted at once;
    and with a client that never fails and only answers usable entries, no
    fingerprint is sent to the client twice, whatever the requests. *)
Theorem client_called_only_without_usable_entry q w :
  (fetch_usable q w = true -> serve q w = w)
  /\ (fetch_usable q w = false ->
        calls (serve q w) = calls w ++ [call_of q]
        /\ forall e, client_answer q (inferrer w) = Ok e ->
                     fetch_entry q (sample_cache (serve q w)) = Some e)
  /\ (reliable_client -> settled w ->
        forall qs, NoDup (calls (serve_all qs w))).
Proof.
  split; [apply serve_usable|]. split; [apply serve_unusable|].
  intros Hrel Hw qs. by destruct (serve_all_settled qs w Hrel Hw).
Qed.

(** C10: a cached embedding whose [dim] has length exactly 1 does not
    satisfy the fetch: [_find_embedding] calls the client again and inserts
    what it answers; a cached embedding with any other [dim] length is
    answered as it is. *)
Theorem cached_embedding_with_flat_dim_is_recomputed w smiles m v d :
  fetch_embedding_data (sample_cache w) smiles = Some (v, d) ->
  (length d = 1%nat ->
     BaseEmbeddingMetric._find_embedding smiles m w
     = match smiles_to_embedding (inferrer w) smiles m with
       | (Ok r, i') =>
         (Ok (embedding r, dim r),
          World (insert_embedding_data (sample_cache w) smiles
                   (embedding r) (dim r)) i'
                (calls w ++ [SmilesToEmbedding smiles m]))
       | (Raise e, i') =>
         (Raise e,
          World (sample_cache w) i' (calls w ++ [SmilesToEmbedding smiles m]))
       end)
  /\ (length d <> 1%nat ->
        BaseEmbeddingMetric._find_embedding smiles m w = (Ok (v, d), w)).
Proof.
  intros Hfetch. unfold BaseEmbeddingMetric._find_embedding. rewrite Hfetch.
  split; intros Hd.
  - rewrite Hd. reflexivity.
  - apply Nat.eqb_neq in Hd. rewrite Hd. reflexivity.
Qed.

End CacheClaims.

Lemma echo_client_reliable : reliable_client (I := Stub.EchoClient).
Proof.
  intros [smiles n r u s | smiles m] i; cbn; eexists; (split; [reflexivity|done]).
Qed.

Lemma start_settled {C I} `{!ResultCache C} `{!Inferrer I} (c : C) (i : I) :
  settled (World c i []).
Proof.
  repeat split; cbn; [apply NoDup_nil_2 | intros ? [] | intros ? ? []].
Qed.

(** C3, on a concrete run: the same molecule sampled twice and embedded
    twice reaches the client once per fingerprint. *)
Lemma client_called_only_without_usable_entry_witness :
  NoDup (calls (serve_all
                  [SampleRequest "CCO" 3 Stub.radius_0_1 false false;
                   EmbedRequest "CCO" None;
                   SampleRequest "CCO" 3 Stub.radius_0_1 false false;
                   EmbedRequest "CCO" (Some 512)]
                  Stub.echo_start)).
Proof.
  apply (client_called_only_without_usable_entry
           (EmbedRequest "CCO" None) Stub.echo_start).
  - exact echo_client_reliable.
  - apply start_settled.
Defined.

(** C3 as stated fails: the second of two identical embedding requests
    fetches the stored result of the first ([dim] of length 1) and still
    calls the client, so one fingerprint reaches it twice. *)
Lemma client_called_twice_counterexample :
  let q := EmbedRequest "CCO" None in
  let w1 := serve q Stub.flat_start in
  fetch_embedding_data (sample_cache w1) "CCO"
  = Some ([F64.zero; F64.zero], [2])
  /\ calls (serve q w1)
     = [SmilesToEmbedding "CCO" None; SmilesToEmbedding "CCO" None].
Proof. split; vm_compute; reflexivity. Qed.

(** C10, on a concrete run: the entry stored by a first request has a
    [dim] of length 1, and a second request calls the client again. *)
Lemma cached_embedding_with_flat_dim_is_recomputed_witness :
  calls (BaseEmbeddingMetric._find_embedding "CCO" None
           (serve (EmbedRequest "CCO" None) Stub.flat_start)).2
  = [SmilesToEmbedding "CCO" None; SmilesToEmbedding "CCO" None].
Proof.
  destruct (cached_embedding_with_flat_dim_is_recomputed
              (serve (EmbedRequest "CCO" None) Stub.flat_start)
              "CCO" None [F64.zero; F64.zero] [2]) as [Hflat _].
  - vm_compute. reflexivity.
  - rewrite Hflat by reflexivity. vm_compute. reflexivity.
Defined.

(** ** Nearest-neighbor correlation *)

Section EmbeddingFacts.
Context {C I FP : Type} `{!ResultCache C} `{!Inferrer I}.
Variable reshape_embedding :
  string -> bool -> bool -> vector -> shape -> res vector.
Variable spearmanr_of_distances :
  list vector -> FP -> option Z -> res (list F64.float).
Variable nanmean : list F64.float -> F64.float.
Implicit Types (w : world C I).

(** [encode_many] answers one embedding per molecule. *)
Lemma encode_many_loop_length zp avg m todo : forall acc w embs w',
  BaseEmbeddingMetric.encode_many_loop reshape_embedding zp avg m todo acc w
  = (Ok embs, w') ->
  length embs = (length acc + length todo)%nat.
Proof.
  induction todo as [|s todo IH]; intros acc w embs w'; cbn.
  - intros [= <- _]. lia.
  - unfold bind at 1.
    destruct (BaseEmbeddingMetric.encode _ _ _ _ _ _) as [[e|err] w1];
      [|done].
    intros Hloop. apply IH in Hloop. rewrite length_app in Hloop.
    cbn in Hloop. lia.
Qed.

Lemma encode_many_length (dataset : Dataset FP) m zp avg w embs w' :
  BaseEmbeddingMetric.encode_many reshape_embedding dataset m zp avg w
  = (Ok embs, w') ->
  length embs = length (ds_smiles dataset).
Proof.
  unfold BaseEmbeddingMetric.encode_many. intros Hloop.
  by apply encode_many_loop_length in Hloop.
Qed.

(** C9: called without a [top_k], [calculate] reports [top_k] equal to the
    number of dataset molecules minus 1, whenever the embeddings are
    obtained and the correlation is computed. *)
Theorem calculate_default_top_k (dataset : Dataset FP) w embs w' corr :
  BaseEmbeddingMetric.encode_many reshape_embedding dataset None true false w
  = (Ok embs, w') ->
  spearmanr_of_distances embs (ds_fingerprints dataset) None = Ok corr ->
  NearestNeighborCorrelation.calculate reshape_embedding
    spearmanr_of_distances nanmean dataset None w
  = (Ok {| nnc_name := NearestNeighborCorrelation.name;
           nnc_value := nanmean corr;
           nnc_top_k := Z.of_nat (length (ds_smiles dataset)) - 1 |}, w').
Proof.
  intros Henc Hcorr. unfold NearestNeighborCorrelation.calculate.
  rewrite (bind_ok _ _ _ _ _ Henc).
  unfold NearestNeighborCorrelation._calculate_metric, lift, bind, ret.
  rewrite Hcorr. by rewrite (encode_many_length _ _ _ _ _ _ _ Henc).
Qed.

End EmbeddingFacts.

(** C9, on a concrete run: three molecules, so [top_k] is 2. *)
Lemma calculate_default_top_k_witness :
  (NearestNeighborCorrelation.calculate
     (fun _ _ _ v _ => Ok v) (fun _ (_ : unit) _ => Ok [F64.one])
     StubModel.nanmean
     {| ds_smiles := ["CCO"; "CCN"; "CCC"]%string; ds_fingerprints := tt;
        ds_properties := []; ds_max_seq_len := 512 |}
     None Stub.echo_start).1
  = Ok {| nnc_name := NearestNeighborCorrelation.name;
          nnc_value := StubModel.nanmean [F64.one];
          nnc_top_k := 2 |}.
Proof.
  set (dataset := {| ds_smiles := ["CCO"; "CCN"; "CCC"]%string;
                     ds_fingerprints := tt; ds_properties := [];
                     ds_max_seq_len := 512 |}).
  set (enc := BaseEmbeddingMetric.encode_many (fun _ _ _ v _ => Ok v)
                dataset None true false Stub.echo_start).
  rewrite (calculate_default_top_k (fun _ _ _ v _ => Ok v)
             (fun _ (_ : unit) _ => Ok [F64.one]) StubModel.nanmean
             dataset Stub.echo_start
             (replicate 3 [F64.zero; F64.zero]) enc.2 [F64.one]).
  - reflexivity.
  - apply pair_fst_eq. vm_compute. reflexivity.
  - reflexivity.
Defined.

(** ** Modelability grid search *)

Lemma if_true {A} (b : bool) (x y : A) :
  b = true -> (if b then x else y) = x.
Proof. by intros ->. Qed.

Section GridSearchFacts.
Context {E P PD : Type} `{!Estimator E P}.
Variable ParameterGrid : PD -> list P.
Variable kfold_split : Z -> nat -> res (list (list nat * list nat)).
Variable mean_squared_error :
  list F64.float -> list F64.float -> res F64.float.
Variable nanmean : list F64.float -> F64.float.
Variable n_splits : Z.
Variable return_predictions : bool.

Abbreviation cross_validate :=
  (Modelability.cross_validate kfold_split mean_squared_error nanmean
     n_splits).
Abbreviation kfold_loop := (Modelability.kfold_loop mean_squared_error).
Abbreviation grid_loop :=
  (Modelability.grid_loop kfold_split mean_squared_error nanmean n_splits
     return_predictions).
Abbreviation gpu_gridsearch_cv :=
  (Modelability.gpu_gridsearch_cv ParameterGrid kfold_split
     mean_squared_error nanmean n_splits return_predictions).

(** The grid loop over a concatenation runs the first part, then the
    second from where the first stopped; an error in the first part ends
    the loop. *)
Lemma grid_loop_app xdata ydata pre rest : forall best e,
  grid_loop xdata ydata (pre ++ rest) best e
  = match grid_loop xdata ydata pre best e with
    | (Ok best1, e1) => grid_loop xdata ydata rest best1 e1
    | (Raise err, e1) => (Raise err, e1)
    end.
Proof.
  induction pre as [|param pre IH]; intros [[score bp] bpred] e;
    [reflexivity|].
  cbn [app Modelability.grid_loop]. unfold bind at 1 3.
  destruct (cross_validate param xdata ydata e) as [[avg|err] e1];
    [|reflexivity].
  destruct (F64.ltb avg score); [|apply IH].
  destruct return_predictions; [|apply IH].
  unfold bind. destruct (predict e1 xdata); [apply IH | reflexivity].
Qed.

Lemma kfold_loop_app xdata ydata fs gs : forall acc e,
  kfold_loop xdata ydata (fs ++ gs) acc e
  = match kfold_loop xdata ydata fs acc e with
    | (Ok acc1, e1) => kfold_loop xdata ydata gs acc1 e1
    | (Raise err, e1) => (Raise err, e1)
    end.
Proof.
  induction fs as [|[train test] fs IH]; intros acc e; [reflexivity|].
  cbn [app Modelability.kfold_loop]. unfold bind, lift.
  destruct (take_rows xdata train); [|reflexivity].
  destruct (take_rows xdata test); [|reflexivity].
  destruct (take_rows ydata train); [|reflexivity].
  destruct (take_rows ydata test); [|reflexivity].
  destruct (fit e _ _); [|reflexivity].
  destruct (predict _ _); [|reflexivity].
  destruct (mean_squared_error _ _); [|reflexivity].
  apply IH.
Qed.

(** A cross-validation that completes leaves the estimator as the fit on
    the training rows of the last fold made it. *)
Lemma cross_validate_last_fit param xdata ydata e1 score e2 folds train test :
  cross_validate param xdata ydata e1 = (Ok score, e2) ->
  kfold_split n_splits (length xdata) = Ok (folds ++ [(train, test)]) ->
  exists e_before xtrain ytrain,
    take_rows xdata train = Ok xtrain
    /\ take_rows ydata train = Ok ytrain
    /\ fit e_before xtrain ytrain = Ok e2.
Proof.
  unfold Modelability.cross_validate. intros Hcv Hsplit.
  unfold bind at 1 in Hcv. destruct (set_params e1 param) as [e1'|]; [|done].
  unfold bind at 1, lift in Hcv. rewrite Hsplit in Hcv.
  unfold bind at 1 in Hcv. rewrite kfold_loop_app in Hcv.
  destruct (kfold_loop xdata ydata folds [] e1') as [[acc|] e_before];
    [|done].
  cbn [Modelability.kfold_loop] in Hcv. unfold bind, lift, ret in Hcv.
  destruct (take_rows xdata train) as [xtrain|]; [|done].
  destruct (take_rows xdata test); [|done].
  destruct (take_rows ydata train) as [ytrain|]; [|done].
  destruct (take_rows ydata test); [|done].
  destruct (fit e_before xtrain ytrain) as [e_fit|] eqn:Hfit; [|done].
  destruct (predict e_fit _); [|done].
  destruct (mean_squared_error _ _); [|done].
  injection Hcv as _ <-. by exists e_before, xtrain, ytrain.
Qed.

(** A cross-validation that completes has set the parameters, has run
    the folds before the last one from there, and ends with the fit on the
    training rows of the last fold. *)
Lemma cross_validate_chain param xdata ydata e1 score e2 :
  cross_validate param xdata ydata e1 = (Ok score, e2) ->
  exists e_set,
    set_params e1 param = Ok e_set
    /\ forall folds train test,
         kfold_split n_splits (length xdata) = Ok (folds ++ [(train, test)]) ->
         exists mses e_before xtrain ytrain,
           kfold_loop xdata ydata folds [] e_set = (Ok mses, e_before)
           /\ take_rows xdata train = Ok xtrain
           /\ take_rows ydata train = Ok ytrain
           /\ fit e_before xtrain ytrain = Ok e2.
Proof.
  unfold Modelability.cross_validate. intros Hcv.
  unfold bind at 1 in Hcv.
  destruct (set_params e1 param) as [e_set|]; [|done].
  exists e_set. split; [done|]. intros folds train test Hsplit.
  unfold bind at 1, lift in Hcv. rewrite Hsplit in Hcv.
  unfold bind at 1 in Hcv. rewrite kfold_loop_app in Hcv.
  destruct (kfold_loop xdata ydata folds [] e_set) as [[mses|] e_before];
    [|done].
  cbn [Modelability.kfold_loop] in Hcv. unfold bind, lift, ret in Hcv.
  destruct (take_rows xdata train) as [xtrain|]; [|done].
  destruct (take_rows xdata test); [|done].
  destruct (take_rows ydata train) as [ytrain|]; [|done].
  destruct (take_rows ydata test); [|done].
  destruct (fit e_before xtrain ytrain) as [e_fit|] eqn:Hfit; [|done].
  destruct (predict e_fit _); [|done].
  destruct (mean_squared_error _ _); [|done].
  injection Hcv as _ <-. by exists mses, e_before, xtrain, ytrain.
Qed.

(** What the grid loop knows of a best triple that names a combination:
    where the combination stands in the grid tried so far, the estimator
    the loop reached it with, and that the score and the predictions are
    those of its cross-validation. *)
Abbreviation winner_known xdata ydata e0 grid best :=
  (match best with
   | (score, Some param, pred) =>
     exists pre post best_pre e_pre e2 pr,
       grid = pre ++ param :: post
       /\ grid_loop xdata ydata pre (F64.inf, None, None) e0
          = (Ok best_pre, e_pre)
       /\ cross_validate param xdata ydata e_pre = (Ok score, e2)
       /\ predict e2 xdata = Ok pr
       /\ pred = Some pr
   | (_, None, _) => True
   end).

Lemma grid_loop_winner xdata ydata e0 rest :
  return_predictions = true ->
  forall tried best e best' e',
    grid_loop xdata ydata tried (F64.inf, None, None) e0 = (Ok best, e) ->
    winner_known xdata ydata e0 tried best ->
    grid_loop xdata ydata rest best e = (Ok best', e') ->
    winner_known xdata ydata e0 (tried ++ rest) best'.
Proof.
  intros Hret.
  induction rest as [|param rest IH];
    intros tried [[score bp] bpred] e best' e' Htried Hinv;
    cbn [Modelability.grid_loop].
  - unfold ret. intros [= <- _]. by rewrite app_nil_r.
  - unfold bind at 1.
    destruct (cross_validate param xdata ydata e) as [[avg|err] e1] eqn:Hcv;
      [|done].
    replace (tried ++ param :: rest) with ((tried ++ [param]) ++ rest)
      by (by rewrite <- app_assoc).
    destruct (F64.ltb avg score) eqn:Hlt.
    + rewrite (if_true _ _ _ Hret). unfold bind at 1.
      destruct (predict e1 xdata) as [pr|] eqn:Hpr; [|done].
      apply IH.
      * rewrite grid_loop_app, Htried. cbn [Modelability.grid_loop].
        unfold bind at 1. rewrite Hcv, Hlt, (if_true _ _ _ Hret).
        unfold bind, ret. by rewrite Hpr.
      * by exists tried, [], (score, bp, bpred), e, e1, pr.
    + apply IH.
      * rewrite grid_loop_app, Htried. cbn [Modelability.grid_loop].
        unfold bind, ret. by rewrite Hcv, Hlt.
      * destruct bp as [p|]; [|done].
        destruct Hinv as (pre & post & bpre & epre & e2 & pr & -> & Hpre
                          & Hcvp & Hpr & ->).
        exists pre, (post ++ [param]), bpre, epre, e2, pr.
        by rewrite <- app_assoc.
Qed.

Abbreviation best_from_cv :=
  (best_from_cv kfold_split mean_squared_error nanmean n_splits).

Lemma grid_loop_best_from_cv xdata ydata grid :
  return_predictions = true ->
  forall best e best' e',
    best_from_cv xdata ydata best ->
    grid_loop xdata ydata grid best e = (Ok best', e') ->
    best_from_cv xdata ydata best'.
Proof.
  intros Hret.
  induction grid as [|param grid IH]; intros [[score bp] bpred] e best' e' Hb;
    cbn [Modelability.grid_loop].
  - unfold ret. by intros [= <- _].
  - unfold bind at 1.
    destruct (cross_validate param xdata ydata e) as [[avg|err] e1] eqn:Hcv;
      [|done].
    destruct (F64.ltb avg score); [|by apply IH].
    rewrite (if_true _ _ _ Hret). unfold bind at 1.
    destruct (predict e1 xdata) as [pr|] eqn:Hpr; [|done].
    apply IH. cbn. by exists e, e1, pr.
Qed.

End GridSearchFacts.

Section GridSearchClaims.
Context {E P PD : Type} `{!Estimator E P}.
Variable ParameterGrid : PD -> list P.
Variable kfold_split : Z -> nat -> res (list (list nat * list nat)).
Variable mean_squared_error :
  list F64.float -> list F64.float -> res F64.float.
Variable nanmean : list F64.float -> F64.float.
Variable n_splits : Z.

(** C4 (amended): when fitting or scoring one hyperparameter combination
    raises an error, the grid search raises that error at once: the
    combination is not skipped and the combinations after it are not
    tried.  The combination fails when [set_params] raises, when the fold
    generator raises, or when, in some fold reached without error, [fit],
    [predict] or [mean_squared_error] raises. *)
Theorem gridsearch_aborts_on_failing_combination
    return_predictions param_dict xdata ydata pre param post
    e0 best e1 err e2 :
  ParameterGrid param_dict = pre ++ param :: post ->
  length xdata = length ydata ->
  Modelability.grid_loop kfold_split mean_squared_error nanmean n_splits
    return_predictions xdata ydata pre (F64.inf, None, None) e0
  = (Ok best, e1) ->
  (set_params e1 param = Raise err /\ e2 = e1)
  \/ (exists e_set,
        set_params e1 param = Ok e_set
        /\ ((kfold_split n_splits (length xdata) = Raise err /\ e2 = e_set)
            \/ exists folds train test later mses e_fold
                      xtrain xtest ytrain ytest,
                 kfold_split n_splits (length xdata)
                 = Ok (folds ++ (train, test) :: later)
                 /\ Modelability.kfold_loop mean_squared_error xdata ydata
                      folds [] e_set = (Ok mses, e_fold)
                 /\ take_rows xdata train = Ok xtrain
                 /\ take_rows xdata test = Ok xtest
                 /\ take_rows ydata train = Ok ytrain
                 /\ take_rows ydata test = Ok ytest
                 /\ ((fit e_fold xtrain ytrain = Raise err /\ e2 = e_fold)
                     \/ (fit e_fold xtrain ytrain = Ok e2
                         /\ (predict e2 xtest = Raise err
                             \/ exists ypred,
                                  predict e2 xtest = Ok ypred
                                  /\ mean_squared_error ypred ytest
                                     = Raise err))))) ->
  Modelability.gpu_gridsearch_cv ParameterGrid kfold_split
    mean_squared_error nanmean n_splits return_predictions
    param_dict xdata ydata e0
  = (Raise err, e2).
Proof.
  intros Hgrid Hlen Hpre Hfail.
  assert (Hcv : Modelability.cross_validate kfold_split mean_squared_error
                  nanmean n_splits param xdata ydata e1 = (Raise err, e2)).
  { unfold Modelability.cross_validate.
    destruct Hfail as [[Hset ->] | (e_set & Hset & Hfold)].
    { unfold bind. by rewrite Hset. }
    unfold bind at 1. rewrite Hset.
    destruct Hfold as [[Hsplit ->] |
      (folds & train & test & later & mses & e_fold & xtrain & xtest
       & ytrain & ytest & Hsplit & Hfolds & Hxtr & Hxte & Hytr & Hyte
       & Hstep)].
    { unfold bind, lift. by rewrite Hsplit. }
    unfold bind at 1, lift at 1. rewrite Hsplit.
    unfold bind at 1. rewrite kfold_loop_app, Hfolds.
    cbn [Modelability.kfold_loop]. unfold bind, lift.
    rewrite Hxtr, Hxte, Hytr, Hyte.
    destruct Hstep as [[Hfit ->] | (Hfit & Hscore)].
    { by rewrite Hfit. }
    rewrite Hfit. destruct Hscore as [Hpred | (ypred & Hpred & Hmse)].
    - by rewrite Hpred.
    - by rewrite Hpred, Hmse. }
  unfold Modelability.gpu_gridsearch_cv.
  rewrite Hlen, Nat.eqb_refl, Hgrid. cbn [negb].
  rewrite grid_loop_app, Hpre. destruct best as [[score bp] bpred].
  cbn [Modelability.grid_loop]. unfold bind at 1. by rewrite Hcv.
Qed.

(** C5 (amended): when prediction retention is enabled, the predictions
    the grid search returns are those of the estimator as the
    cross-validation of the winning combination left it: the search
    reached the winning combination [param] after the combinations [pre]
    before it, set the winning parameters on the estimator, ran the folds,
    and the fit on the training rows of the last fold produced the
    estimator whose predictions on the full data are returned.  The
    estimator is not refitted on the full data. *)
Theorem retained_predictions_from_last_fold_fit
    param_dict xdata ydata e0 score param pred e' :
  Modelability.gpu_gridsearch_cv ParameterGrid kfold_split
    mean_squared_error nanmean n_splits true param_dict xdata ydata e0
  = (Ok (score, Some param, pred), e') ->
  exists pre post best_pre e_pre e_set e2 pr,
    ParameterGrid param_dict = pre ++ param :: post
    /\ Modelability.grid_loop kfold_split mean_squared_error nanmean n_splits
         true xdata ydata pre (F64.inf, None, None) e0
       = (Ok best_pre, e_pre)
    /\ set_params e_pre param = Ok e_set
    /\ Modelability.cross_validate kfold_split mean_squared_error nanmean
         n_splits param xdata ydata e_pre = (Ok score, e2)
    /\ predict e2 xdata = Ok pr
    /\ pred = Some pr
    /\ forall folds train test,
         kfold_split n_splits (length xdata)
         = Ok (folds ++ [(train, test)]) ->
         exists mses e_before xtrain ytrain,
           Modelability.kfold_loop mean_squared_error xdata ydata folds []
             e_set = (Ok mses, e_before)
           /\ take_rows xdata train = Ok xtrain
           /\ take_rows ydata train = Ok ytrain
           /\ fit e_before xtrain ytrain = Ok e2.
Proof.
  unfold Modelability.gpu_gridsearch_cv.
  destruct (negb _); [done|]. intros Hloop.
  apply (grid_loop_winner kfold_split mean_squared_error nanmean n_splits
           true xdata ydata e0 (ParameterGrid param_dict) eq_refl []
           (F64.inf, None, None) e0) in Hloop; [|reflexivity|exact I].
  cbn [app] in Hloop.
  destruct Hloop as (pre & post & best_pre & e_pre & e2 & pr & Hgrid & Hpre
                     & Hcv & Hpr & ->).
  destruct (cross_validate_chain kfold_split mean_squared_error nanmean
              n_splits param xdata ydata e_pre score e2 Hcv)
    as (e_set & Hset & Hchain).
  by exists pre, post, best_pre, e_pre, e_set, e2, pr.
Qed.

End GridSearchClaims.

(** C4, on a concrete run: the first scale of the grid cannot be fitted. *)
Lemma gridsearch_aborts_on_failing_combination_witness :
  (StubModel.gridsearch false [0; 1]).1 = Raise ValueError.
Proof.
  unfold StubModel.gridsearch.
  rewrite (gridsearch_aborts_on_failing_combination (fun g : list Z => g)
             StubModel.kfold_split StubModel.mean_squared_error
             StubModel.nanmean 2 false [0; 1] StubModel.xdata
             StubModel.ydata [] 0 [1] StubModel.fresh
             (F64.inf, None, None) StubModel.fresh ValueError
             {| StubModel.scale := 0; StubModel.fitted_mean := None |}).
  - reflexivity.
  - reflexivity.
  - reflexivity.
  - reflexivity.
  - right.
    exists {| StubModel.scale := 0; StubModel.fitted_mean := None |}.
    split; [reflexivity|]. right.
    exists [], [0%nat], [1%nat], [([1%nat], [0%nat])], [],
      {| StubModel.scale := 0; StubModel.fitted_mean := None |},
      [[F64.of_Z 0]], [[F64.of_Z 1]], [F64.of_Z 1], [F64.of_Z 3].
    repeat (split; [reflexivity|]).
    left. split; reflexivity.
Defined.

(** C4 as stated fails: the grid [0; 1] makes the search raise, although
    the remaining combination alone is searched without error. *)
Lemma gridsearch_skip_counterexample :
  (StubModel.gridsearch false [0; 1]).1 = Raise ValueError
  /\ (StubModel.gridsearch false [1]).1
     = Ok (F64.of_Z 4, Some 1, None).
Proof. split; vm_compute; reflexivity. Qed.

(** C5, on a concrete run: the scale 1 wins, and the retained predictions
    are those of the estimator fitted on row 1, the training row of the
    last fold. *)
Lemma retained_predictions_from_last_fold_fit_witness :
  exists (e_before e2 : StubModel.MeanRegressor) pr,
    fit e_before [[F64.of_Z 1]] [F64.of_Z 3] = Ok e2
    /\ predict e2 StubModel.xdata = Ok pr
    /\ (StubModel.gridsearch true [1; 2]).1
       = Ok (F64.of_Z 4, Some 1, Some pr).
Proof.
  destruct (retained_predictions_from_last_fold_fit (fun g : list Z => g)
              StubModel.kfold_split StubModel.mean_squared_error
              StubModel.nanmean 2 [1; 2] StubModel.xdata StubModel.ydata
              StubModel.fresh (F64.of_Z 4) 1
              (Some [F64.of_Z 3; F64.of_Z 3])
              (StubModel.gridsearch true [1; 2]).2)
    as (pre & post & best_pre & e_pre & e_set & e2 & pr & _ & _ & _ & _
        & Hpr & Hpred & Hlast).
  - apply pair_fst_eq. vm_compute. reflexivity.
  - destruct (Hlast [([0%nat], [1%nat])] [1%nat] [0%nat] eq_refl)
      as (mses & e_before & xtrain & ytrain & _ & Hx & Hy & Hfit).
    injection Hx as <-. injection Hy as <-.
    exists e_before, e2, pr. split; [exact Hfit|]. split; [exact Hpr|].
    rewrite <- Hpred. vm_compute. reflexivity.
Defined.

(** C5 as stated fails: the search over the scales [1; 2] retains the
    predictions [3.0; 3.0] of the model fitted on the training row of the
    last fold, while refitting on the full data with the winning scale
    predicts [2.0; 2.0]. *)
Lemma retained_predictions_counterexample :
  (StubModel.gridsearch true [1; 2]).1
  = Ok (F64.of_Z 4, Some 1, Some [F64.of_Z 3; F64.of_Z 3])
  /\ refit_predictions (StubModel.gridsearch true [1; 2]).2 1
       StubModel.xdata StubModel.ydata
     = Ok [F64.of_Z 2; F64.of_Z 2].
Proof. split; vm_compute; reflexivity. Qed.

(** ** Modelability ratio *)

Lemma div_pos_finite_sign x y :
  F64.is_pos_finite x = true -> F64.is_pos_finite y = true ->
  F64.div x y = F64.zero
  \/ F64.is_pos_finite (F64.div x y) = true
  \/ F64.div x y = F64.inf.
Proof.
  destruct x as [| | |[] mx ex]; try discriminate.
  destruct y as [| | |[] my ey]; try discriminate. intros _ _.
  rewrite div_finite_eq. cbv zeta.
  match goal with
  | |- context [binary_round_aux 53 1024 false ?q ?e ?l] =>
    destruct (round_vs_one q e l) as (mrs & e1 & _ & _ & _ & _ & _ & Hsign);
      [|exact Hsign]
  end.
  apply Z.div_pos; [|lia].
  apply Z.mul_nonneg_nonneg; [lia|]. apply Z.pow_nonneg. lia.
Qed.

Lemma div_gt_one_iff x y :
  F64.valid x = true -> F64.valid y = true ->
  F64.is_pos_finite x = true -> F64.is_pos_finite y = true ->
  F64.ltb F64.one (F64.div x y) = true <-> F64.ltb y x = true.
Proof.
  destruct x as [| | |[] mx ex]; try discriminate.
  destruct y as [| | |[] my ey]; try discriminate. intros Hx Hy _ _.
  by apply div_gt_one_pos_finite.
Qed.

Section RatioClaims.
Context {E P PD S : Type} `{!Estimator E P}.
Variable ParameterGrid : PD -> list P.
Variable kfold_split : Z -> nat -> res (list (list nat * list nat)).
Variable mean_squared_error :
  list F64.float -> list F64.float -> res F64.float.
Variable nanmean : list F64.float -> F64.float.
Variable asarray_float32 : list F64.float -> list F64.float.
Variable fit_transform_data : list vector -> res (list vector).
Variable fit_transform_prop : list F64.float -> res (S * list F64.float).
Variable inverse_transform : S -> list F64.float -> res (list F64.float).
Variable n_splits : Z.
Variable return_predictions : bool.
Variable normalize_inputs : bool.

Abbreviation gpu_gridsearch_cv :=
  (Modelability.gpu_gridsearch_cv ParameterGrid kfold_split
     mean_squared_error nanmean n_splits return_predictions).
Abbreviation calculate_metric :=
  (Modelability._calculate_metric ParameterGrid kfold_split
     mean_squared_error nanmean asarray_float32 fit_transform_data
     fit_transform_prop inverse_transform n_splits return_predictions
     normalize_inputs).

(** C8 (amended): the value [_calculate_metric] reports is the binary64
    quotient of the best fingerprint error by the best embedding error of
    its two grid searches: the embedding error is the best score of the
    search on the embeddings (scaled when inputs are normalized) against
    the property column, the fingerprint error the best score of the
    search that follows, on the fingerprints against the same column.
    When both errors are positive, finite binary64 numbers the quotient is
    never negative and never NaN: it is positive and finite, [+inf] on
    overflow, or [+0] on underflow; and it is greater than 1 exactly when
    the embedding error is the smaller one. *)
Theorem modelability_ratio_of_best_errors
    smiles_properties embeddings fingerprints param_dict est results est' :
  calculate_metric smiles_properties embeddings fingerprints param_dict est
  = (Ok results, est') ->
  (exists prop_name column xdata ydata est1 epred fpred,
      smiles_properties = [(prop_name, column)]
      /\ (if normalize_inputs
          then fit_transform_data embeddings = Ok xdata
          else xdata = embeddings)
      /\ (if normalize_inputs
          then exists scaler,
                 fit_transform_prop (asarray_float32 column)
                 = Ok (scaler, ydata)
          else ydata = asarray_float32 column)
      /\ gpu_gridsearch_cv param_dict xdata ydata est
         = (Ok (embedding_error results, embedding_param results, epred), est1)
      /\ gpu_gridsearch_cv param_dict fingerprints ydata est1
         = (Ok (fingerprint_error results, fingerprint_param results, fpred),
            est'))
  /\ value results
     = F64.div (fingerprint_error results) (embedding_error results)
  /\ (F64.valid (fingerprint_error results) = true ->
      F64.valid (embedding_error results) = true ->
      F64.is_pos_finite (fingerprint_error results) = true ->
      F64.is_pos_finite (embedding_error results) = true ->
      (value results = F64.zero
       \/ F64.is_pos_finite (value results) = true
       \/ value results = F64.inf)
      /\ (F64.ltb F64.one (value results) = true
          <-> F64.ltb (embedding_error results) (fingerprint_error results)
              = true)).
Proof.
  unfold Modelability._calculate_metric.
  destruct smiles_properties as [|[prop_name column] [|]]; try done.
  unfold bind at 1, lift at 1.
  destruct (if normalize_inputs then fit_transform_data embeddings
            else Ok embeddings) as [xdata|] eqn:Hx; [|done].
  unfold bind at 1.
  match goal with
  | |- context [lift ?t] => destruct t as [[norm_prop ydata]|] eqn:Hy
  end; unfold lift at 1; [|done].
  unfold bind at 1.
  destruct (gpu_gridsearch_cv param_dict xdata ydata est)
    as [[[[ee ep] epred]|] est1] eqn:Hemb; [|done].
  unfold bind at 1.
  destruct (gpu_gridsearch_cv param_dict fingerprints ydata est1)
    as [[[[fe fp] fpred]|] est2] eqn:Hfgp; [|done].
  unfold bind, lift, ret.
  destruct (if return_predictions then _ else _) as [preds|]; [|done].
  intros [= <- <-]. cbn [value fingerprint_error embedding_error
                         fingerprint_param embedding_param].
  split.
  { exists prop_name, column, xdata, ydata, est1, epred, fpred.
    split; [done|]. apply and_assoc. split; [|done].
    revert Hx Hy. clear. destruct normalize_inputs; intros Hx Hy.
    - split; [done|].
      destruct (fit_transform_prop (asarray_float32 column))
        as [[scaler y']|]; [|done].
      injection Hy as _ <-. by exists scaler.
    - injection Hx as <-. injection Hy as _ <-. done. }
  split; [reflexivity|].
  intros Hvf Hve Hpf Hpe. split.
  - by apply div_pos_finite_sign.
  - by apply div_gt_one_iff.
Qed.

End RatioClaims.

(** C8, on a concrete run: errors 2^-1074 and 4.0. *)
Lemma modelability_ratio_of_best_errors_witness :
  exists results,
    StubRatio.run.1 = Ok results
    /\ value results = F64.div StubRatio.least StubRatio.four
    /\ (F64.ltb F64.one (value results) = true
        <-> F64.ltb StubRatio.four StubRatio.least = true).
Proof.
  set (results := {| value := F64.zero;
                     fingerprint_error := StubRatio.least;
                     embedding_error := StubRatio.four;
                     fingerprint_param := Some tt;
                     embedding_param := Some tt;
                     fingerprint_pred := None;
                     embedding_pred := None |}).
  assert (Hrun : StubRatio.run = (Ok results, StubRatio.run.2))
    by (apply pair_fst_eq; vm_compute; reflexivity).
  destruct (modelability_ratio_of_best_errors _ _ _ _ _ _ _ _ _ _ _ _ _ _ _
              _ _ _ Hrun) as (_ & Hvalue & Hpos).
  exists results. split; [by rewrite Hrun|]. split; [exact Hvalue|].
  apply Hpos; reflexivity.
Defined.

(** C8 as stated fails: with the best errors 2^-1074 and 4.0, both
    positive and finite, the reported ratio is [+0], which is not strictly
    positive. *)
Lemma modelability_ratio_underflow_counterexample :
  exists results,
    StubRatio.run.1 = Ok results
    /\ F64.is_pos_finite (fingerprint_error results) = true
    /\ F64.valid (fingerprint_error results) = true
    /\ F64.is_pos_finite (embedding_error results) = true
    /\ F64.valid (embedding_error results) = true
    /\ value results = F64.zero
    /\ F64.ltb F64.zero (value results) = false.
Proof. eexists. split; [vm_compute; reflexivity|]. repeat split. Qed.

(** * Further properties of the metric engines *)

(** ** Per-molecule counts *)

Lemma valid_count_acc {A} (f : A -> bool) l acc :
  fold_left (fun ctr x => if f x then ctr + 1 else ctr) l acc
  = acc + Z.of_nat (length (filter f l)).
Proof.
  revert acc. induction l as [|x l IH]; intros acc; cbn [fold_left].
  - cbn. lia.
  - rewrite IH, filter_cons.
    destruct (decide (f x)) as [Hx|Hx]; destruct (f x); cbn [length]; try done; lia.
Qed.

Lemma length_tl_slice {A} (l : list A) :
  length (slice_from_1 l) = (length l - 1)%nat.
Proof. destruct l; cbn; lia. Qed.

Lemma size_list_to_set_le (l : list string) :
  (size (list_to_set l : gset string) <= length l)%nat.
Proof.
  induction l as [|x l IH]; cbn [length].
  - by rewrite list_to_set_nil, size_empty.
  - rewrite list_to_set_cons, size_union_alt, size_singleton.
    assert (size (list_to_set l ∖ {[x]} : gset string)
            <= size (list_to_set l : gset string))%nat
      by (apply subseteq_size; intros y [Hy _]%elem_of_difference; exact Hy).
    lia.
Qed.

Lemma size_list_to_set_NoDup (l : list string) :
  size (list_to_set l : gset string) = length l <-> NoDup l.
Proof.
  split; [|apply size_list_to_set].
  induction l as [|x l IH]; [constructor|].
  rewrite list_to_set_cons. cbn [length]. intros Hsz.
  pose proof (size_list_to_set_le l) as Hle.
  destruct (decide (x ∈ l)) as [Hin|Hnin].
  - exfalso.
    assert (({[x]} ∪ list_to_set l : gset string) = list_to_set l) as Heq
      by (apply set_eq; intros y; rewrite elem_of_union, elem_of_singleton,
            elem_of_list_to_set; split; [intros [->|Hy]; done | by right]).
    rewrite Heq in Hsz. lia.
  - rewrite size_union, size_singleton in Hsz
      by (rewrite disjoint_singleton_l, elem_of_list_to_set; done).
    constructor; [done|]. apply IH. lia.
Qed.

Lemma size_list_to_set_remove_dups (l : list string) :
  size (list_to_set l : gset string) = length (remove_dups l).
Proof.
  rewrite <- (size_list_to_set (C := gset string) (remove_dups l))
    by apply NoDup_remove_dups.
  f_equal. apply set_eq. intros x.
  by rewrite !elem_of_list_to_set, elem_of_remove_dups.
Qed.

Section SampleCounts.
Context {C I : Type} `{!ResultCache C} `{!Inferrer I}.
Implicit Types (w : world C I).

(** X1.  [Validity.sample] answers the number of candidates after the first
    list element that RDKit parses; the first element is never looked at,
    so the count lies between 0 and the list length minus 1. *)
Theorem validity_sample_counts_parsable_tail MolFromSmiles smiles n r w g w' :
  BaseSampleMetric._find_similars_smiles smiles n r false false w = (Ok g, w') ->
  exists c,
    Validity.sample MolFromSmiles smiles n r w = (Ok c, w')
    /\ c = Z.of_nat (length (filter MolFromSmiles (slice_from_1 g)))
    /\ 0 <= c <= Z.of_nat (length g - 1).
Proof.
  intros Hfind. eexists. split; [|split; [reflexivity|]].
  - unfold Validity.sample. rewrite (bind_ok _ _ _ _ _ Hfind).
    unfold ret. by rewrite valid_count_acc, Z.add_0_l.
  - pose proof (length_filter MolFromSmiles (slice_from_1 g)) as Hle.
    rewrite length_tl_slice in Hle. lia.
Qed.

(** X2.  [Unique.sample] answers the number of distinct strings after the
    first list element, that is, the length of that part of the list with
    the repetitions removed: at most the list length minus 1, with
    equality exactly when the candidates are pairwise different, and 0
    exactly when there is no candidate. *)
Theorem unique_sample_counts_distinct_tail smiles n r w g w' :
  BaseSampleMetric._find_similars_smiles smiles n r false false w = (Ok g, w') ->
  exists c,
    Unique.sample smiles n r w = (Ok c, w')
    /\ c = Z.of_nat (length (remove_dups (slice_from_1 g)))
    /\ 0 <= c <= Z.of_nat (length g - 1)
    /\ (c = Z.of_nat (length g - 1) <-> NoDup (slice_from_1 g))
    /\ (c = 0 <-> slice_from_1 g = []).
Proof.
  intros Hfind. eexists. split; [|split; [|split; [|split]]].
  - unfold Unique.sample. rewrite (bind_ok _ _ _ _ _ Hfind). reflexivity.
  - by rewrite size_list_to_set_remove_dups.
  - pose proof (size_list_to_set_le (slice_from_1 g)) as Hle.
    rewrite length_tl_slice in Hle. lia.
  - rewrite <- length_tl_slice, <- size_list_to_set_NoDup. lia.
  - split.
    + intros Hz. assert (Hs : size (list_to_set (slice_from_1 g) : gset string) = 0%nat) by lia.
      apply size_empty_iff in Hs.
      destruct (slice_from_1 g) as [|x l]; [done|].
      assert (Hx : x ∈ (∅ : gset string))
        by (apply Hs; rewrite elem_of_list_to_set; left).
      by apply elem_of_empty in Hx.
    + intros ->. by rewrite list_to_set_nil, size_empty.
Qed.

(** X3.  [Novelty.sample] answers the number of training-set members in the
    whole list, the first element included: between 0 and the list
    length. *)
Theorem novelty_sample_counts_whole_list is_known smiles n r w g w' :
  BaseSampleMetric._find_similars_smiles smiles n r false false w = (Ok g, w') ->
  exists c,
    Novelty.sample is_known smiles n r w = (Ok c, w')
    /\ c = Z.of_nat (length (filter is_known g))
    /\ 0 <= c <= Z.of_nat (length g).
Proof.
  intros Hfind. eexists. split; [|split; [reflexivity|]].
  - unfold Novelty.sample. rewrite (bind_ok _ _ _ _ _ Hfind).
    unfold ret, Novelty.smiles_in_train. by rewrite sum_bools_filter.
  - pose proof (length_filter is_known g). lia.
Qed.

End SampleCounts.

(** X1 on the stubbed client: of the three candidates after "CCO", two
    parse. *)
Lemma validity_sample_counts_parsable_tail_witness :
  exists c,
    (Validity.sample (fun s => negb (String.eqb s "invalid_string"))
       "CCO"%string 3 Stub.radius_0_1 (Stub.start Stub.cco_samples)).1 = Ok c
    /\ c = 2 /\ 0 <= c <= 3.
Proof.
  destruct (validity_sample_counts_parsable_tail
              (fun s => negb (String.eqb s "invalid_string"))
              "CCO"%string 3 Stub.radius_0_1 (Stub.start Stub.cco_samples)
              Stub.cco_samples
              (BaseSampleMetric._find_similars_smiles "CCO"%string 3
                 Stub.radius_0_1 false false
                 (Stub.start Stub.cco_samples)).2)
    as (c & Hs & Hc & Hb).
  - apply pair_fst_eq. vm_compute. reflexivity.
  - exists c. rewrite Hs. split; [reflexivity|]. split; [exact Hc | exact Hb].
Defined.

(** X2 on the stubbed client: the three candidates after "CCO" are pairwise
    different. *)
Lemma unique_sample_counts_distinct_tail_witness :
  exists c,
    (Unique.sample "CCO"%string 3 Stub.radius_0_1
       (Stub.start Stub.cco_samples)).1 = Ok c
    /\ c = 3 /\ 0 <= c <= 3.
Proof.
  destruct (unique_sample_counts_distinct_tail
              "CCO"%string 3 Stub.radius_0_1 (Stub.start Stub.cco_samples)
              Stub.cco_samples
              (BaseSampleMetric._find_similars_smiles "CCO"%string 3
                 Stub.radius_0_1 false false
                 (Stub.start Stub.cco_samples)).2)
    as (c & Hs & Hc & Hb & _).
  - apply pair_fst_eq. vm_compute. reflexivity.
  - exists c. rewrite Hs. split; [reflexivity|]. split; [exact Hc | exact Hb].
Defined.

(** X3 on the stubbed client: both occurrences of "CCO" are counted. *)
Lemma novelty_sample_counts_whole_list_witness :
  exists c,
    (Novelty.sample Stub.only_cco "CCO"%string 3 Stub.radius_0_1
       (Stub.start Stub.cco_samples)).1 = Ok c
    /\ c = 2 /\ 0 <= c <= 4.
Proof.
  destruct (novelty_sample_counts_whole_list Stub.only_cco
              "CCO"%string 3 Stub.radius_0_1 (Stub.start Stub.cco_samples)
              Stub.cco_samples
              (BaseSampleMetric._find_similars_smiles "CCO"%string 3
                 Stub.radius_0_1 false false
                 (Stub.start Stub.cco_samples)).2)
    as (c & Hs & Hc & Hb).
  - apply pair_fst_eq. vm_compute. reflexivity.
  - exists c. rewrite Hs. split; [reflexivity|]. split; [exact Hc | exact Hb].
Defined.

(** ** Reuse of cached samples *)

Section SampleReuse.
Context {C I : Type} `{!ResultCache C} `{!Inferrer I}.
Implicit Types (w : world C I) (q : request).

(** A non-empty answer of [_find_similars_smiles] is what a fetch of its
    fingerprint answers in the world it leaves. *)
Lemma find_similars_stored smiles n r u z w g gs w' :
  BaseSampleMetric._find_similars_smiles smiles n r u z w = (Ok (g :: gs), w') ->
  fetch_sampling_data (sample_cache w') (class_name I, smiles, n, r, u, z)
  = Some (g :: gs).
Proof.
  unfold BaseSampleMetric._find_similars_smiles.
  destruct (fetch_sampling_data (sample_cache w) _) as [[|g0 gs0]|] eqn:Hf.
  2: { intros [= <- <- <-]. exact Hf. }
  all: destruct (find_similars_smiles _ _ _ _ _ _) as [[frame|err] i'];
    [|discriminate]; intros [= Hg <-]; cbn;
    by rewrite fetch_insert_sampling, Hg.
Qed.

Lemma find_similars_fetched smiles n r u z w g gs :
  fetch_sampling_data (sample_cache w) (class_name I, smiles, n, r, u, z)
  = Some (g :: gs) ->
  BaseSampleMetric._find_similars_smiles smiles n r u z w = (Ok (g :: gs), w).
Proof.
  intros Hf. unfold BaseSampleMetric._find_similars_smiles. by rewrite Hf.
Qed.

(** X4.  Round trip through the cache: once [_find_similars_smiles] has
    answered a non-empty list, the same request answers the same list
    again and changes nothing (the client is not called a second time). *)
Theorem find_similars_smiles_repeat smiles n r u z w g gs w' :
  BaseSampleMetric._find_similars_smiles smiles n r u z w = (Ok (g :: gs), w') ->
  BaseSampleMetric._find_similars_smiles smiles n r u z w' = (Ok (g :: gs), w').
Proof.
  intros Hfind. by apply find_similars_fetched, (find_similars_stored _ _ _ _ _ w).
Qed.

(** A usable entry survives any later request: a request for another
    fingerprint inserts elsewhere, and a request for the same fingerprint
    is answered from the entry. *)
Lemma serve_keeps_usable q q' w e :
  fetch_entry q (sample_cache w) = Some e -> usable e = true ->
  fetch_entry q (sample_cache (serve q' w)) = Some e.
Proof.
  intros Hq He.
  destruct (fetch_usable q' w) eqn:Hu; [by rewrite serve_usable|].
  revert Hq Hu. unfold fetch_usable, fetch_entry, serve.
  destruct q as [s n r u z | s m], q' as [s' n' r' u' z' | s' m'].
  - unfold BaseSampleMetric._find_similars_smiles.
    destruct (decide ((class_name I, s', n', r', u', z')
                      = (class_name I, s, n, r, u, z))) as [->|Hne].
    + intros ->. cbn. intros Hu. congruence.
    + intros Hq Hu.
      destruct (fetch_sampling_data (sample_cache w) (_, s', _, _, _, _))
        as [[|g gs]|]; cbn in Hu |- *; try discriminate;
        destruct (find_similars_smiles _ _ _ _ _ _) as [[frame|err] i'];
        cbn; try done; by rewrite fetch_insert_sampling_ne.
  - unfold BaseEmbeddingMetric._find_embedding. intros Hq Hu.
    destruct (fetch_embedding_data (sample_cache w) s') as [[v d]|];
      cbn in Hu |- *; [destruct (length d =? 1)%nat; [|discriminate]|];
      destruct (smiles_to_embedding _ _ _) as [[emb|err] i'];
      cbn; try done; by rewrite fetch_sampling_insert_embedding.
  - unfold BaseSampleMetric._find_similars_smiles. intros Hq Hu.
    destruct (fetch_sampling_data (sample_cache w) _) as [[|g gs]|];
      cbn in Hu |- *; try discriminate;
      destruct (find_similars_smiles _ _ _ _ _ _) as [[frame|err] i'];
      cbn; try done; by rewrite fetch_embedding_insert_sampling.
  - unfold BaseEmbeddingMetric._find_embedding.
    destruct (decide (s' = s)) as [->|Hne].
    + intros ->. cbn. intros Hu. congruence.
    + intros Hq Hu.
      destruct (fetch_embedding_data (sample_cache w) s') as [[v d]|];
        cbn in Hu |- *; [destruct (length d =? 1)%nat; [|discriminate]|];
        destruct (smiles_to_embedding _ _ _) as [[emb|err] i'];
        cbn; try done; by rewrite fetch_insert_embedding_ne.
Qed.

(** X5.  Cache entries are write-once as soon as they are usable: a stored
    non-empty sample list, or a stored embedding whose [dim] has a length
    other than 1, is still what a fetch answers after any sequence of
    further sampling and embedding requests. *)
Theorem usable_entry_is_never_overwritten q qs w e :
  fetch_entry q (sample_cache w) = Some e -> usable e = true ->
  fetch_entry q (sample_cache (serve_all qs w)) = Some e.
Proof.
  intros Hq He. revert w Hq. unfold serve_all.
  induction qs as [|q' qs IH]; intros w Hq; cbn [fold_left]; [done|].
  by apply IH, serve_keeps_usable.
Qed.

End SampleReuse.

(** X4 on the stubbed client. *)
Lemma find_similars_smiles_repeat_witness :
  let w' := serve (SampleRequest "CCO" 3 Stub.radius_0_1 false false)
              (Stub.start Stub.cco_samples) in
  BaseSampleMetric._find_similars_smiles "CCO"%string 3 Stub.radius_0_1
    false false w'
  = (Ok Stub.cco_samples, w').
Proof.
  cbv zeta.
  apply (find_similars_smiles_repeat "CCO"%string 3 Stub.radius_0_1
           false false (Stub.start Stub.cco_samples)).
  apply pair_fst_eq. vm_compute. reflexivity.
Defined.

(** X5 on the echo client: the samples stored for "CCO" survive requests
    for other molecules and a repeated request. *)
Lemma usable_entry_is_never_overwritten_witness :
  fetch_entry (SampleRequest "CCO" 3 Stub.radius_0_1 false false)
    (sample_cache
       (serve_all [EmbedRequest "CCO" None;
                   SampleRequest "CCN" 3 Stub.radius_0_1 false false;
                   SampleRequest "CCO" 3 Stub.radius_0_1 false false]
          (serve (SampleRequest "CCO" 3 Stub.radius_0_1 false false)
             Stub.echo_start)))
  = Some (SampleEntry ["CCO"; "CCC"]%string).
Proof.
  apply usable_entry_is_never_overwritten.
  - vm_compute. reflexivity.
  - reflexivity.
Defined.

(** ** One sampling pass serves every metric *)

Section SamplePass.
Context {C I : Type} `{!ResultCache C} `{!Inferrer I}.
Implicit Types (w : world C I) (q : request).

(** The three [sample] methods: fetch or generate, then reduce the list. *)
Abbreviation counting f :=
  (fun smiles num_samples radius =>
     bind (BaseSampleMetric._find_similars_smiles (C := C) (I := I)
             smiles num_samples radius false false)
          (fun generated_smiles => ret (f generated_smiles))).

Lemma counting_inv (f : list string -> Z) s n r w c w1 :
  counting f s n r w = (Ok c, w1) ->
  exists g,
    BaseSampleMetric._find_similars_smiles s n r false false w = (Ok g, w1)
    /\ c = f g.
Proof.
  unfold bind, ret.
  destruct (BaseSampleMetric._find_similars_smiles _ _ _ _ _ _)
    as [[g|e] w2]; [|discriminate].
  intros [= <- <-]. by exists g.
Qed.

(** A reliable client never leaves an empty list behind. *)
Lemma reliable_find_nonempty s n r u z w g w1 :
  reliable_client (I := I) ->
  BaseSampleMetric._find_similars_smiles s n r u z w = (Ok g, w1) ->
  g <> [].
Proof.
  intros Hrel. unfold BaseSampleMetric._find_similars_smiles.
  destruct (Hrel (SampleRequest s n r u z) (inferrer w)) as (e & Hans & Hus).
  cbn in Hans.
  destruct (fetch_sampling_data _ _) as [[|g0 gs0]|].
  2: { by intros [= <- <-]. }
  all: destruct (find_similars_smiles _ _ _ _ _ _) as [[frame|err] i'];
    cbn in Hans; [|discriminate]; intros [= <- <-];
    injection Hans as <-; by destruct (SMILES frame).
Qed.

Lemma sample_run_keeps_usable (f : list string -> Z) n r ds w cs w' q e :
  sample_run (counting f) n r ds w cs w' ->
  fetch_entry q (sample_cache w) = Some e -> usable e = true ->
  fetch_entry q (sample_cache w') = Some e.
Proof.
  intros Hrun. induction Hrun as [w | s ds w c w1 cs w' Hs _ IH]; [done|].
  intros Hq He. apply IH; [|done].
  destruct (counting_inv _ _ _ _ _ _ _ Hs) as (g & Hfind & _).
  replace w1 with (serve (SampleRequest s n r false false) w)
    by (cbn; by rewrite Hfind).
  by apply serve_keeps_usable.
Qed.

(** A second pass over the dataset, by any of the reductions, in any world
    that still holds the usable entries of the first. *)
Lemma sample_run_again (f1 f2 : list string -> Z) n r ds w cs w' :
  reliable_client (I := I) ->
  sample_run (counting f1) n r ds w cs w' ->
  forall w2,
    (forall q e, fetch_entry q (sample_cache w') = Some e ->
                 usable e = true ->
                 fetch_entry q (sample_cache w2) = Some e) ->
    exists gs,
      cs = map f1 gs
      /\ sample_run (counting f2) n r ds w2 (map f2 gs) w2.
Proof.
  intros Hrel Hrun.
  induction Hrun as [w | s ds w c w1 cs w' Hs Hrest IH]; intros w2 Hkeep.
  - exists []. split; [done|constructor].
  - destruct (counting_inv _ _ _ _ _ _ _ Hs) as (g & Hfind & ->).
    pose proof (reliable_find_nonempty _ _ _ _ _ _ _ _ Hrel Hfind) as Hne.
    destruct g as [|x xs]; [done|].
    destruct (IH w2 Hkeep) as (gs & -> & Hrun2).
    exists ((x :: xs) :: gs). split; [done|].
    cbn [map]. econstructor; [|exact Hrun2].
    apply find_similars_stored in Hfind.
    assert (Hq : fetch_entry (SampleRequest s n r false false)
                   (sample_cache w2) = Some (SampleEntry (x :: xs))).
    { apply Hkeep; [|done].
      apply (sample_run_keeps_usable f1 n r ds w1 (map f1 gs) w');
        [done| |done].
      cbn. by rewrite Hfind. }
    cbn in Hq. apply fmap_Some in Hq as (g' & Hf & [= <-]).
    by rewrite (bind_ok _ _ _ _ _ (find_similars_fetched _ _ _ _ _ _ _ _ Hf)).
Qed.

Lemma calculate_inv name sample ds r n w series w' :
  BaseSampleMetric.calculate (C := C) (I := I) name sample ds r n w
  = (Ok series, w') ->
  exists cs v,
    BaseSampleMetric.sample_many sample ds n r w = (Ok cs, w')
    /\ BaseSampleMetric._calculate_metric cs n = Ok v
    /\ series = {| series_name := name; series_value := v;
                   series_radius := r; series_num_samples := n |}.
Proof.
  unfold BaseSampleMetric.calculate, bind, lift, ret.
  destruct (BaseSampleMetric.sample_many _ _ _ _ _) as [[cs|e] w1];
    [|discriminate].
  destruct (BaseSampleMetric._calculate_metric cs n) as [v|e] eqn:Hv;
    [|discriminate].
  intros [= <- <-]. by exists cs, v.
Qed.

Lemma calculate_metric_same_length cs cs' n v :
  BaseSampleMetric._calculate_metric cs n = Ok v -> length cs' = length cs ->
  exists v', BaseSampleMetric._calculate_metric cs' n = Ok v'.
Proof.
  unfold BaseSampleMetric._calculate_metric. intros Hv ->.
  destruct (F64.py_float _); [eauto | discriminate].
Qed.

Lemma calculate_again (f1 f2 : list string -> Z) name1 name2 ds r n w s1 w1 :
  reliable_client (I := I) ->
  BaseSampleMetric.calculate name1 (counting f1) ds r n w = (Ok s1, w1) ->
  exists gs v1 v2,
    s1 = {| series_name := name1; series_value := v1;
            series_radius := r; series_num_samples := n |}
    /\ BaseSampleMetric._calculate_metric (map f1 gs) n = Ok v1
    /\ BaseSampleMetric._calculate_metric (map f2 gs) n = Ok v2
    /\ BaseSampleMetric.calculate name2 (counting f2) ds r n w1
       = (Ok {| series_name := name2; series_value := v2;
                series_radius := r; series_num_samples := n |}, w1).
Proof.
  intros Hrel (cs & v1 & Hmany & Hv1 & ->)%calculate_inv.
  apply sample_many_run_inv in Hmany.
  destruct (sample_run_again f1 f2 n r ds w cs w1 Hrel Hmany w1
              ltac:(done)) as (gs & -> & Hrun2).
  destruct (calculate_metric_same_length (map f1 gs) (map f2 gs) n v1 Hv1)
    as (v2 & Hv2); [by rewrite !length_map|].
  exists gs, v1, v2. repeat split; try done.
  unfold BaseSampleMetric.calculate.
  rewrite (bind_ok _ _ _ _ _ (sample_many_run _ _ _ _ _ _ _ Hrun2)).
  unfold bind, lift, ret. by rewrite Hv2.
Qed.

(** X6.  With a client whose answers are never empty, a [Validity.calculate]
    that answered leaves every sample of the dataset in the cache: a second
    [Validity.calculate] answers the same series, and [Unique.calculate]
    and [Novelty.calculate] over the same dataset, radius and sample count
    answer too, all three without calling the client or changing the
    cache. *)
Theorem one_sampling_pass_serves_all_metrics
    MolFromSmiles is_known_smiles ds r n w s1 w1 :
  reliable_client (I := I) ->
  Validity.calculate MolFromSmiles ds r n w = (Ok s1, w1) ->
  Validity.calculate MolFromSmiles ds r n w1 = (Ok s1, w1)
  /\ (exists s2, Unique.calculate ds r n w1 = (Ok s2, w1))
  /\ (exists s3, Novelty.calculate is_known_smiles ds r n w1 = (Ok s3, w1)).
Proof.
  intros Hrel Hcalc. unfold Validity.calculate, Unique.calculate,
    Novelty.calculate in *.
  split; [|split].
  - destruct (calculate_again _
                (fun g => fold_left
                   (fun valid_ctr new_smiles =>
                      if MolFromSmiles new_smiles then valid_ctr + 1
                      else valid_ctr) (slice_from_1 g) 0)
                Validity.name Validity.name ds r n w s1 w1 Hrel Hcalc)
      as (gs & v1 & v2 & -> & Hv1 & Hv2 & Hagain).
    rewrite Hv1 in Hv2. injection Hv2 as <-. exact Hagain.
  - destruct (calculate_again _
                (fun g => Z.of_nat (size (list_to_set (slice_from_1 g)
                                          : gset string)))
                Validity.name Unique.name ds r n w s1 w1 Hrel Hcalc)
      as (gs & v1 & v2 & _ & _ & _ & Hagain).
    eexists. exact Hagain.
  - destruct (calculate_again _
                (fun g => sum_bools
                            (map (Novelty.smiles_in_train is_known_smiles) g))
                Validity.name Novelty.name ds r n w s1 w1 Hrel Hcalc)
      as (gs & v1 & v2 & _ & _ & _ & Hagain).
    eexists. exact Hagain.
Qed.

End SamplePass.

(** X6 on the echo client, two molecules. *)
Lemma one_sampling_pass_serves_all_metrics_witness :
  let w1 := (Validity.calculate (fun _ => true) ["CCO"; "CCN"]%string
               Stub.radius_0_1 1 Stub.echo_start).2 in
  calls w1
  = [FindSimilars ("EchoClient", "CCO", 1, Stub.radius_0_1, false, false);
     FindSimilars ("EchoClient", "CCN", 1, Stub.radius_0_1, false, false)]%string
  /\ (exists s2, Unique.calculate ["CCO"; "CCN"]%string Stub.radius_0_1 1 w1
                 = (Ok s2, w1))
  /\ (exists s3, Novelty.calculate Stub.only_cco ["CCO"; "CCN"]%string
                   Stub.radius_0_1 1 w1
                 = (Ok s3, w1)).
Proof.
  cbv zeta. split; [vm_compute; reflexivity|].
  eapply (one_sampling_pass_serves_all_metrics (fun _ => true) Stub.only_cco
            ["CCO"; "CCN"]%string Stub.radius_0_1 1 Stub.echo_start).
  - exact echo_client_reliable.
  - apply pair_fst_eq. vm_compute. reflexivity.
Defined.

(** ** Failures and the empty dataset *)

Section SampleFailures.
Context {C I : Type} `{!ResultCache C} `{!Inferrer I}.
Implicit Types (w : world C I) (sample : string -> Z -> F64.float -> M (world C I) Z).

(** The index loop over a segment [ds] of the dataset, with indices left
    to visit afterwards. *)
Lemma sample_many_loop_segment sample n r pre ds post rest acc w counts w' :
  sample_run sample n r ds w counts w' ->
  BaseSampleMetric.sample_many_loop sample (pre ++ ds ++ post) n r
    (seq (length pre) (length ds) ++ rest) acc w
  = BaseSampleMetric.sample_many_loop sample (pre ++ ds ++ post) n r
      rest (acc ++ counts) w'.
Proof.
  intros Hrun. revert pre acc.
  induction Hrun as [w | s ds w c w1 cs w' Hs _ IH]; intros pre acc.
  - cbn. by rewrite app_nil_r.
  - cbn [length seq app BaseSampleMetric.sample_many_loop].
    rewrite lookup_app_r by lia. rewrite Nat.sub_diag. cbn [lookup list_lookup].
    rewrite (bind_ok _ _ _ _ _ Hs).
    specialize (IH (pre ++ [s]) (acc ++ [c])).
    rewrite length_app in IH. cbn [length] in IH.
    rewrite Nat.add_1_r, <- !app_assoc in IH. exact IH.
Qed.

(** An error of the index loop is an error of [sample] on some molecule,
    after a run over the molecules before it. *)
Lemma sample_many_loop_raise_inv sample n r ds : forall pre acc w e w2,
  BaseSampleMetric.sample_many_loop sample (pre ++ ds) n r
    (seq (length pre) (length ds)) acc w = (Raise e, w2) ->
  exists before s after counts w1,
    ds = before ++ s :: after
    /\ sample_run sample n r before w counts w1
    /\ sample s n r w1 = (Raise e, w2).
Proof.
  induction ds as [|s ds IH]; intros pre acc w e w2; [done|].
  cbn [length seq BaseSampleMetric.sample_many_loop].
  rewrite lookup_app_r by lia. rewrite Nat.sub_diag. cbn [lookup list_lookup].
  unfold bind at 1. destruct (sample s n r w) as [[c|e0] w1] eqn:Hs.
  - intros Hloop. specialize (IH (pre ++ [s]) (acc ++ [c]) w1 e w2).
    rewrite length_app in IH. cbn [length] in IH.
    rewrite Nat.add_1_r, <- !app_assoc in IH.
    destruct (IH Hloop) as (before & s' & after & counts & w1' & -> & Hrun & Hs').
    exists (s :: before), s', after, (c :: counts), w1'.
    split; [done|]. split; [by econstructor | done].
  - intros [= <- <-]. exists [], s, ds, [], w.
    split; [done|]. split; [constructor | done].
Qed.

(** X7.  [sample_many] raises exactly when [sample] raises on some
    molecule after answering on all the molecules before it: it then
    raises that error, in the world of the failure, and so does
    [calculate]; the molecules after the failing one are never sampled,
    and [sample_many] raises no error of its own. *)
Theorem sample_many_stops_at_first_failure name sample n r ds w e w2 :
  (BaseSampleMetric.sample_many sample ds n r w = (Raise e, w2)
   <-> exists before s after counts w1,
         ds = before ++ s :: after
         /\ sample_run sample n r before w counts w1
         /\ sample s n r w1 = (Raise e, w2))
  /\ (BaseSampleMetric.sample_many sample ds n r w = (Raise e, w2) ->
      BaseSampleMetric.calculate name sample ds r n w = (Raise e, w2)).
Proof.
  split; [split|].
  - apply (sample_many_loop_raise_inv sample n r ds [] []).
  - intros (before & s & after & counts & w1 & -> & Hrun & Hs).
    unfold BaseSampleMetric.sample_many.
    rewrite length_app, seq_app. cbn [length seq].
    rewrite (sample_many_loop_segment sample n r [] before (s :: after) _ []
               w counts w1 Hrun).
    cbn [app BaseSampleMetric.sample_many_loop length].
    rewrite lookup_app_r by lia. rewrite Nat.sub_diag. cbn [lookup list_lookup].
    unfold bind. by rewrite Hs.
  - intros Hmany. unfold BaseSampleMetric.calculate, bind. by rewrite Hmany.
Qed.

Lemma np_nansum_nonneg l : Forall (fun c => 0 <= c) l -> 0 <= np_nansum l.
Proof.
  unfold np_nansum. induction 1 as [|c l Hc _ IH]; cbn [fold_right]; lia.
Qed.

(** X8.  When no count is negative and [num_samples] is not negative, the
    value that [calculate] reports is NaN exactly when nothing was counted
    and the denominator is zero, that is, when the dataset is empty or
    [num_samples] is 0; in particular [calculate] on an empty dataset
    raises nothing and reports NaN. *)
Theorem calculate_reports_nan_iff name sample ds r n w counts w' series :
  sample_run sample n r ds w counts w' ->
  Forall (fun c => 0 <= c) counts -> 0 <= n ->
  BaseSampleMetric.calculate name sample ds r n w = (Ok series, w') ->
  series_value series = F64.nan
  <-> np_nansum counts = 0 /\ (ds = [] \/ n = 0).
Proof.
  intros Hrun Hcounts Hn.
  pose proof (sample_run_length _ _ _ _ _ _ _ Hrun) as Hlen.
  pose proof (np_nansum_nonneg counts Hcounts) as Hsum.
  unfold BaseSampleMetric.calculate.
  rewrite (bind_ok _ _ _ _ _ (sample_many_run _ _ _ _ _ _ _ Hrun)).
  unfold bind, lift, ret, BaseSampleMetric._calculate_metric.
  rewrite Hlen.
  destruct (F64.py_float (Z.of_nat (length ds) * n)) as [d|err] eqn:Hd;
    [|discriminate].
  intros [= <-]. cbn [series_value].
  pose proof (py_float_ok _ _ Hd) as ->.
  assert (Hden : Z.of_nat (length ds) * n = 0 <-> ds = [] \/ n = 0).
  { destruct ds; cbn [length]; [by split; [left|]|].
    split; [right; lia | intros [|]; [done | lia]]. }
  rewrite <- Hden.
  destruct (Z.eq_dec (Z.of_nat (length ds) * n) 0) as [Hz|Hnz].
  - rewrite Hz. destruct (Z.eq_dec (np_nansum counts) 0) as [->|Hs].
    + by split.
    + split; [|lia]. intros Hnan.
      destruct (of_Z_pos (np_nansum counts) ltac:(lia)) as [Hp|Hi].
      * destruct (F64.of_Z (np_nansum counts)) as [| | |[] m e];
          discriminate.
      * rewrite Hi in Hnan. discriminate.
  - split; [|lia]. intros Hnan. exfalso.
    assert (Hdpos : F64.is_pos_finite (F64.of_Z (Z.of_nat (length ds) * n))
                    = true).
    { destruct (of_Z_pos (Z.of_nat (length ds) * n) ltac:(lia)) as [Hp|Hi];
        [done|].
      unfold F64.py_float in Hd. rewrite Hi in Hd. discriminate. }
    destruct (Z.eq_dec (np_nansum counts) 0) as [Hs|Hs].
    + rewrite Hs in Hnan.
      destruct (F64.of_Z (Z.of_nat (length ds) * n)) as [| | |[] m e];
        discriminate.
    + destruct (of_Z_pos (np_nansum counts) ltac:(lia)) as [Hp|Hi].
      * destruct (div_pos_finite_sign _ _ Hp Hdpos) as [Hq|[Hq|Hq]];
          rewrite Hnan in Hq; discriminate.
      * rewrite Hi in Hnan.
        destruct (F64.of_Z (Z.of_nat (length ds) * n)) as [| | |[] m e];
          discriminate.
Qed.

End SampleFailures.

(** X8 on the empty dataset. *)
Lemma calculate_reports_nan_iff_witness :
  exists series,
    Unique.calculate [] Stub.radius_0_1 3 (Stub.start Stub.cco_samples)
    = (Ok series, Stub.start Stub.cco_samples)
    /\ series_value series = F64.nan.
Proof.
  exists {| series_name := Unique.name; series_value := F64.nan;
            series_radius := Stub.radius_0_1; series_num_samples := 3 |}.
  split; [reflexivity|].
  apply (calculate_reports_nan_iff Unique.name Unique.sample []
           Stub.radius_0_1 3 (Stub.start Stub.cco_samples) []
           (Stub.start Stub.cco_samples)).
  - constructor.
  - constructor.
  - lia.
  - reflexivity.
  - split; [reflexivity | by left].
Defined.

Section FailingRun.
#[local] Existing Instance StubFailing.PickyClient_inferrer.

(** X7 on a client that refuses "XXX": the molecule after it is never
    requested. *)
Lemma sample_many_stops_at_first_failure_witness :
  let run := BaseSampleMetric.calculate Unique.name Unique.sample
               ["CCO"; "XXX"; "CCN"]%string Stub.radius_0_1 3
               StubFailing.start in
  run.1 = Raise (ClientError "refused")
  /\ calls run.2
     = [FindSimilars ("PickyClient", "CCO", 3, Stub.radius_0_1, false, false);
        FindSimilars ("PickyClient", "XXX", 3, Stub.radius_0_1, false, false)]%string.
Proof.
  cbv zeta.
  destruct (sample_many_stops_at_first_failure Unique.name Unique.sample
              3 Stub.radius_0_1 ["CCO"; "XXX"; "CCN"]%string
              StubFailing.start (ClientError "refused")
              (Unique.sample "XXX"%string 3 Stub.radius_0_1
                 (Unique.sample "CCO"%string 3 Stub.radius_0_1
                    StubFailing.start).2).2)
    as [[_ Hmany] Hcalc].
  rewrite Hcalc.
  - cbn [fst snd]. split; [reflexivity | vm_compute; reflexivity].
  - apply Hmany.
    exists ["CCO"%string], "XXX"%string, ["CCN"%string], [1],
      (Unique.sample "CCO"%string 3 Stub.radius_0_1 StubFailing.start).2.
    split; [reflexivity|]. split.
    + econstructor; [|constructor]. apply pair_fst_eq. vm_compute. reflexivity.
    + apply pair_fst_eq. vm_compute. reflexivity.
Defined.

End FailingRun.

(** ** Rates within the unit interval *)

Section Binary64Exact.

Abbreviation fexp := (SpecFloat.fexp 53 1024).
Abbreviation two53 := 9007199254740992.

(** A mantissa that needs no shift is kept as it is. *)
Lemma binary_round_aux_exact sx m e :
  0 < m -> fexp (Zdigits2 m + e) <= e -> e <= 971 ->
  binary_round_aux 53 1024 sx m e loc_Exact = S754_finite sx (Z.to_pos m) e.
Proof.
  intros Hm Hf He.
  destruct (binary_round_aux_cases sx m e loc_Exact ltac:(lia))
    as (mrs & e1 & Hshr & He1 & _ & Hb & _ & Hres).
  unfold shr_fexp in Hshr. rewrite shr_nonpos in Hshr by lia.
  injection Hshr as <- <-.
  rewrite Hres. cbv zeta.
  cbn [shr_m loc_of_shr_record round_nearest_even] in Hb |- *.
  destruct (Z.eqb_spec m two53); [lia|].
  destruct m as [|p|p]; [lia| |lia].
  destruct (Z.leb_spec e 971); [reflexivity | lia].
Qed.

(** An integer below [2^53] converts without rounding, to a well-formed
    number of the same value. *)
Lemma of_Z_small z :
  0 < z < two53 ->
  exists m e,
    F64.of_Z z = S754_finite false m e
    /\ bounded 53 1024 m e = true
    /\ Z.pos m * 2 ^ (e + 1074) = z * 2 ^ 1074.
Proof.
  intros [Hz Hlt]. destruct z as [|p|p]; [lia| |lia].
  unfold F64.of_Z, binary_normalize, F64.prec, F64.emax, binary_round,
    shl_align.
  change (Z.pos (digits2_pos p)) with (Zdigits2 (Z.pos p)).
  pose proof (Zdigits2_pos (Z.pos p) ltac:(lia)) as Hd.
  assert (Hd53 : Zdigits2 (Z.pos p) <= 53) by (apply Zdigits2_le; lia).
  pose proof (fexp_max (Zdigits2 (Z.pos p) + 0)) as Hf.
  assert (Hbounded : forall m e,
    Zdigits2 (Z.pos m) = 53 -> -1074 <= e <= 971 ->
    bounded 53 1024 m e = true).
  { intros m e Hm He. unfold bounded, canonical_mantissa.
    apply andb_true_iff. split; [apply Z.eqb_eq | apply Z.leb_le].
    - change (Z.pos (digits2_pos m)) with (Zdigits2 (Z.pos m)).
      rewrite fexp_max, Hm. lia.
    - change (1024 - 53) with 971. lia. }
  destruct (fexp (Zdigits2 (Z.pos p) + 0) - 0) as [|k|k] eqn:Hk.
  - rewrite binary_round_aux_exact by lia. cbn [Z.to_pos].
    exists p, 0. split; [done|]. split; [apply Hbounded; lia|].
    by rewrite Z.add_0_l.
  - lia.
  - pose proof (digits_scaled (Z.pos p) (Z.pos k) ltac:(lia) ltac:(lia))
      as Hsc.
    rewrite <- Zpos_iter_xO in Hsc.
    assert (Hsum : Zdigits2 (Z.pos p) + Z.pos k = 53) by lia.
    rewrite Hsum in Hsc.
    assert (Hdig : Zdigits2 (Z.pos (Pos.iter xO p k)) = 53)
      by (apply Zdigits2_eq; [lia | exact Hsc]).
    assert (Hfk : fexp (Zdigits2 (Z.pos p) + 0) = - Z.pos k) by lia.
    change (shift_pos k p) with (Pos.iter xO p k).
    rewrite Hfk.
    rewrite binary_round_aux_exact;
      [|lia|rewrite Hdig, (fexp_max (53 + _)); lia|lia].
    cbn [Z.to_pos].
    exists (Pos.iter xO p k), (- Z.pos k).
    split; [done|]. split; [apply Hbounded; [done|lia]|].
    rewrite Zpos_iter_xO, <- Z.mul_assoc, <- Z.pow_add_r by lia.
    do 2 f_equal. lia.
Qed.

(** The order of small integers is the order of their conversions. *)
Lemma of_Z_small_ltb a b :
  0 < a < two53 -> 0 < b < two53 ->
  F64.ltb (F64.of_Z a) (F64.of_Z b) = true <-> a < b.
Proof.
  intros (ma & ea & -> & Hba & Hva)%of_Z_small
         (mb & eb & -> & Hbb & Hvb)%of_Z_small.
  unfold F64.ltb. rewrite ltb_value_iff by done. rewrite Hva, Hvb.
  pose proof (Z.pow_pos_nonneg 2 1074 ltac:(lia) ltac:(lia)). nia.
Qed.

(** A count over a larger positive total, both below [2^53], divides to a
    number of the unit interval. *)
Lemma div_of_Z_unit_interval s d :
  0 <= s <= d -> 0 < d < two53 ->
  (F64.div (F64.of_Z s) (F64.of_Z d) = F64.zero
   \/ F64.is_pos_finite (F64.div (F64.of_Z s) (F64.of_Z d)) = true)
  /\ F64.ltb F64.one (F64.div (F64.of_Z s) (F64.of_Z d)) = false.
Proof.
  intros Hs Hd.
  destruct (Z.eq_dec s 0) as [->|Hne].
  - destruct (of_Z_small d Hd) as (m & e & -> & _ & _).
    split; [left|]; reflexivity.
  - assert (Hs' : 0 < s < two53) by lia.
    pose proof (of_Z_small_ltb d s Hd Hs') as Hlt.
    destruct (of_Z_small s Hs') as (ms & es & Hxs & Hbs & _).
    destruct (of_Z_small d Hd) as (md & ed & Hxd & Hbd & _).
    rewrite Hxs, Hxd in *.
    pose proof (div_gt_one_iff (S754_finite false ms es)
                  (S754_finite false md ed) Hbs Hbd eq_refl eq_refl) as Hone.
    assert (Hle : F64.ltb F64.one
                    (F64.div (S754_finite false ms es)
                       (S754_finite false md ed)) = false).
    { apply not_true_is_false. intros Hb. apply Hone, Hlt in Hb. lia. }
    split; [|exact Hle].
    destruct (div_pos_finite_sign (S754_finite false ms es)
                (S754_finite false md ed) eq_refl eq_refl)
      as [Hz|[Hp|Hi]]; [by left | by right |].
    rewrite Hi in Hle. discriminate.
Qed.

End Binary64Exact.

Lemma np_nansum_bounds l n :
  Forall (fun c => 0 <= c <= n) l ->
  0 <= np_nansum l <= Z.of_nat (length l) * n.
Proof.
  unfold np_nansum. induction 1 as [|c l Hc _ IH]; cbn [fold_right length].
  - lia.
  - rewrite Nat2Z.inj_succ. lia.
Qed.

Section SampleRates.
Context {C I : Type} `{!ResultCache C} `{!Inferrer I}.
Implicit Types (w : world C I) (sample : string -> Z -> F64.float -> M (world C I) Z).

(** X9.  When every per-molecule count lies between 0 and [num_samples]
    (for [Validity] and [Unique]: when no sample list holds more than
    [num_samples + 1] molecules) and the total number of samples is below
    2^53, the rate reported by [calculate] is a number of the unit
    interval: +0.0 or positive and finite, and not above 1.0.  The rounding
    of the division never pushes it out. *)
Theorem calculate_rate_within_unit_interval
    name sample ds r n w counts w' :
  sample_run sample n r ds w counts w' ->
  ds <> [] -> 0 < n -> Z.of_nat (length ds) * n < 2 ^ 53 ->
  Forall (fun c => 0 <= c <= n) counts ->
  exists v,
    BaseSampleMetric.calculate name sample ds r n w
    = (Ok {| series_name := name; series_value := v;
             series_radius := r; series_num_samples := n |}, w')
    /\ (v = F64.zero \/ F64.is_pos_finite v = true)
    /\ F64.ltb F64.one v = false.
Proof.
  intros Hrun Hds Hn Hsmall Hcounts.
  pose proof (sample_run_length _ _ _ _ _ _ _ Hrun) as Hlen.
  pose proof (np_nansum_bounds counts n Hcounts) as Hsum.
  rewrite Hlen in Hsum.
  assert (Hpos : 0 < Z.of_nat (length ds) * n).
  { destruct ds; [done|]. cbn [length]. lia. }
  change (2 ^ 53) with 9007199254740992 in Hsmall.
  destruct (of_Z_small _ (conj Hpos Hsmall)) as (md & ed & Hd & _ & _).
  exists (F64.div (F64.of_Z (np_nansum counts))
            (F64.of_Z (Z.of_nat (length ds) * n))).
  split; [|by apply div_of_Z_unit_interval].
  unfold BaseSampleMetric.calculate.
  rewrite (bind_ok _ _ _ _ _ (sample_many_run _ _ _ _ _ _ _ Hrun)).
  unfold bind, lift, ret, BaseSampleMetric._calculate_metric, F64.py_float.
  rewrite Hlen, Hd. by rewrite <- Hd.
Qed.

End SampleRates.

(** X9 on the stubbed client: two molecules, three distinct candidates
    each, rate 6 / 6. *)
Lemma calculate_rate_within_unit_interval_witness :
  exists v,
    (Unique.calculate ["CCO"; "CCN"]%string Stub.radius_0_1 3
       (Stub.start Stub.cco_samples)).1
    = Ok {| series_name := Unique.name; series_value := v;
            series_radius := Stub.radius_0_1; series_num_samples := 3 |}
    /\ F64.ltb F64.one v = false.
Proof.
  destruct (calculate_rate_within_unit_interval Unique.name Unique.sample
              ["CCO"; "CCN"]%string Stub.radius_0_1 3
              (Stub.start Stub.cco_samples) [3; 3]
              (BaseSampleMetric.sample_many Unique.sample
                 ["CCO"; "CCN"]%string 3 Stub.radius_0_1
                 (Stub.start Stub.cco_samples)).2)
    as (v & Hcalc & _ & Hv).
  - apply sample_many_run_inv, pair_fst_eq. vm_compute. reflexivity.
  - discriminate.
  - lia.
  - vm_compute. reflexivity.
  - repeat constructor; lia.
  - exists v. unfold Unique.calculate. rewrite Hcalc.
    split; [reflexivity | exact Hv].
Defined.

(** ** Embeddings: reuse, client requests, reported [top_k] *)

Section EmbeddingReuse.
Context {C I FP : Type} `{!ResultCache C} `{!Inferrer I}.
Variable reshape_embedding :
  string -> bool -> bool -> vector -> shape -> res vector.
Variable spearmanr_of_distances :
  list vector -> FP -> option Z -> res (list F64.float).
Variable nanmean : list F64.float -> F64.float.
Implicit Types (w : world C I).

(** X10.  A stored embedding is looked up by the molecule alone: once
    [_find_embedding] has answered an embedding whose [dim] has a length
    other than 1, a later request for the same molecule answers the same
    embedding whatever [max_seq_len] it passes, and does not call the
    client. *)
Theorem find_embedding_reuse_ignores_max_seq_len smiles m1 m2 w v d w1 :
  BaseEmbeddingMetric._find_embedding smiles m1 w = (Ok (v, d), w1) ->
  length d <> 1%nat ->
  BaseEmbeddingMetric._find_embedding smiles m2 w1 = (Ok (v, d), w1).
Proof.
  intros Hfind Hd.
  assert (Hstored : fetch_embedding_data (sample_cache w1) smiles
                    = Some (v, d)).
  { revert Hfind. unfold BaseEmbeddingMetric._find_embedding.
    destruct (fetch_embedding_data (sample_cache w) smiles)
      as [[v0 d0]|] eqn:Hf;
      [destruct (length d0 =? 1)%nat eqn:Hd0|].
    2: { by intros [= <- <- <-]. }
    all: destruct (smiles_to_embedding _ _ _) as [[emb|err] i'];
      [|discriminate]; intros [= <- <- <-]; cbn;
      by rewrite fetch_insert_embedding. }
  unfold BaseEmbeddingMetric._find_embedding. rewrite Hstored.
  by apply Nat.eqb_neq in Hd as ->.
Qed.

(** One [encode] calls the client at most once, for its molecule and with
    the [max_seq_len] it was given. *)
Lemma encode_calls smiles zp avg m w r w' :
  BaseEmbeddingMetric.encode reshape_embedding smiles zp avg m w = (r, w') ->
  calls w' = calls w \/ calls w' = calls w ++ [SmilesToEmbedding smiles m].
Proof.
  unfold BaseEmbeddingMetric.encode, bind, lift,
    BaseEmbeddingMetric._find_embedding.
  destruct (fetch_embedding_data (sample_cache w) smiles) as [[v0 d0]|];
    [destruct (length d0 =? 1)%nat|].
  2: { intros [= _ <-]. by left. }
  all: destruct (smiles_to_embedding _ _ _) as [[emb|err] i'];
    intros [= _ <-]; by right.
Qed.

Lemma encode_many_loop_calls zp avg m todo : forall acc w r w',
  BaseEmbeddingMetric.encode_many_loop reshape_embedding zp avg m todo acc w
  = (r, w') ->
  exists l,
    calls w' = calls w ++ l
    /\ (length l <= length todo)%nat
    /\ Forall (fun c => exists s, s ∈ todo /\ c = SmilesToEmbedding s m) l.
Proof.
  induction todo as [|s todo IH]; intros acc w r w'; cbn.
  - intros [= _ <-]. exists []. rewrite app_nil_r. split; [done|]. split; [done|constructor].
  - unfold bind at 1.
    destruct (BaseEmbeddingMetric.encode _ _ _ _ _ _) as [[e|err] w1] eqn:Henc.
    + intros Hloop. destruct (IH _ _ _ _ Hloop) as (l & Hl & Hlen & Hall).
      assert (Hall' : Forall (fun c => exists s0, s0 ∈ s :: todo
                                /\ c = SmilesToEmbedding s0 m) l).
      { eapply Forall_impl; [exact Hall|]. intros c (s0 & Hin & ->).
        exists s0. split; [by right | done]. }
      destruct (encode_calls _ _ _ _ _ _ _ Henc) as [Hc|Hc]; rewrite Hl, Hc.
      * exists l. split; [done|]. split; [cbn; lia | done].
      * exists (SmilesToEmbedding s m :: l). rewrite <- app_assoc.
        split; [done|]. split; [cbn; lia|].
        constructor; [|done]. exists s. split; [by left | done].
    + intros [= _ <-].
      destruct (encode_calls _ _ _ _ _ _ _ Henc) as [Hc|Hc]; rewrite Hc.
      * exists []. rewrite app_nil_r. split; [done|].
        split; [cbn; lia | constructor].
      * exists [SmilesToEmbedding s m]. split; [done|]. split; [cbn; lia|].
        constructor; [|constructor]. exists s. split; [by left | done].
Qed.

(** X11.  Whether it answers or raises, [encode_many] asks the client only
    for molecules of the dataset, at most once per dataset row, and always
    with the same [max_seq_len]: the one it was given, or the dataset's own
    when it was given [None] or 0. *)
Theorem encode_many_client_requests (dataset : Dataset FP) m zp avg w r w' :
  BaseEmbeddingMetric.encode_many reshape_embedding dataset m zp avg w
  = (r, w') ->
  let effective :=
    match m with
    | Some k => if k =? 0 then Some (ds_max_seq_len dataset) else Some k
    | None => Some (ds_max_seq_len dataset)
    end in
  exists requests,
    calls w' = calls w ++ requests
    /\ (length requests <= length (ds_smiles dataset))%nat
    /\ Forall (fun c => exists s, s ∈ ds_smiles dataset
                                  /\ c = SmilesToEmbedding s effective)
         requests.
Proof.
  unfold BaseEmbeddingMetric.encode_many, truthy_int. intros Hloop. cbv zeta.
  apply encode_many_loop_calls in Hloop.
  destruct m as [k|]; [destruct (k =? 0)|]; exact Hloop.
Qed.

(** X12.  Called with an integer [top_k], [calculate] hands that very
    [top_k] to the rank correlation, 0 included, and reports it unchanged
    unless it is 0, in which case the report says the number of dataset
    molecules minus 1. *)
Theorem calculate_reports_given_top_k (dataset : Dataset FP) k w embs w' corr :
  BaseEmbeddingMetric.encode_many reshape_embedding dataset None true false w
  = (Ok embs, w') ->
  spearmanr_of_distances embs (ds_fingerprints dataset) (Some k) = Ok corr ->
  NearestNeighborCorrelation.calculate reshape_embedding
    spearmanr_of_distances nanmean dataset (Some k) w
  = (Ok {| nnc_name := NearestNeighborCorrelation.name;
           nnc_value := nanmean corr;
           nnc_top_k := if k =? 0
                        then Z.of_nat (length (ds_smiles dataset)) - 1
                        else k |}, w').
Proof.
  intros Henc Hcorr. unfold NearestNeighborCorrelation.calculate.
  rewrite (bind_ok _ _ _ _ _ Henc).
  unfold NearestNeighborCorrelation._calculate_metric, lift, bind, ret.
  rewrite Hcorr.
  by rewrite (encode_many_length reshape_embedding dataset _ _ _ _ _ _ Henc).
Qed.

End EmbeddingReuse.

(** X10 on the echo client: the embedding obtained without a
    [max_seq_len] answers a request with [max_seq_len = 512]. *)
Lemma find_embedding_reuse_ignores_max_seq_len_witness :
  let w1 := serve (EmbedRequest "CCO" None) Stub.echo_start in
  BaseEmbeddingMetric._find_embedding "CCO" (Some 512) w1
  = (Ok ([F64.zero; F64.zero], [1; 2]), w1).
Proof.
  cbv zeta.
  apply (find_embedding_reuse_ignores_max_seq_len "CCO"%string None (Some 512)
           Stub.echo_start).
  - apply pair_fst_eq. vm_compute. reflexivity.
  - cbn. lia.
Defined.

(** X11 on the echo client: two molecules, [max_seq_len = 0]. *)
Lemma encode_many_client_requests_witness :
  exists requests,
    calls (BaseEmbeddingMetric.encode_many (fun _ _ _ v _ => Ok v)
             {| ds_smiles := ["CCO"; "CCN"]%string; ds_fingerprints := tt;
                ds_properties := []; ds_max_seq_len := 512 |}
             (Some 0) true false Stub.echo_start).2
    = requests
    /\ Forall (fun c => exists s, s ∈ ["CCO"; "CCN"]%string
                                  /\ c = SmilesToEmbedding s (Some 512))
         requests.
Proof.
  destruct (encode_many_client_requests (fun _ _ _ v _ => Ok v)
              {| ds_smiles := ["CCO"; "CCN"]%string; ds_fingerprints := tt;
                 ds_properties := []; ds_max_seq_len := 512 |}
              (Some 0) true false Stub.echo_start
              (BaseEmbeddingMetric.encode_many (fun _ _ _ v _ => Ok v)
                 {| ds_smiles := ["CCO"; "CCN"]%string; ds_fingerprints := tt;
                    ds_properties := []; ds_max_seq_len := 512 |}
                 (Some 0) true false Stub.echo_start).1
              (BaseEmbeddingMetric.encode_many (fun _ _ _ v _ => Ok v)
                 {| ds_smiles := ["CCO"; "CCN"]%string; ds_fingerprints := tt;
                    ds_properties := []; ds_max_seq_len := 512 |}
                 (Some 0) true false Stub.echo_start).2)
    as (requests & Hcalls & _ & Hall).
  - by destruct (BaseEmbeddingMetric.encode_many _ _ _ _ _ _).
  - exists requests. split; [exact Hcalls | exact Hall].
Defined.

(** X12 on the echo client: three molecules and [top_k = 0]. *)
Lemma calculate_reports_given_top_k_witness :
  (NearestNeighborCorrelation.calculate
     (fun _ _ _ v _ => Ok v) (fun _ (_ : unit) _ => Ok [F64.one])
     StubModel.nanmean
     {| ds_smiles := ["CCO"; "CCN"; "CCC"]%string; ds_fingerprints := tt;
        ds_properties := []; ds_max_seq_len := 512 |}
     (Some 0) Stub.echo_start).1
  = Ok {| nnc_name := NearestNeighborCorrelation.name;
          nnc_value := StubModel.nanmean [F64.one];
          nnc_top_k := 2 |}.
Proof.
  set (dataset := {| ds_smiles := ["CCO"; "CCN"; "CCC"]%string;
                     ds_fingerprints := tt; ds_properties := [];
                     ds_max_seq_len := 512 |}).
  set (enc := BaseEmbeddingMetric.encode_many (fun _ _ _ v _ => Ok v)
                dataset None true false Stub.echo_start).
  rewrite (calculate_reports_given_top_k (fun _ _ _ v _ => Ok v)
             (fun _ (_ : unit) _ => Ok [F64.one]) StubModel.nanmean
             dataset 0 Stub.echo_start
             (replicate 3 [F64.zero; F64.zero]) enc.2 [F64.one]).
  - reflexivity.
  - apply pair_fst_eq. vm_compute. reflexivity.
  - reflexivity.
Defined.

(** ** One embedding pass serves every later pass *)

Section EmbeddingPass.
Context {C I FP : Type} `{!ResultCache C} `{!Inferrer I}.
Variable reshape_embedding :
  string -> bool -> bool -> vector -> shape -> res vector.
Implicit Types (w : world C I).

(** The world after an [encode] is the world after its request. *)
Lemma encode_world smiles zp avg m w :
  (BaseEmbeddingMetric.encode reshape_embedding smiles zp avg m w).2
  = serve (EmbedRequest smiles m) w.
Proof.
  unfold BaseEmbeddingMetric.encode, bind, lift, serve.
  by destruct (BaseEmbeddingMetric._find_embedding smiles m w) as [[r|e] w1].
Qed.

(** With a reliable client a request leaves a usable entry behind. *)
Lemma serve_leaves_usable (q : request) w :
  reliable_client (I := I) -> fetch_usable q (serve q w) = true.
Proof.
  intros Hrel.
  destruct (fetch_usable q w) eqn:Hu; [by rewrite serve_usable|].
  destruct (Hrel q (inferrer w)) as (e & Hans & Hus).
  destruct (serve_unusable q w Hu) as [_ Hfetch].
  unfold fetch_usable. by rewrite (Hfetch e Hans).
Qed.

Lemma fetch_usable_kept (q q' : request) w :
  fetch_usable q w = true -> fetch_usable q (serve q' w) = true.
Proof.
  unfold fetch_usable.
  destruct (fetch_entry q (sample_cache w)) as [e|] eqn:Hq; [|done].
  intros He. by rewrite (serve_keeps_usable q q' w e Hq He).
Qed.

Lemma encode_many_loop_leaves_usable zp avg m todo :
  reliable_client (I := I) ->
  forall acc w r w',
    BaseEmbeddingMetric.encode_many_loop reshape_embedding zp avg m todo acc w
    = (Ok r, w') ->
    (forall s m', s ∈ todo -> fetch_usable (EmbedRequest s m') w' = true)
    /\ forall q, fetch_usable q w = true -> fetch_usable q w' = true.
Proof.
  intros Hrel.
  induction todo as [|s todo IH]; intros acc w r w'; cbn.
  - intros [= _ <-]. split; [|done]. intros s m' Hin. by apply elem_of_nil in Hin.
  - unfold bind at 1.
    pose proof (encode_world s zp avg m w) as Hw.
    destruct (BaseEmbeddingMetric.encode _ _ _ _ _ _) as [[e|err] w1];
      [|done].
    cbn [snd] in Hw. subst w1. intros Hloop.
    destruct (IH _ _ _ _ Hloop) as [Htodo Hkeep].
    split.
    + intros s0 m' [->|Hin]%elem_of_cons; [|by apply Htodo].
      apply Hkeep.
      exact (serve_leaves_usable (EmbedRequest s m) w Hrel).
    + intros q Hq. by apply Hkeep, fetch_usable_kept.
Qed.

Lemma encode_many_loop_cached zp avg m todo : forall acc w,
  (forall s, s ∈ todo -> fetch_usable (EmbedRequest s m) w = true) ->
  (BaseEmbeddingMetric.encode_many_loop reshape_embedding zp avg m todo acc w).2
  = w.
Proof.
  induction todo as [|s todo IH]; intros acc w Hall; cbn; [done|].
  unfold bind at 1.
  pose proof (encode_world s zp avg m w) as Hw.
  rewrite serve_usable in Hw by (apply Hall; by left).
  destruct (BaseEmbeddingMetric.encode _ _ _ _ _ _) as [[e|err] w1];
    cbn [snd] in Hw; subst w1; [|done].
  apply IH. intros s0 Hin. apply Hall. by right.
Qed.

(** X17.  With a client whose embeddings never have a [dim] of length 1, an
    [encode_many] that answered leaves every embedding of the dataset in
    the cache: any later [encode_many] over the dataset, with whatever
    flags and [max_seq_len], leaves the cache, the client and the record
    of client calls as they are. *)
Theorem one_embedding_pass_serves_later_passes
    (dataset : Dataset FP) m zp avg w embs w1 m' zp' avg' :
  reliable_client (I := I) ->
  BaseEmbeddingMetric.encode_many reshape_embedding dataset m zp avg w
  = (Ok embs, w1) ->
  (BaseEmbeddingMetric.encode_many reshape_embedding dataset m' zp' avg' w1).2
  = w1.
Proof.
  unfold BaseEmbeddingMetric.encode_many. intros Hrel Hloop.
  apply (encode_many_loop_leaves_usable _ _ _ _ Hrel) in Hloop as [Husable _].
  apply encode_many_loop_cached. intros s Hin. by apply Husable.
Qed.

End EmbeddingPass.

(** X17 on the echo client: the embeddings obtained for the correlation
    (padding zeroed, tokens kept) serve the pass of Modelability (tokens
    averaged). *)
Lemma one_embedding_pass_serves_later_passes_witness :
  let dataset := {| ds_smiles := ["CCO"; "CCN"]%string; ds_fingerprints := tt;
                    ds_properties := []; ds_max_seq_len := 512 |} in
  let w1 := (BaseEmbeddingMetric.encode_many (fun _ _ _ v _ => Ok v)
               dataset None true false Stub.echo_start).2 in
  calls w1
  = [SmilesToEmbedding "CCO" (Some 512); SmilesToEmbedding "CCN" (Some 512)]
  /\ (BaseEmbeddingMetric.encode_many (fun _ _ _ v _ => Ok v)
        dataset (Some 64) false true w1).2 = w1.
Proof.
  cbv zeta. split; [vm_compute; reflexivity|].
  eapply (one_embedding_pass_serves_later_passes (fun _ _ _ v _ => Ok v)
            {| ds_smiles := ["CCO"; "CCN"]%string; ds_fingerprints := tt;
               ds_properties := []; ds_max_seq_len := 512 |}
            None true false Stub.echo_start).
  - exact echo_client_reliable.
  - apply pair_fst_eq. vm_compute. reflexivity.
Defined.

(** ** The grid search keeps the first least score *)

Section Binary64Rank.

Ltac rank_solve :=
  unfold lex3; split;
  [ intros Hlt;
    first
      [ discriminate Hlt
      | eexists _, _; split; [reflexivity|]; split; [reflexivity|]; cbn; lia ]
  | intros (a & b & Ha & Hb & Hlex);
    first
      [ discriminate Ha
      | discriminate Hb
      | injection Ha as <-; injection Hb as <-; cbn in Hlex;
        first [reflexivity | exfalso; lia] ] ].

(** [<] on binary64 numbers is the lexicographic order of their places. *)
Lemma ltb_rank x y :
  F64.ltb x y = true
  <-> exists a b, f64_rank x = Some a /\ f64_rank y = Some b /\ lex3 a b.
Proof.
  unfold F64.ltb, SFltb.
  destruct x as [sx|sx| |sx mx ex], y as [sy|sy| |sy my ey];
    try destruct sx; try destruct sy; cbn [SFcompare f64_rank];
    try rank_solve.
  - destruct (Z.compare_spec ex ey); cbn;
      rewrite ?Pos.compare_cont_spec; cbn [Pos.switch_Eq];
      try rank_solve.
    destruct (mx ?= my)%positive eqn:Hc;
      [apply Pos.compare_eq_iff in Hc
      |apply Pos.compare_lt_iff, Pos2Z.pos_lt_pos in Hc
      |apply Pos.compare_gt_iff, Pos2Z.pos_lt_pos in Hc];
      cbn; rank_solve.
  - destruct (Z.compare_spec ex ey); cbn;
      rewrite ?Pos.compare_cont_spec; cbn [Pos.switch_Eq];
      try rank_solve.
    destruct (mx ?= my)%positive eqn:Hc;
      [apply Pos.compare_eq_iff in Hc
      |apply Pos.compare_lt_iff, Pos2Z.pos_lt_pos in Hc
      |apply Pos.compare_gt_iff, Pos2Z.pos_lt_pos in Hc];
      cbn; rank_solve.
Qed.

Lemma f64_rank_not_nan x : x <> F64.nan -> exists a, f64_rank x = Some a.
Proof. destruct x as [[]|[]| |[] m e]; intros Hx; cbn; eauto. done. Qed.

(** Below a bound that [t] is not below, hence below [t]. *)
Lemma ltb_lt_le_trans s b t :
  F64.ltb s b = true -> F64.ltb t b = false -> t <> F64.nan ->
  F64.ltb s t = true.
Proof.
  intros (rs & rb & Hs & Hb & Hsb)%ltb_rank Htb (rt & Ht)%f64_rank_not_nan.
  apply ltb_rank. exists rs, rt. split; [done|]. split; [done|].
  assert (Hn : ~ lex3 rt rb).
  { intros Hlex. rewrite (proj2 (ltb_rank t b)) in Htb; [done|].
    by exists rt, rb. }
  destruct rs as [[? ?] ?], rb as [[? ?] ?], rt as [[? ?] ?].
  unfold lex3 in *. cbn in *. lia.
Qed.

Lemma ltb_trans x y z :
  F64.ltb x y = true -> F64.ltb y z = true -> F64.ltb x z = true.
Proof.
  intros (rx & ry & Hx & Hy & Hxy)%ltb_rank (ry' & rz & Hy' & Hz & Hyz)%ltb_rank.
  apply ltb_rank. exists rx, rz. split; [done|]. split; [done|].
  rewrite Hy in Hy'. injection Hy' as <-.
  destruct rx as [[? ?] ?], ry as [[? ?] ?], rz as [[? ?] ?].
  unfold lex3 in *. cbn in *. lia.
Qed.

Lemma ltb_irrefl x : F64.ltb x x = false.
Proof.
  apply not_true_is_false.
  intros (a & b & Ha & Hb & Hlex)%ltb_rank.
  rewrite Ha in Hb. injection Hb as <-.
  destruct a as [[? ?] ?]. unfold lex3 in *. cbn in *. lia.
Qed.

End Binary64Rank.

Section GridSearchOrder.
Context {E P PD : Type} `{!Estimator E P}.
Variable ParameterGrid : PD -> list P.
Variable kfold_split : Z -> nat -> res (list (list nat * list nat)).
Variable mean_squared_error :
  list F64.float -> list F64.float -> res F64.float.
Variable nanmean : list F64.float -> F64.float.
Variable n_splits : Z.

Abbreviation cross_validate :=
  (Modelability.cross_validate kfold_split mean_squared_error nanmean
     n_splits).
Abbreviation grid_loop :=
  (Modelability.grid_loop kfold_split mean_squared_error nanmean n_splits).
Abbreviation gpu_gridsearch_cv :=
  (Modelability.gpu_gridsearch_cv ParameterGrid kfold_split
     mean_squared_error nanmean n_splits).

(** A score below the best one becomes the best one. *)
Lemma first_least_better rp pre_grid pre_scores b bp bpred
    (param : P) s pred' :
  length pre_grid = length pre_scores ->
  first_least rp pre_grid pre_scores (b, bp, bpred) ->
  F64.ltb s b = true ->
  (rp = false -> pred' = None) ->
  first_least rp (pre_grid ++ [param]) (pre_scores ++ [s])
    (s, Some param, pred').
Proof.
  intros Hlen (Hall & _ & Hbest) Hlt Hpred. cbn.
  assert (Hinf : F64.ltb s F64.inf = true).
  { destruct bp as [p|].
    - destruct Hbest as (i & _ & _ & Hb & _). by apply (ltb_trans s b).
    - destruct Hbest as [-> _]. exact Hlt. }
  split; [|split; [exact Hpred|]].
  - apply Forall_app. split; [|apply Forall_singleton, ltb_irrefl].
    eapply Forall_impl; [exact Hall|]. intros t Ht. cbn in Ht.
    apply not_true_is_false. intros Hts.
    rewrite (ltb_trans t s b Hts Hlt) in Ht. discriminate.
  - exists (length pre_grid). split; [apply list_lookup_middle; done|].
    split; [apply list_lookup_middle; done|]. split; [exact Hinf|].
    rewrite take_app_length' by done.
    eapply Forall_impl; [exact Hall|]. intros t Ht. cbn in Ht.
    destruct (decide (t = F64.nan)) as [->|Hnan]; [by left|].
    right. by apply (ltb_lt_le_trans s b t).
Qed.

(** A score that is not below the best one changes nothing. *)
Lemma first_least_worse rp pre_grid pre_scores b bp bpred (param : P) s :
  first_least rp pre_grid pre_scores (b, bp, bpred) ->
  F64.ltb s b = false ->
  first_least rp (pre_grid ++ [param]) (pre_scores ++ [s]) (b, bp, bpred).
Proof.
  intros (Hall & Hpred & Hbest) Hlt. cbn.
  split; [|split; [exact Hpred|]].
  - apply Forall_app. split; [exact Hall | by apply Forall_singleton].
  - destruct bp as [p|]; [|exact Hbest].
    destruct Hbest as (i & Hg & Hs & Hb & Hbefore).
    exists i. split; [by apply lookup_app_l_Some|].
    split; [by apply lookup_app_l_Some|]. split; [exact Hb|].
    apply lookup_lt_Some in Hs.
    rewrite take_app_le by lia. exact Hbefore.
Qed.

Lemma grid_loop_first_least rp xdata ydata grid :
  forall pre_grid pre_scores best e res e',
    length pre_grid = length pre_scores ->
    first_least rp pre_grid pre_scores best ->
    grid_loop rp xdata ydata grid best e = (Ok res, e') ->
    exists scores,
      cv_run (fun param => cross_validate param xdata ydata) grid e scores e'
      /\ first_least rp (pre_grid ++ grid) (pre_scores ++ scores) res.
Proof.
  induction grid as [|param grid IH];
    intros pre_grid pre_scores [[b bp] bpred] e res e' Hlen Hinv;
    cbn [Modelability.grid_loop].
  - unfold ret. intros [= <- <-]. exists []. rewrite !app_nil_r.
    split; [constructor | done].
  - unfold bind at 1.
    destruct (cross_validate param xdata ydata e) as [[s|err] e1] eqn:Hcv;
      [|done].
    assert (Hlen' : length (pre_grid ++ [param]) = length (pre_scores ++ [s]))
      by (rewrite !length_app; cbn; lia).
    assert (Hstep : forall best1,
      first_least rp (pre_grid ++ [param]) (pre_scores ++ [s]) best1 ->
      grid_loop rp xdata ydata grid best1 e1 = (Ok res, e') ->
      exists scores,
        cv_run (fun param => cross_validate param xdata ydata)
          (param :: grid) e scores e'
        /\ first_least rp (pre_grid ++ param :: grid)
             (pre_scores ++ scores) res).
    { intros best1 Hinv1 Hloop.
      destruct (IH _ _ _ _ _ _ Hlen' Hinv1 Hloop) as (scores & Hrun & Hfl).
      exists (s :: scores). split; [by econstructor|].
      by rewrite <- !app_assoc in Hfl. }
    destruct (F64.ltb s b) eqn:Hlt.
    + destruct rp eqn:Hrp.
      * unfold bind at 1. destruct (predict e1 xdata) as [pr|err]; [|done].
        apply Hstep.
        by apply (first_least_better _ _ _ b bp bpred).
      * apply Hstep.
        apply (first_least_better _ _ _ b bp bpred); try done.
        intros _. by destruct Hinv as (_ & Hnone & _); apply Hnone.
    + apply Hstep. by apply first_least_worse.
Qed.

(** X13.  A grid search that answers has scored every combination of the
    grid in order on the one estimator, and its answer is the first least
    score: no combination scored below the answered best score; the
    answered combination is the first that reached it, every earlier one
    having scored NaN or strictly above; when no score is below [+inf]
    (an empty grid, or NaN scores only) the answer is [+inf] with no
    combination and no predictions; and without retention the answer never
    carries predictions. *)
Theorem gridsearch_answers_first_least_score
    rp param_dict xdata ydata e best e' :
  gpu_gridsearch_cv rp param_dict xdata ydata e = (Ok best, e') ->
  exists scores,
    cv_run (fun param => cross_validate param xdata ydata)
      (ParameterGrid param_dict) e scores e'
    /\ first_least rp (ParameterGrid param_dict) scores best.
Proof.
  unfold Modelability.gpu_gridsearch_cv.
  destruct (negb _); [done|]. intros Hloop.
  apply (grid_loop_first_least rp xdata ydata _ [] [] _ _ _ _ eq_refl) in Hloop;
    [exact Hloop|].
  cbn. split; [constructor|]. split; done.
Qed.

End GridSearchOrder.

(** X13 on the stub estimator: the scales 2, 1, 1 score 13, 4, 4, and the
    first scale 1 is answered. *)
Lemma gridsearch_answers_first_least_score_witness :
  exists scores,
    first_least false [2; 1; 1] scores (F64.of_Z 4, Some 1, None)
    /\ length scores = 3%nat.
Proof.
  destruct (gridsearch_answers_first_least_score (fun g : list Z => g)
              StubModel.kfold_split StubModel.mean_squared_error
              StubModel.nanmean 2 false [2; 1; 1] StubModel.xdata
              StubModel.ydata StubModel.fresh
              (F64.of_Z 4, Some 1, None)
              (StubModel.gridsearch false [2; 1; 1]).2)
    as (scores & Hrun & Hfl).
  - apply pair_fst_eq. vm_compute. reflexivity.
  - exists scores. split; [exact Hfl|].
    clear Hfl. revert Hrun.
    generalize (StubModel.gridsearch false [2; 1; 1]).2. intros e3 Hrun.
    inversion Hrun as [|? ? ? ? ? ? ? _ Hrun1]; subst.
    inversion Hrun1 as [|? ? ? ? ? ? ? _ Hrun2]; subst.
    inversion Hrun2 as [|? ? ? ? ? ? ? _ Hrun3]; subst.
    by inversion Hrun3.
Defined.

(** ** Modelability: what [_calculate_metric] refuses and what it lets through *)

Section ModelabilityEdges.
Context {E P PD S : Type} `{!Estimator E P}.
Variable ParameterGrid : PD -> list P.
Variable kfold_split : Z -> nat -> res (list (list nat * list nat)).
Variable mean_squared_error :
  list F64.float -> list F64.float -> res F64.float.
Variable nanmean : list F64.float -> F64.float.
Variable asarray_float32 : list F64.float -> list F64.float.
Variable fit_transform_data : list vector -> res (list vector).
Variable fit_transform_prop : list F64.float -> res (S * list F64.float).
Variable inverse_transform : S -> list F64.float -> res (list F64.float).
Variable n_splits : Z.

Abbreviation gpu_gridsearch_cv :=
  (Modelability.gpu_gridsearch_cv ParameterGrid kfold_split
     mean_squared_error nanmean n_splits).
Abbreviation calculate_metric :=
  (Modelability._calculate_metric ParameterGrid kfold_split
     mean_squared_error nanmean asarray_float32 fit_transform_data
     fit_transform_prop inverse_transform n_splits).

(** X14.  With retained predictions and without normalization,
    [_calculate_metric] never answers: [self.norm_prop] is [False], which
    passes the [is not None] test, so as soon as both grid searches have
    answered, the inverse transformation of the predictions raises
    [AttributeError]. *)
Theorem retained_predictions_need_normalization
    smiles_properties embeddings fingerprints param_dict e :
  (exists err e',
     calculate_metric true false smiles_properties embeddings fingerprints
       param_dict e = (Raise err, e'))
  /\ forall prop_name column emb e1 fgp e2,
       smiles_properties = [(prop_name, column)] ->
       gpu_gridsearch_cv true param_dict embeddings (asarray_float32 column) e
       = (Ok emb, e1) ->
       gpu_gridsearch_cv true param_dict fingerprints (asarray_float32 column)
         e1 = (Ok fgp, e2) ->
       calculate_metric true false smiles_properties embeddings fingerprints
         param_dict e = (Raise AttributeError, e2).
Proof.
  split.
  - unfold Modelability._calculate_metric.
    destruct smiles_properties as [|[prop_name column] [|]];
      [by eexists _, _| |by eexists _, _].
    unfold bind, lift, ret.
    destruct (Modelability.gpu_gridsearch_cv _ _ _ _ _ _ _ embeddings _ _)
      as [[[[ee ep] epred]|err] e1]; [|by eexists _, _].
    destruct (Modelability.gpu_gridsearch_cv _ _ _ _ _ _ _ fingerprints _ _)
      as [[[[fe fp] fpred]|err] e2]; by eexists _, _.
  - intros prop_name column [[ee ep] epred] e1 [[fe fp] fpred] e2 -> Hemb Hfgp.
    unfold Modelability._calculate_metric, bind, lift, ret.
    by rewrite Hemb, Hfgp.
Qed.

(** X15.  [_calculate_metric] raises [AssertionError], and leaves the
    estimator untouched, when the dataset has no or several property
    columns, and also, without normalization, when the embeddings and the
    property column differ in their number of rows: no combination is ever
    fitted. *)
Theorem calculate_metric_rejects_misshapen_input
    rp ni smiles_properties embeddings fingerprints param_dict e :
  length smiles_properties <> 1%nat
  \/ (ni = false
      /\ exists prop_name column,
           smiles_properties = [(prop_name, column)]
           /\ length embeddings <> length (asarray_float32 column)) ->
  calculate_metric rp ni smiles_properties embeddings fingerprints param_dict e
  = (Raise AssertionError, e).
Proof.
  intros [Hlen|(-> & prop_name & column & -> & Hrows)].
  - unfold Modelability._calculate_metric.
    by destruct smiles_properties as [|[prop_name column] [|]].
  - unfold Modelability._calculate_metric, bind, lift, ret,
      Modelability.gpu_gridsearch_cv.
    apply Nat.eqb_neq in Hrows. by rewrite Hrows.
Qed.

(** X16.  With a grid of no combination, no retention and no
    normalization, [_calculate_metric] raises nothing: both best errors
    are [+inf], no parameters are reported, and the ratio is NaN. *)
Theorem empty_grid_reports_nan
    prop_name column embeddings fingerprints param_dict e :
  ParameterGrid param_dict = [] ->
  length embeddings = length (asarray_float32 column) ->
  length fingerprints = length (asarray_float32 column) ->
  calculate_metric false false [(prop_name, column)] embeddings fingerprints
    param_dict e
  = (Ok {| value := F64.nan;
           fingerprint_error := F64.inf;
           embedding_error := F64.inf;
           fingerprint_param := None;
           embedding_param := None;
           fingerprint_pred := None;
           embedding_pred := None |}, e).
Proof.
  intros Hgrid Hemb Hfgp.
  unfold Modelability._calculate_metric, bind, lift, ret,
    Modelability.gpu_gridsearch_cv.
  rewrite Hgrid, Hemb, Hfgp, Nat.eqb_refl. reflexivity.
Qed.

End ModelabilityEdges.

(** X14 on the stub data of the ratio run, with retained predictions. *)
Lemma retained_predictions_need_normalization_witness :
  (Modelability._calculate_metric (E := StubRatio.FirstFeature) (P := unit)
     (PD := list unit) (S := unit)
     (fun g => g) StubModel.kfold_split StubModel.mean_squared_error
     StubModel.nanmean (fun column => column)
     (fun x => Ok x) (fun y => Ok (tt, y)) (fun _ y => Ok y)
     2 true false StubRatio.smiles_properties StubRatio.embeddings
     StubRatio.fingerprints [tt] {| StubRatio.fits := 0 |}).1
  = Raise AttributeError.
Proof.
  destruct (retained_predictions_need_normalization
              (E := StubRatio.FirstFeature) (P := unit) (PD := list unit)
              (S := unit)
              (fun g => g) StubModel.kfold_split StubModel.mean_squared_error
              StubModel.nanmean (fun column => column)
              (fun x => Ok x) (fun y => Ok (tt, y)) (fun _ y => Ok y)
              2 StubRatio.smiles_properties StubRatio.embeddings
              StubRatio.fingerprints [tt] {| StubRatio.fits := 0 |})
    as [_ Hraise].
  erewrite Hraise; [reflexivity|reflexivity| |].
  - vm_compute. reflexivity.
  - vm_compute. reflexivity.
Defined.

(** X15 on a dataset without a property column. *)
Lemma calculate_metric_rejects_misshapen_input_witness :
  Modelability._calculate_metric (E := StubRatio.FirstFeature) (P := unit)
    (PD := list unit) (S := unit)
    (fun g => g) StubModel.kfold_split StubModel.mean_squared_error
    StubModel.nanmean (fun column => column)
    (fun x => Ok x) (fun y => Ok (tt, y)) (fun _ y => Ok y)
    2 false false [] StubRatio.embeddings StubRatio.fingerprints [tt]
    {| StubRatio.fits := 0 |}
  = (Raise AssertionError, {| StubRatio.fits := 0 |}).
Proof.
  apply calculate_metric_rejects_misshapen_input.
  left. cbn. lia.
Defined.

(** X16 on the stub data of the ratio run, with an empty grid. *)
Lemma empty_grid_reports_nan_witness :
  (Modelability._calculate_metric (E := StubRatio.FirstFeature) (P := unit)
     (PD := list unit) (S := unit)
     (fun g => g) StubModel.kfold_split StubModel.mean_squared_error
     StubModel.nanmean (fun column => column)
     (fun x => Ok x) (fun y => Ok (tt, y)) (fun _ y => Ok y)
     2 false false StubRatio.smiles_properties StubRatio.embeddings
     StubRatio.fingerprints [] {| StubRatio.fits := 0 |}).1
  = Ok {| value := F64.nan;
          fingerprint_error := F64.inf;
          embedding_error := F64.inf;
          fingerprint_param := None;
          embedding_param := None;
          fingerprint_pred := None;
          embedding_pred := None |}.
Proof.
  unfold StubRatio.smiles_properties.
  rewrite (empty_grid_reports_nan (E := StubRatio.FirstFeature) (P := unit)
             (PD := list unit) (S := unit)
             (fun g => g) StubModel.kfold_split StubModel.mean_squared_error
             StubModel.nanmean (fun column => column)
             (fun x => Ok x) (fun y => Ok (tt, y)) (fun _ y => Ok y) 2).
  - reflexivity.
  - reflexivity.
  - reflexivity.
  - reflexivity.
Defined.

(** ** Batches of [fetch_mol_embedding] *)

Lemma batches_cover_prefix (total batch_size : Z) (k : nat) :
  0 < batch_size -> 0 <= total ->
  (Z.of_nat k - 1) * batch_size < total ->
  concat (map (fun i => seqZ (0 + Z.of_nat i * batch_size)
                          (Z.min (total - (0 + Z.of_nat i * batch_size))
                                 batch_size))
              (seq 0 k))
  = seqZ 0 (Z.min (Z.of_nat k * batch_size) total).
Proof.
  intros Hb Ht. induction k as [|k IH]; intros Hk.
  - cbn. by rewrite seqZ_nil by lia.
  - rewrite seq_S, map_app, concat_app, IH by lia.
    cbn [map concat Nat.add]. rewrite app_nil_r.
    replace (Z.min (Z.of_nat k * batch_size) total)
      with (Z.of_nat k * batch_size) by lia.
    replace (Z.min (Z.of_nat (S k) * batch_size) total)
      with (Z.of_nat k * batch_size
            + Z.min (total - (0 + Z.of_nat k * batch_size)) batch_size)
      by lia.
    rewrite seqZ_app by lia. reflexivity.
Qed.

(** X18.  For a positive batch size, the batches that
    [fetch_mol_embedding] asks for are a partition of the records
    requested (the molecule count when [num_recs] is [None], 0 or
    negative): taken in order they enumerate the record positions
    0, 1, ..., total - 1 once each, and every batch holds at least one
    record and at most [batch_size]. *)
Theorem fetch_mol_embedding_batches_partition num_recs batch_size molecule_cnt :
  0 < batch_size -> 0 <= molecule_cnt ->
  let total :=
    match num_recs with
    | Some n => if 0 <? n then n else molecule_cnt
    | None => molecule_cnt
    end in
  exists batches,
    ChEmblData.fetch_mol_embedding_batches num_recs batch_size molecule_cnt
    = Ok batches
    /\ concat (map (fun b => seqZ b.1 b.2) batches) = seqZ 0 total
    /\ Forall (fun b => 0 < b.2 <= batch_size) batches.
Proof.
  intros Hb Hcnt total.
  unfold ChEmblData.fetch_mol_embedding_batches.
  assert (Heff : match num_recs with
                 | None => molecule_cnt
                 | Some n => if (n =? 0) || (n <? 0) then molecule_cnt else n
                 end = total).
  { subst total. destruct num_recs as [n|]; [|done].
    destruct (Z.eqb_spec n 0), (Z.ltb_spec n 0), (Z.ltb_spec 0 n);
      cbn; done || lia. }
  rewrite Heff.
  assert (Htotal : 0 <= total).
  { subst total. destruct num_recs as [n|]; [|done].
    destruct (Z.ltb_spec 0 n); lia. }
  clearbody total. clear Heff.
  unfold py_range.
  destruct (Z.eqb_spec batch_size 0) as [|_]; [lia|].
  destruct (Z.ltb_spec 0 batch_size) as [_|]; [|lia].
  rewrite Z.sub_0_r.
  set (q := (total + batch_size - 1) / batch_size).
  assert (Hq : q * batch_size <= total + batch_size - 1
               < (q + 1) * batch_size).
  { subst q. pose proof (Z.mul_div_le (total + batch_size - 1) batch_size Hb).
    pose proof (Z.mul_succ_div_gt (total + batch_size - 1) batch_size Hb).
    lia. }
  assert (Hq0 : 0 <= q) by (subst q; apply Z.div_pos; lia).
  clearbody q.
  eexists. split; [reflexivity|]. split.
  - rewrite !map_map. cbn [fst snd].
    rewrite batches_cover_prefix by (rewrite ?Z2Nat.id; lia).
    f_equal. rewrite Z2Nat.id by lia. nia.
  - rewrite map_map. apply Forall_forall. intros b Hin.
    apply list_elem_of_In, in_map_iff in Hin as (i & <- & Hi).
    apply in_seq in Hi. cbn [snd].
    assert (Z.of_nat i < q) by lia.
    nia.
Qed.

(** X18 on 12 records in batches of 5. *)
Lemma fetch_mol_embedding_batches_partition_witness :
  exists batches,
    ChEmblData.fetch_mol_embedding_batches (Some 12) 5 100 = Ok batches
    /\ concat (map (fun b => seqZ b.1 b.2) batches) = seqZ 0 12
    /\ Forall (fun b => 0 < b.2 <= 5) batches.
Proof.
  apply (fetch_mol_embedding_batches_partition (Some 12) 5 100); lia.
Defined.

(** ** Statistics of generated molecules *)

Lemma length_dropna df :
  (length (CalcStatistics.dropna df) <= length df)%nat.
Proof.
  unfold CalcStatistics.dropna.
  induction df as [|[s|] df IH]; cbn; lia.
Qed.

(** X19.  On a column of sanitized SMILES (NaN for an invalid molecule)
    that is empty, both statistics of [calc_statistics] raise
    [ZeroDivisionError]; on any other column of fewer than 2^53 rows both
    answer a number of the unit interval, and the number of distinct valid
    molecules that [_percent_unique] divides is at most the number of
    valid molecules that [_percent_valid] divides. *)
Theorem percent_valid_and_unique_within_unit_interval df :
  Z.of_nat (length df) < 2 ^ 53 ->
  match df with
  | [] =>
    CalcStatistics._percent_valid df = None
    /\ CalcStatistics._percent_unique df = None
  | _ =>
    exists v u,
      CalcStatistics._percent_valid df = Some v
      /\ CalcStatistics._percent_unique df = Some u
      /\ (v = F64.zero \/ F64.is_pos_finite v = true)
      /\ F64.ltb F64.one v = false
      /\ (u = F64.zero \/ F64.is_pos_finite u = true)
      /\ F64.ltb F64.one u = false
      /\ (size (list_to_set (CalcStatistics.dropna df) : gset string)
          <= length (CalcStatistics.dropna df) <= length df)%nat
  end.
Proof.
  intros Hsmall. destruct df as [|x df]; [by split|].
  set (rows := x :: df) in *.
  assert (Hrows : 0 < Z.of_nat (length rows) < 9007199254740992)
    by (change (2 ^ 53) with 9007199254740992 in Hsmall;
        subst rows; cbn [length] in *; lia).
  pose proof (length_dropna rows) as Hvalid.
  pose proof (size_list_to_set_le (CalcStatistics.dropna rows)) as Huniq.
  destruct (of_Z_small _ Hrows) as (m & e & Hd & _ & _).
  unfold CalcStatistics._percent_valid, CalcStatistics._percent_unique,
    CalcStatistics.truediv_int_float.
  rewrite Hd. rewrite <- Hd.
  eexists _, _. split; [reflexivity|]. split; [reflexivity|].
  destruct (div_of_Z_unit_interval
              (Z.of_nat (length (CalcStatistics.dropna rows)))
              (Z.of_nat (length rows)) ltac:(lia) Hrows) as [Hv1 Hv2].
  assert (Hsz : 0 <= Z.of_nat (size (list_to_set (CalcStatistics.dropna rows)
                                      : gset string))
                <= Z.of_nat (length rows)).
  { split; [lia|]. apply Nat2Z.inj_le. etrans; [exact Huniq | exact Hvalid]. }
  destruct (div_of_Z_unit_interval _ _ Hsz Hrows) as [Hu1 Hu2].
  repeat split; try done; lia.
Qed.

(** X19 on four rows: one invalid molecule, one molecule twice. *)
Lemma percent_valid_and_unique_within_unit_interval_witness :
  exists v u,
    CalcStatistics._percent_valid
      [Some "CCO"; None; Some "CCO"; Some "CCC"]%string = Some v
    /\ CalcStatistics._percent_unique
         [Some "CCO"; None; Some "CCO"; Some "CCC"]%string = Some u
    /\ F64.ltb F64.one v = false
    /\ F64.ltb F64.one u = false.
Proof.
  destruct (percent_valid_and_unique_within_unit_interval
              [Some "CCO"; None; Some "CCO"; Some "CCC"]%string)
    as (v & u & Hv & Hu & _ & Hv1 & _ & Hu1 & _).
  - cbn. lia.
  - exists v, u. split; [exact Hv|]. split; [exact Hu|].
    split; [exact Hv1 | exact Hu1].
Defined.

(** ** Similarity of pairs *)

Section SimilarityFacts.
Context {Mol BitVect : Type}.
Variable MolFromSmiles : string -> option Mol.
Variable GetMorganFingerprintAsBitVect : Mol -> Z -> Z -> BitVect.
Variable TanimotoSimilarity : BitVect -> BitVect -> F64.float.
Variable np_mean : list F64.float -> F64.float.

Abbreviation calc_fingerprint :=
  (Smiles.calc_fingerprint MolFromSmiles GetMorganFingerprintAsBitVect).
Abbreviation calc_similarity_loop :=
  (Smiles.calc_similarity_loop MolFromSmiles GetMorganFingerprintAsBitVect
     TanimotoSimilarity).
Abbreviation calc_similarity :=
  (Smiles.calc_similarity MolFromSmiles GetMorganFingerprintAsBitVect
     TanimotoSimilarity np_mean).

Lemma calc_similarity_loop_app l1 l2 nbits sims :
  calc_similarity_loop (l1 ++ l2) nbits sims
  = calc_similarity_loop l2 nbits (calc_similarity_loop l1 nbits sims).
Proof.
  revert sims. induction l1 as [|[s e] l1 IH]; intros sims; [done|].
  cbn. destruct (calc_fingerprint s 2 nbits), (calc_fingerprint e 2 nbits);
    apply IH.
Qed.

(** X20.  A pair with a molecule that does not parse is skipped: it can be
    removed from the list of pairs without changing the answer of
    [calc_similarity]; and when no pair has two molecules that parse (the
    empty list included) the answer is the integer 0, not a mean. *)
Theorem calc_similarity_skips_unparsable_pairs l1 start end_ l2 nbits :
  MolFromSmiles start = None \/ MolFromSmiles end_ = None ->
  calc_similarity (l1 ++ (start, end_) :: l2) nbits
  = calc_similarity (l1 ++ l2) nbits
  /\ (Forall (fun p => MolFromSmiles p.1 = None \/ MolFromSmiles p.2 = None)
        (l1 ++ l2) ->
      calc_similarity (l1 ++ (start, end_) :: l2) nbits = PyInt 0).
Proof.
  intros Hbad.
  assert (Hskip : forall sims,
    calc_similarity_loop ((start, end_) :: l2) nbits sims
    = calc_similarity_loop l2 nbits sims).
  { intros sims. cbn. unfold Smiles.calc_fingerprint.
    destruct Hbad as [-> | ->]; [done|].
    by destruct (MolFromSmiles start). }
  assert (Heq : calc_similarity (l1 ++ (start, end_) :: l2) nbits
                = calc_similarity (l1 ++ l2) nbits).
  { unfold Smiles.calc_similarity.
    by rewrite !calc_similarity_loop_app, Hskip. }
  split; [exact Heq|].
  intros Hall. rewrite Heq. unfold Smiles.calc_similarity.
  assert (Hnone : forall l sims,
    Forall (fun p => MolFromSmiles p.1 = None \/ MolFromSmiles p.2 = None) l ->
    calc_similarity_loop l nbits sims = sims).
  { induction l as [|[s e] l IH]; intros sims Hl; [done|].
    apply Forall_cons in Hl as [Hp Hl]. cbn. unfold Smiles.calc_fingerprint.
    cbn in Hp. destruct Hp as [-> | ->]; [by apply IH|].
    destruct (MolFromSmiles s); by apply IH. }
  by rewrite Hnone.
Qed.

End SimilarityFacts.

(** X20 with a parser that refuses one string. *)
Lemma calc_similarity_skips_unparsable_pairs_witness :
  let parse := fun s : string =>
    if String.eqb s "invalid_string" then None else Some s in
  let fp := fun (mol : string) (_ _ : Z) => mol in
  let sim := fun a b : string => if String.eqb a b then F64.one else F64.zero in
  Smiles.calc_similarity parse fp sim (fun l => hd F64.zero l)
    [("CCO", "CCO"); ("CCO", "invalid_string")]%string 2048
  = Smiles.calc_similarity parse fp sim (fun l => hd F64.zero l)
      [("CCO", "CCO")]%string 2048.
Proof.
  cbv zeta.
  apply (calc_similarity_skips_unparsable_pairs
           (fun s : string =>
              if String.eqb s "invalid_string" then None else Some s)
           (fun (mol : string) (_ _ : Z) => mol)
           (fun a b : string => if String.eqb a b then F64.one else F64.zero)
           (fun l => hd F64.zero l)
           [("CCO", "CCO")]%string "CCO"%string "invalid_string"%string []
           2048).
  right. reflexivity.
Defined.
